(** * The animator of the engine: a shallow embedding of [Animator]

    Source: [packages/core/src/animation/Animator.ts] (the third document of
    [src/packages/core/src/Scene.ts]).

    Conventions of the embedding.
    - A JavaScript [number] is an exact rational ([Q]).  IEEE rounding, NaN
      and the infinities are not represented: a division by zero and a
      remainder by zero are outside the model, and the statements that divide
      carry the hypothesis that the divisor is positive.
    - An object that the source shares by reference is kept in a store and
      named by a key: the two playback records of a layer ([PlayDataRef]),
      the curve owners ([OwnerRef]), the transitions of a state
      ([TransitionRef]).  Arrays that are only rebuilt are lists.
    - A read of a property of [undefined] or [null] raises [TypeError], as in
      the source; every function that can raise returns a [Completion]
      together with the store as it was when the error was raised.
    - A TypeScript cast ([<Vector3>v], [v as Quaternion]) converts nothing at
      run time; the embedding reads the components that the value has and
      reads [0] for a component that it lacks (the source reads [undefined]
      there; the types of the clips exclude the case). *)

From Stdlib Require Import QArith Qround Lqa ZArith Lia.
From stdpp Require Import gmap strings list fin_maps.

Local Open Scope Q_scope.

(** ** Numbers *)

(** [Math.trunc]: rounding toward zero. *)
Definition js_trunc (x : Q) : Z :=
  if Qle_bool 0 x then Qfloor x else Qceiling x.

(** The operator [%] of JavaScript on finite operands with a nonzero
    divisor: the result has the sign of the dividend. *)
Definition js_rem (a b : Q) : Q := a - b * inject_Z (js_trunc (a / b)).

(** [a > b], [a >= b] and [a === b] on numbers. *)
Definition js_gt (a b : Q) : bool := negb (Qle_bool a b).
Definition js_ge (a b : Q) : bool := Qle_bool b a.
Definition js_eq (a b : Q) : bool := Qeq_bool a b.

(** ** Values of the math library *)

Record Vector2 := mkVector2 { v2x : Q; v2y : Q }.
Record Vector3 := mkVector3 { v3x : Q; v3y : Q; v3z : Q }.
Record Vector4 := mkVector4 { v4x : Q; v4y : Q; v4z : Q; v4w : Q }.
Record Quaternion := mkQuaternion { qx : Q; qy : Q; qz : Q; qw : Q }.

(** [InterpolableValue = number | Vector2 | Vector3 | Vector4 | Quaternion]. *)
Inductive InterpolableValue :=
| VNumber (n : Q)
| VVector2 (v : Vector2)
| VVector3 (v : Vector3)
| VVector4 (v : Vector4)
| VQuaternion (q : Quaternion).

(** Component reads [v.x], [v.y], [v.z], [v.w]. *)
Definition getX (v : InterpolableValue) : Q :=
  match v with
  | VNumber _ => 0
  | VVector2 a => v2x a
  | VVector3 a => v3x a
  | VVector4 a => v4x a
  | VQuaternion a => qx a
  end.

Definition getY (v : InterpolableValue) : Q :=
  match v with
  | VNumber _ => 0
  | VVector2 a => v2y a
  | VVector3 a => v3y a
  | VVector4 a => v4y a
  | VQuaternion a => qy a
  end.

Definition getZ (v : InterpolableValue) : Q :=
  match v with
  | VNumber _ | VVector2 _ => 0
  | VVector3 a => v3z a
  | VVector4 a => v4z a
  | VQuaternion a => qz a
  end.

Definition getW (v : InterpolableValue) : Q :=
  match v with
  | VNumber _ | VVector2 _ | VVector3 _ => 0
  | VVector4 a => v4w a
  | VQuaternion a => qw a
  end.

(** The casts of the source. *)
Definition asNumber (v : InterpolableValue) : Q :=
  match v with VNumber n => n | _ => 0 end.
Definition asVector2 (v : InterpolableValue) : Vector2 :=
  mkVector2 (getX v) (getY v).
Definition asVector3 (v : InterpolableValue) : Vector3 :=
  mkVector3 (getX v) (getY v) (getZ v).
Definition asVector4 (v : InterpolableValue) : Vector4 :=
  mkVector4 (getX v) (getY v) (getZ v) (getW v).
Definition asQuaternion (v : InterpolableValue) : Quaternion :=
  mkQuaternion (getX v) (getY v) (getZ v) (getW v).

(** Component-wise equality up to the equality of rationals. *)
Definition Vector3_eq (a b : Vector3) : Prop :=
  v3x a == v3x b /\ v3y a == v3y b /\ v3z a == v3z b.

Definition Vector4_eq (a b : Vector4) : Prop :=
  v4x a == v4x b /\ v4y a == v4y b /\ v4z a == v4z b /\ v4w a == v4w b.

(** [Vector3.lerp(start, end, t, out)]. *)
Definition Vector3_lerp (s e : Vector3) (t : Q) : Vector3 :=
  mkVector3 (v3x s + (v3x e - v3x s) * t)
            (v3y s + (v3y e - v3y s) * t)
            (v3z s + (v3z e - v3z s) * t).

(** The product of two vectors, component by component. *)
Definition Vector3_scaleBy (a b : Vector3) : Vector3 :=
  mkVector3 (v3x a * v3x b) (v3y a * v3y b) (v3z a * v3z b).

(** [Quaternion.conjugate(a, out)] and [Quaternion.multiply(a, b, out)]. *)
Definition Quaternion_conjugate (a : Quaternion) : Quaternion :=
  mkQuaternion (- qx a) (- qy a) (- qz a) (qw a).

Definition Quaternion_multiply (a b : Quaternion) : Quaternion :=
  mkQuaternion
    (qx a * qw b + qw a * qx b + qy a * qz b - qz a * qy b)
    (qy a * qw b + qw a * qy b + qz a * qx b - qx a * qz b)
    (qz a * qw b + qw a * qz b + qx a * qy b - qy a * qx b)
    (qw a * qw b - qx a * qx b - qy a * qy b - qz a * qz b).

(** The collaborators whose code is not part of the animator and that no
    rational function expresses: the spherical interpolation and the
    normalisation of the math library, the two weighting helpers of
    [AnimatorUtils], and the lookup of an entity by its path in the scene
    graph (an entity is named by its [instanceId]). *)
Class Collaborators := {
  Quaternion_slerp : Quaternion -> Quaternion -> Q -> Quaternion;
  Quaternion_normalize : Quaternion -> Quaternion;
  calQuaternionWeight : Quaternion -> Q -> Quaternion;
  calScaleWeight : Vector3 -> Q -> Vector3;
  findByPath : string -> nat
}.

(** ** Enumerations *)

Inductive AnimationProperty := Position | Rotation | Scale.

Module InterpolableValueType.
Inductive t := Float | Vector2 | Vector3 | Vector4 | Quaternion.
End InterpolableValueType.

Module LayerState.
Inductive t := Standby | Playing | CrossFading | FixedCrossFading.
End LayerState.

Module PlayState.
Inductive t := Playing | Fading | Crossing | Finished.
End PlayState.

Module WrapMode.
Inductive t := Clamp | Loop.
End WrapMode.

Module AnimatorLayerBlendingMode.
Inductive t := Override | Additive.
End AnimatorLayerBlendingMode.

(** The constructor of a component: [Transform] or another one. *)
Inductive ComponentType := Transform | OtherComponent (tag : nat).

Definition isTransform (c : ComponentType) : bool :=
  match c with Transform => true | OtherComponent _ => false end.

(** The numeric value of the enumeration, the second index of the owner
    cache [_animationCureOwners[instanceId][property]]. *)
Definition propertyCode (p : AnimationProperty) : nat :=
  match p with Position => 0 | Rotation => 1 | Scale => 2 end.

Definition LayerState_eqb (a b : LayerState.t) : bool :=
  match a, b with
  | LayerState.Standby, LayerState.Standby
  | LayerState.Playing, LayerState.Playing
  | LayerState.CrossFading, LayerState.CrossFading
  | LayerState.FixedCrossFading, LayerState.FixedCrossFading => true
  | _, _ => false
  end.

(** [playState === PlayState.X]; a record that was never assigned holds
    [undefined], which equals no member. *)
Definition playState_is (p : option PlayState.t) (x : PlayState.t) : bool :=
  match p, x with
  | Some PlayState.Playing, PlayState.Playing
  | Some PlayState.Fading, PlayState.Fading
  | Some PlayState.Crossing, PlayState.Crossing
  | Some PlayState.Finished, PlayState.Finished => true
  | _, _ => false
  end.

(** ** Clips, states and the controller (read-only inputs of the animator) *)

(** An [AnimationCurve]: its interpolation [evaluate], the values of its
    keyframes ([keys[i].value]) and the tag of its values. *)
Module AnimationCurve.
Record t := mk {
    evaluate : Q -> InterpolableValue;
    keys : list InterpolableValue;
    _valueType : InterpolableValueType.t
  }.
End AnimationCurve.

(** An entry of [AnimationClip._curves]. *)
Module AnimationClipCurveData.
Record t := mk {
    relativePath : string;
    type : ComponentType;
    property : AnimationProperty;
    curve : AnimationCurve.t
  }.
End AnimationClipCurveData.

Module AnimationClip.
Record t := mk {
    length : Q;
    _curves : list AnimationClipCurveData.t
  }.
End AnimationClip.

(** Modelled from the spec: the class [AnimatorState] is not among the
    sources.  A state is "a named wrapper around one animation clip plus
    wrap-mode and outgoing transitions" with a [clipEndTime]; the object
    identity that [play] tests with [!==] is [instanceId]; the outgoing
    transitions, the only mutable part, live in the store of the animator
    ([Animator.stateTransitions]); [_getTheRealFrameTime] is a method of
    the missing class and is carried as a function. *)
Module AnimatorState.
Record t := mk {
    instanceId : nat;
    name : string;
    clip : AnimationClip.t;
    wrapMode : WrapMode.t;
    clipEndTime : Q;
    _getTheRealFrameTime : Q -> Q
  }.
End AnimatorState.

(** Modelled from the spec: [findStateByName(name) -> State | null] of the
    state machine of a layer, which is not among the sources; the first
    state of that name. *)
Definition findStateByName (states : list AnimatorState.t) (n : string)
  : option AnimatorState.t :=
  List.find (fun s => String.eqb (AnimatorState.name s) n) states.

Module AnimatorControllerLayer.
Record t := mk {
    name : string;
    weight : Q;
    blendingMode : AnimatorLayerBlendingMode.t;
    stateMachine : list AnimatorState.t
  }.
End AnimatorControllerLayer.

Module AnimatorController.
Record t := mk { layers : list AnimatorControllerLayer.t }.
End AnimatorController.

(** ** The records that the animator owns *)

(** Modelled from the spec: the class [AnimatorStateTransition] is not among
    the sources.  The animator reads and writes [duration], [offset] and
    [_crossFadeFrameTime]; a new transition starts with all three at [0]. *)
Module AnimatorStateTransition.
Record t := mk {
    destinationState : option nat;
    duration : Q;
    offset : Q;
    _crossFadeFrameTime : Q
  }.
Definition new : t := mk None 0 0 0.
Definition set_duration (d : Q) (tr : t) : t :=
    mk (destinationState tr) d (offset tr) (_crossFadeFrameTime tr).
Definition set_offset (o : Q) (tr : t) : t :=
    mk (destinationState tr) (duration tr) o (_crossFadeFrameTime tr).
Definition set_crossFadeFrameTime (c : Q) (tr : t) : t :=
    mk (destinationState tr) (duration tr) (offset tr) c.
End AnimatorStateTransition.

(** The transition that a call works on: the shared [_transitionForPose] of
    the animator, or the [index]-th outgoing transition of a state. *)
Inductive TransitionRef :=
| PoseTransition
| StateTransition (stateId : nat) (index : nat).

(** A transform of the scene: the three properties that the animator
    writes. *)
Module TransformData.
Record t := mk {
    position : Vector3;
    rotationQuaternion : Quaternion;
    scale : Vector3
  }.
Definition identity : t :=
    mk (mkVector3 0 0 0) (mkQuaternion 0 0 0 1) (mkVector3 1 1 1).
Definition set_position (v : Vector3) (tr : t) : t :=
    mk v (rotationQuaternion tr) (scale tr).
Definition set_rotationQuaternion (q : Quaternion) (tr : t) : t :=
    mk (position tr) q (scale tr).
Definition set_scale (v : Vector3) (tr : t) : t :=
    mk (position tr) (rotationQuaternion tr) v.
End TransformData.

(** The scene: the transform of every entity, by [instanceId]; an entity
    that nobody wrote yet has the identity transform. *)
Abbreviation Scene := (gmap nat TransformData.t).

Definition transformOf (sc : Scene) (e : nat) : TransformData.t :=
  default TransformData.identity (sc !! e).

(** A reference to a curve owner: the two indices of the cache
    [_animationCureOwners[instanceId][property]]. *)
Abbreviation OwnerRef := (nat * nat)%type.

(** Modelled from the spec: the class [AnimationCureOwner] is not among the
    sources.  An owner binds one property of one entity and caches
    [defaultValue], [fixedPoseValue], the generation mark [crossCurveMark]
    and [crossCurveIndex]; the two snapshots copy the current value of the
    bound property of the target. *)
Module AnimationCureOwner.
Record t := mk {
    target : nat;
    type : ComponentType;
    property : AnimationProperty;
    defaultValue : InterpolableValue;
    fixedPoseValue : InterpolableValue;
    crossCurveMark : nat;
    crossCurveIndex : option nat
  }.

Definition initialValue (p : AnimationProperty) : InterpolableValue :=
    match p with
    | Position | Scale => VVector3 (mkVector3 0 0 0)
    | Rotation => VQuaternion (mkQuaternion 0 0 0 1)
    end.

Definition new (e : nat) (c : ComponentType) (p : AnimationProperty) : t :=
    mk e c p (initialValue p) (initialValue p) 0 None.

Definition snapshot (sc : Scene) (o : t) : InterpolableValue :=
    match property o with
    | Position => VVector3 (TransformData.position (transformOf sc (target o)))
    | Rotation =>
        VQuaternion (TransformData.rotationQuaternion (transformOf sc (target o)))
    | Scale => VVector3 (TransformData.scale (transformOf sc (target o)))
    end.

Definition saveDefaultValue (sc : Scene) (o : t) : t :=
    mk (target o) (type o) (property o) (snapshot sc o) (fixedPoseValue o)
       (crossCurveMark o) (crossCurveIndex o).

Definition saveFixedPoseValue (sc : Scene) (o : t) : t :=
    mk (target o) (type o) (property o) (defaultValue o) (snapshot sc o)
       (crossCurveMark o) (crossCurveIndex o).

Definition set_cross (mark : nat) (index : option nat) (o : t) : t :=
    mk (target o) (type o) (property o) (defaultValue o) (fixedPoseValue o)
       mark index.

Definition set_crossCurveMark (mark : nat) (o : t) : t :=
    set_cross mark (crossCurveIndex o) o.
End AnimationCureOwner.

(** [AnimatorStateData]: the owners of the curves of a state, by curve
    index. *)
Module AnimatorStateData.
Record t := mk { owners : list OwnerRef }.
End AnimatorStateData.

(** Modelled from the spec: the class [AnimatorStatePlayData] is not among
    the sources.  "Mutable per-activation record: state, frameTime,
    playState, stateData"; a field that was never assigned is [None]
    ([frameTime]: [0]). *)
Module AnimatorStatePlayData.
Record t := mk {
    state : option AnimatorState.t;
    frameTime : Q;
    playState : option PlayState.t;
    stateData : option AnimatorStateData.t
  }.
Definition new : t := mk None 0 None None.
Definition set_frameTime (f : Q) (p : t) : t :=
    mk (state p) f (playState p) (stateData p).
Definition set_playState (s : PlayState.t) (p : t) : t :=
    mk (state p) (frameTime p) (Some s) (stateData p).
End AnimatorStatePlayData.

(** The two playback records that a layer allocates.  [srcPlayData] and
    [destPlayData] of the layer are references to them, and after the
    promotion [srcPlayData = destPlayData] both name the same record. *)
Inductive PlayDataRef := FirstPlayData | SecondPlayData.

Definition PlayDataRef_eqb (a b : PlayDataRef) : bool :=
  match a, b with
  | FirstPlayData, FirstPlayData | SecondPlayData, SecondPlayData => true
  | _, _ => false
  end.

(** Modelled from the spec: the class [AnimatorLayerData] is not among the
    sources.  "Holds layerState, the src/dest StatePlayback, a
    monotonically increasing crossCurveMark generation counter, and a
    name->StateData cache"; a new layer is in [Standby] with two distinct
    fresh records. *)
Module AnimatorLayerData.
Record t := mk {
    animatorStateDataMap : gmap string AnimatorStateData.t;
    srcPlayData : PlayDataRef;
    destPlayData : PlayDataRef;
    layerState : LayerState.t;
    crossCurveMark : nat;
    firstPlayData : AnimatorStatePlayData.t;
    secondPlayData : AnimatorStatePlayData.t
  }.

Definition new : t :=
    mk ∅ FirstPlayData SecondPlayData LayerState.Standby 0
       AnimatorStatePlayData.new AnimatorStatePlayData.new.

  (** Reading and writing through a reference. *)
Definition deref (r : PlayDataRef) (d : t) : AnimatorStatePlayData.t :=
    match r with
    | FirstPlayData => firstPlayData d
    | SecondPlayData => secondPlayData d
    end.

Definition assign (r : PlayDataRef) (p : AnimatorStatePlayData.t) (d : t) : t :=
    match r with
    | FirstPlayData =>
        mk (animatorStateDataMap d) (srcPlayData d) (destPlayData d)
           (layerState d) (crossCurveMark d) p (secondPlayData d)
    | SecondPlayData =>
        mk (animatorStateDataMap d) (srcPlayData d) (destPlayData d)
           (layerState d) (crossCurveMark d) (firstPlayData d) p
    end.

Definition set_animatorStateDataMap (m : gmap string AnimatorStateData.t)
      (d : t) : t :=
    mk m (srcPlayData d) (destPlayData d) (layerState d) (crossCurveMark d)
       (firstPlayData d) (secondPlayData d).

Definition set_srcPlayData (r : PlayDataRef) (d : t) : t :=
    mk (animatorStateDataMap d) r (destPlayData d) (layerState d)
       (crossCurveMark d) (firstPlayData d) (secondPlayData d).

Definition set_layerState (s : LayerState.t) (d : t) : t :=
    mk (animatorStateDataMap d) (srcPlayData d) (destPlayData d) s
       (crossCurveMark d) (firstPlayData d) (secondPlayData d).

Definition set_crossCurveMark (n : nat) (d : t) : t :=
    mk (animatorStateDataMap d) (srcPlayData d) (destPlayData d)
       (layerState d) n (firstPlayData d) (secondPlayData d).

  (** The records behind [srcPlayData] and [destPlayData]. *)
Definition src (d : t) : AnimatorStatePlayData.t := deref (srcPlayData d) d.
Definition dest (d : t) : AnimatorStatePlayData.t := deref (destPlayData d) d.
End AnimatorLayerData.

(** [CrossCurveData]: an owner and its curve index on either side of the
    transition, [null] ([None]) when the side has no curve for it.  The
    records come from a pool that is reset together with the array, so the
    array is a list of values. *)
Module CrossCurveData.
Record t := mk {
    owner : OwnerRef;
    curCurveIndex : option nat;
    nextCurveIndex : option nat
  }.
Definition set_nextCurveIndex (n : option nat) (c : t) : t :=
    mk (owner c) (curCurveIndex c) n.
End CrossCurveData.

(** The value that [_diffValueFromBasePose] holds: [undefined] before the
    first diff, a number, or a reference to one of the four buffers. *)
Inductive DiffRef :=
| DiffUndefined
| DiffNumber (n : Q)
| DiffVector2Buffer
| DiffVector3Buffer
| DiffVector4Buffer
| DiffQuaternionBuffer.

Module DiffBuffers.
Record t := mk {
    _diffValueFromBasePose : DiffRef;
    _diffFloatFromBasePose : Q;
    _diffVector2FromBasePose : Vector2;
    _diffVector3FromBasePose : Vector3;
    _diffVector4FromBasePose : Vector4;
    _diffQuaternionFromBasePose : Quaternion
  }.
Definition new : t :=
    mk DiffUndefined 0 (mkVector2 0 0) (mkVector3 0 0 0) (mkVector4 0 0 0 0)
       (mkQuaternion 0 0 0 1).

  (** The value behind the reference; [None] is [undefined]. *)
Definition read (b : t) : option InterpolableValue :=
    match _diffValueFromBasePose b with
    | DiffUndefined => None
    | DiffNumber n => Some (VNumber n)
    | DiffVector2Buffer => Some (VVector2 (_diffVector2FromBasePose b))
    | DiffVector3Buffer => Some (VVector3 (_diffVector3FromBasePose b))
    | DiffVector4Buffer => Some (VVector4 (_diffVector4FromBasePose b))
    | DiffQuaternionBuffer => Some (VQuaternion (_diffQuaternionFromBasePose b))
    end.
End DiffBuffers.

(** The animator with the part of the heap that it reaches: its own fields,
    the outgoing transitions of the states ([stateTransitions], by
    [AnimatorState.instanceId]) and the transforms of the scene. *)
Module Animator.
Record t := mk {
    speed : Q;
    animatorController : option AnimatorController.t;
    diff : DiffBuffers.t;
    _animatorLayersData : gmap nat AnimatorLayerData.t;
    _crossCurveData : list CrossCurveData.t;
    _transitionForPose : AnimatorStateTransition.t;
    _animationCureOwners : gmap OwnerRef AnimationCureOwner.t;
    stateTransitions : gmap nat (list AnimatorStateTransition.t);
    scene : Scene
  }.

Definition set_diff (x : DiffBuffers.t) (a : t) : t :=
    mk (speed a) (animatorController a) x (_animatorLayersData a)
       (_crossCurveData a) (_transitionForPose a) (_animationCureOwners a)
       (stateTransitions a) (scene a).
Definition set_animatorLayersData (x : gmap nat AnimatorLayerData.t) (a : t) : t :=
    mk (speed a) (animatorController a) (diff a) x
       (_crossCurveData a) (_transitionForPose a) (_animationCureOwners a)
       (stateTransitions a) (scene a).
Definition set_crossCurveData (x : list CrossCurveData.t) (a : t) : t :=
    mk (speed a) (animatorController a) (diff a) (_animatorLayersData a)
       x (_transitionForPose a) (_animationCureOwners a)
       (stateTransitions a) (scene a).
Definition set_transitionForPose (x : AnimatorStateTransition.t) (a : t) : t :=
    mk (speed a) (animatorController a) (diff a) (_animatorLayersData a)
       (_crossCurveData a) x (_animationCureOwners a)
       (stateTransitions a) (scene a).
Definition set_animationCureOwners (x : gmap OwnerRef AnimationCureOwner.t)
      (a : t) : t :=
    mk (speed a) (animatorController a) (diff a) (_animatorLayersData a)
       (_crossCurveData a) (_transitionForPose a) x
       (stateTransitions a) (scene a).
Definition set_stateTransitions (x : gmap nat (list AnimatorStateTransition.t))
      (a : t) : t :=
    mk (speed a) (animatorController a) (diff a) (_animatorLayersData a)
       (_crossCurveData a) (_transitionForPose a) (_animationCureOwners a)
       x (scene a).
Definition set_scene (x : Scene) (a : t) : t :=
    mk (speed a) (animatorController a) (diff a) (_animatorLayersData a)
       (_crossCurveData a) (_transitionForPose a) (_animationCureOwners a)
       (stateTransitions a) x.

  (** [new Animator(entity)] with a controller and a speed. *)
Definition new (c : option AnimatorController.t) (s : Q) : t :=
    mk s c DiffBuffers.new ∅ [] AnimatorStateTransition.new ∅ ∅ ∅.
End Animator.

(** ** Completions *)

Inductive JsError := TypeError.

(** How a call ends: it returns a value or raises an error. *)
Inductive Completion (A : Type) :=
| Normal (a : A)
| Throw (e : JsError).
Arguments Normal {A} a.
Arguments Throw {A} e.

(** A computation over a store [St]: it transforms the store and completes. *)
Definition Stateful (St A : Type) : Type := St -> St * Completion A.

Definition ret {St A} (x : A) : Stateful St A := fun s => (s, Normal x).
Definition throw {St A} (e : JsError) : Stateful St A := fun s => (s, Throw e).
Definition bind {St A B} (m : Stateful St A) (k : A -> Stateful St B)
  : Stateful St B :=
  fun s =>
    match m s with
    | (s', Normal x) => k x s'
    | (s', Throw e) => (s', Throw e)
    end.
Definition get {St} : Stateful St St := fun s => (s, Normal s).
Definition modify {St} (f : St -> St) : Stateful St unit :=
  fun s => (f s, Normal tt).

(** A value that must not be [undefined]: reading a property of it raises
    [TypeError] otherwise. *)
Definition defined {St A} (o : option A) : Stateful St A :=
  match o with
  | Some x => ret x
  | None => throw TypeError
  end.

Notation "'do' x <- m ; k" := (bind m (fun x => k))
  (at level 10, x name, m at level 100, k at level 200).
Notation "'run' m ; k" := (bind m (fun _ => k))
  (at level 10, m at level 100, k at level 200).

(** [for (let i = n - 1; i >= 0; i--) body(i)]. *)
Fixpoint forDown {St} (n : nat) (body : nat -> Stateful St unit)
  : Stateful St unit :=
  match n with
  | O => ret tt
  | S i => run body i; forDown i body
  end.

(** [for (let i = from; i < from + count; i++) body(i)]. *)
Fixpoint forUp {St} (count from : nat) (body : nat -> Stateful St unit)
  : Stateful St unit :=
  match count with
  | O => ret tt
  | S c => run body from; forUp c (S from) body
  end.

(** A method of the animator. *)
Definition Method (A : Type) : Type := Stateful Animator.t A.

(** A [switch] on an enumeration: the body of the first [case] whose label
    equals the scrutinee runs (every body of the animator ends in [break]),
    and nothing runs when no label does. *)
Fixpoint switch {L A : Type} (eqb : L -> L -> bool) (scrutinee : L)
    (cases : list (L * A)) (otherwise : A) : A :=
  match cases with
  | [] => otherwise
  | (label, body) :: rest =>
      if eqb scrutinee label then body else switch eqb scrutinee rest otherwise
  end.

Definition InterpolableValueType_eqb (a b : InterpolableValueType.t) : bool :=
  match a, b with
  | InterpolableValueType.Float, InterpolableValueType.Float
  | InterpolableValueType.Vector2, InterpolableValueType.Vector2
  | InterpolableValueType.Vector3, InterpolableValueType.Vector3
  | InterpolableValueType.Vector4, InterpolableValueType.Vector4
  | InterpolableValueType.Quaternion, InterpolableValueType.Quaternion => true
  | _, _ => false
  end.

(** ** The diff from the base pose *)

Definition isScale (p : AnimationProperty) : bool :=
  match p with Scale => true | _ => false end.

Definition _calculateFloatDiff (property : AnimationProperty) (sVal dVal : Q)
    (b : DiffBuffers.t) : DiffBuffers.t :=
  let d := if isScale property then dVal / sVal else dVal - sVal in
  DiffBuffers.mk (DiffNumber d) d
    (DiffBuffers._diffVector2FromBasePose b)
    (DiffBuffers._diffVector3FromBasePose b)
    (DiffBuffers._diffVector4FromBasePose b)
    (DiffBuffers._diffQuaternionFromBasePose b).

Definition _calculateVector2Diff (property : AnimationProperty)
    (sVal dVal : Vector2) (b : DiffBuffers.t) : DiffBuffers.t :=
  let d :=
    if isScale property
    then mkVector2 (v2x dVal / v2x sVal) (v2y dVal / v2y sVal)
    else mkVector2 (v2x dVal - v2x sVal) (v2y dVal - v2y sVal) in
  DiffBuffers.mk DiffVector2Buffer
    (DiffBuffers._diffFloatFromBasePose b)
    d
    (DiffBuffers._diffVector3FromBasePose b)
    (DiffBuffers._diffVector4FromBasePose b)
    (DiffBuffers._diffQuaternionFromBasePose b).

Definition _calculateVector3Diff (property : AnimationProperty)
    (sVal dVal : Vector3) (b : DiffBuffers.t) : DiffBuffers.t :=
  let d :=
    if isScale property
    then mkVector3 (v3x dVal / v3x sVal) (v3y dVal / v3y sVal)
                   (v3z dVal / v3z sVal)
    else mkVector3 (v3x dVal - v3x sVal) (v3y dVal - v3y sVal)
                   (v3z dVal - v3z sVal) in
  DiffBuffers.mk DiffVector3Buffer
    (DiffBuffers._diffFloatFromBasePose b)
    (DiffBuffers._diffVector2FromBasePose b)
    d
    (DiffBuffers._diffVector4FromBasePose b)
    (DiffBuffers._diffQuaternionFromBasePose b).

Definition _calculateVector4Diff (property : AnimationProperty)
    (sVal dVal : Vector4) (b : DiffBuffers.t) : DiffBuffers.t :=
  let d :=
    if isScale property
    then mkVector4 (v4x dVal / v4x sVal) (v4y dVal / v4y sVal)
                   (v4z dVal / v4z sVal) (v4w dVal / v4w sVal)
    else mkVector4 (v4x dVal - v4x sVal) (v4y dVal - v4y sVal)
                   (v4z dVal - v4z sVal) (v4w dVal - v4w sVal) in
  DiffBuffers.mk DiffVector4Buffer
    (DiffBuffers._diffFloatFromBasePose b)
    (DiffBuffers._diffVector2FromBasePose b)
    (DiffBuffers._diffVector3FromBasePose b)
    d
    (DiffBuffers._diffQuaternionFromBasePose b).

Definition _calculateQuaternionDiff (dVal sVal : Quaternion)
    (b : DiffBuffers.t) : DiffBuffers.t :=
  DiffBuffers.mk DiffQuaternionBuffer
    (DiffBuffers._diffFloatFromBasePose b)
    (DiffBuffers._diffVector2FromBasePose b)
    (DiffBuffers._diffVector3FromBasePose b)
    (DiffBuffers._diffVector4FromBasePose b)
    (Quaternion_multiply (Quaternion_conjugate sVal) dVal).

(** [_calculateDiff]: the [switch] of the source, label by label; the label
    of its fourth [case] is [InterpolableValueType.Vector3], as in the
    source. *)
Definition _calculateDiff (valueType : InterpolableValueType.t)
    (property : AnimationProperty) (sVal dVal : InterpolableValue)
    (b : DiffBuffers.t) : DiffBuffers.t :=
  switch InterpolableValueType_eqb valueType
    [ (InterpolableValueType.Float,
       _calculateFloatDiff property (asNumber sVal) (asNumber dVal) b);
      (InterpolableValueType.Vector2,
       _calculateVector2Diff property (asVector2 sVal) (asVector2 dVal) b);
      (InterpolableValueType.Vector3,
       _calculateVector3Diff property (asVector3 sVal) (asVector3 dVal) b);
      (InterpolableValueType.Vector3,
       _calculateVector4Diff property (asVector4 sVal) (asVector4 dVal) b);
      (InterpolableValueType.Quaternion,
       _calculateQuaternionDiff (asQuaternion dVal) (asQuaternion sVal) b) ]
    b.

(** ** Writing a pose: the scene and the diff buffers *)

(** The part of the store that the evaluation of curves writes. *)
Module Pose.
Record t := mk { scene : Scene; diff : DiffBuffers.t }.
End Pose.

Definition PoseMethod (A : Type) : Type := Stateful Pose.t A.

(** A computation on the pose, run on the store of the animator. *)
Definition onPose {A} (m : PoseMethod A) : Method A :=
  fun a =>
    match m (Pose.mk (Animator.scene a) (Animator.diff a)) with
    | (p, c) =>
        (Animator.set_scene (Pose.scene p) (Animator.set_diff (Pose.diff p) a), c)
    end.

Definition writeTransform (e : nat) (f : TransformData.t -> TransformData.t)
    (sc : Scene) : Scene :=
  <[ e := f (transformOf sc e) ]> sc.

Section AnimatorMethods.
Context {collaborators : Collaborators}.

(** [_getCrossFadeValue]: [None] is the [undefined] that the method returns
    when the component is not a [Transform].  For [Scale] the source reads
    [transform.scale] and assigns it back unchanged. *)
Definition _getCrossFadeValue (type : ComponentType)
    (property : AnimationProperty) (sVal dVal : InterpolableValue)
    (crossWeight : Q) : option InterpolableValue :=
  if isTransform type then
    match property with
    | Position =>
        Some (VVector3 (Vector3_lerp (asVector3 sVal) (asVector3 dVal) crossWeight))
    | Rotation =>
        Some (VQuaternion
                (Quaternion_slerp (asQuaternion sVal) (asQuaternion dVal) crossWeight))
    | Scale =>
        Some (VVector3 (Vector3_lerp (asVector3 sVal) (asVector3 dVal) crossWeight))
    end
  else None.

(** [_applyClipValue].  [dstValue] is [None] only for the [undefined] of
    [_getCrossFadeValue], under the same test on [type]. *)
Definition _applyClipValue (target : nat) (type : ComponentType)
    (property : AnimationProperty) (srcValue : InterpolableValue)
    (dstValue : option InterpolableValue) (weight : Q) (sc : Scene) : Scene :=
  match isTransform type, dstValue with
  | true, Some dstValue =>
      match property with
      | Position =>
          if js_eq weight 1
          then writeTransform target
                 (TransformData.set_position (asVector3 dstValue)) sc
          else writeTransform target
                 (TransformData.set_position
                    (Vector3_lerp (asVector3 srcValue) (asVector3 dstValue) weight))
                 sc
      | Rotation =>
          if js_eq weight 1
          then writeTransform target
                 (TransformData.set_rotationQuaternion (asQuaternion dstValue)) sc
          else writeTransform target
                 (TransformData.set_rotationQuaternion
                    (Quaternion_slerp (asQuaternion srcValue)
                       (asQuaternion dstValue) weight))
                 sc
      | Scale =>
          if js_eq weight 1
          then writeTransform target
                 (TransformData.set_scale (asVector3 dstValue)) sc
          else writeTransform target
                 (TransformData.set_scale
                    (Vector3_lerp (asVector3 srcValue) (asVector3 dstValue) weight))
                 sc
      end
  | _, _ => sc
  end.

(** [_updateAdditiveLayerValue] with [diffVal = this._diffValueFromBasePose].
    Reading a component of an [undefined] diff raises [TypeError].  For
    [Rotation] the weighting and the normalisation write into the diff
    object itself, that is into the quaternion buffer when the diff refers
    to it. *)
Definition _updateAdditiveLayerValue (target : nat) (type : ComponentType)
    (property : AnimationProperty) (weight : Q) : PoseMethod unit :=
  fun p =>
    if isTransform type then
      match DiffBuffers.read (Pose.diff p) with
      | None => (p, Throw TypeError)
      | Some diffVal =>
          let b := Pose.diff p in
          let tr := transformOf (Pose.scene p) target in
          match property with
          | Position =>
              let position := TransformData.position tr in
              let position' :=
                mkVector3 (v3x position + getX diffVal)
                          (v3y position + getY diffVal)
                          (v3z position + getZ diffVal) in
              (Pose.mk (writeTransform target
                          (TransformData.set_position position') (Pose.scene p)) b,
               Normal tt)
          | Rotation =>
              let weighted :=
                Quaternion_normalize
                  (calQuaternionWeight (asQuaternion diffVal) weight) in
              let b' :=
                match DiffBuffers._diffValueFromBasePose b with
                | DiffQuaternionBuffer =>
                    DiffBuffers.mk DiffQuaternionBuffer
                      (DiffBuffers._diffFloatFromBasePose b)
                      (DiffBuffers._diffVector2FromBasePose b)
                      (DiffBuffers._diffVector3FromBasePose b)
                      (DiffBuffers._diffVector4FromBasePose b)
                      weighted
                | _ => b
                end in
              (Pose.mk (writeTransform target
                          (TransformData.set_rotationQuaternion
                             (Quaternion_multiply
                                (TransformData.rotationQuaternion tr) weighted))
                          (Pose.scene p)) b',
               Normal tt)
          | Scale =>
              let scale := calScaleWeight (TransformData.scale tr) weight in
              let scale' :=
                mkVector3 (v3x scale * getX diffVal)
                          (v3y scale * getY diffVal)
                          (v3z scale * getZ diffVal) in
              (Pose.mk (writeTransform target
                          (TransformData.set_scale scale') (Pose.scene p)) b,
               Normal tt)
          end
      end
    else (p, Normal tt).

(** ** Access to the store of the animator *)

(** The owner behind a reference.  A reference is stored only after its
    owner was put into the cache, and the cache never shrinks; the default
    is the owner that the cache would create. *)
Definition ownerAt (store : gmap OwnerRef AnimationCureOwner.t) (r : OwnerRef)
  : AnimationCureOwner.t :=
  default (AnimationCureOwner.new (fst r) Transform Position) (store !! r).

Definition writeOwner (r : OwnerRef)
    (f : AnimationCureOwner.t -> AnimationCureOwner.t) : Method unit :=
  modify (fun a =>
    Animator.set_animationCureOwners
      (<[ r := f (ownerAt (Animator._animationCureOwners a) r) ]>
         (Animator._animationCureOwners a)) a).

(** [this._animatorLayersData[layerIndex]]. *)
Definition layerDataAt (layerIndex : nat) (a : Animator.t)
  : option AnimatorLayerData.t :=
  Animator._animatorLayersData a !! layerIndex.

Definition writeLayer (layerIndex : nat)
    (f : AnimatorLayerData.t -> AnimatorLayerData.t) : Method unit :=
  modify (fun a =>
    Animator.set_animatorLayersData
      (alter f layerIndex (Animator._animatorLayersData a)) a).

(** A write to a playback record of a layer through a reference. *)
Definition writePlayData (layerIndex : nat) (r : PlayDataRef)
    (f : AnimatorStatePlayData.t -> AnimatorStatePlayData.t) : Method unit :=
  writeLayer layerIndex
    (fun d => AnimatorLayerData.assign r (f (AnimatorLayerData.deref r d)) d).

(** The outgoing transitions of a state. *)
Definition transitionsOf (a : Animator.t) (stateId : nat)
  : list AnimatorStateTransition.t :=
  default [] (Animator.stateTransitions a !! stateId).

Definition readTransition (r : TransitionRef) (a : Animator.t)
  : option AnimatorStateTransition.t :=
  match r with
  | PoseTransition => Some (Animator._transitionForPose a)
  | StateTransition stateId index => transitionsOf a stateId !! index
  end.

Definition writeTransition (r : TransitionRef)
    (f : AnimatorStateTransition.t -> AnimatorStateTransition.t) : Method unit :=
  modify (fun a =>
    match r with
    | PoseTransition =>
        Animator.set_transitionForPose (f (Animator._transitionForPose a)) a
    | StateTransition stateId index =>
        Animator.set_stateTransitions
          (<[ stateId := alter f index (transitionsOf a stateId) ]>
             (Animator.stateTransitions a)) a
    end).

(** Modelled from the spec: [AnimatorState.addTransition] is not among the
    sources.  "Allocate a transition descriptor from the current state to
    the destination": a new transition is appended to the outgoing
    transitions of the state and returned. *)
Definition addTransition (state destinationState : AnimatorState.t)
  : Method TransitionRef :=
  fun a =>
    let id := AnimatorState.instanceId state in
    let old := transitionsOf a id in
    let created :=
      AnimatorStateTransition.mk
        (Some (AnimatorState.instanceId destinationState)) 0 0 0 in
    (Animator.set_stateTransitions
       (<[ id := old ++ [created] ]> (Animator.stateTransitions a)) a,
     Normal (StateTransition id (List.length old))).

(** [array[index]] for an index that is a number: [undefined] out of the
    bounds, in particular for a negative index. *)
Definition elementAt {A} (l : list A) (index : Z) : option A :=
  if (index <? 0)%Z then None else l !! Z.to_nat index.

(** [array[index]] for an index that is a number or [null]. *)
Definition elementAtIndex {A} (l : list A) (index : option nat) : option A :=
  match index with
  | Some i => l !! i
  | None => None
  end.

(** [index >= 0] for an index that is a number or [null]: [null] converts
    to [0]. *)
Definition indexGeZero (index : option nat) : bool :=
  match index with
  | Some i => (0 <=? Z.of_nat i)%Z
  | None => (0 <=? 0)%Z
  end.

(** The truth value of an index that is a number or [null]: [null] and [0]
    are false. *)
Definition indexTruthy (index : option nat) : bool :=
  match index with
  | Some O => false
  | Some (S _) => true
  | None => false
  end.

Definition sameState (s1 s2 : AnimatorState.t) : bool :=
  Nat.eqb (AnimatorState.instanceId s1) (AnimatorState.instanceId s2).

(** ** Resolution of a state name *)

(** The loop [for (let i = 0, n = layers.length; i < n; i--)] of
    [_getAnimatorStateInfo], from [i] on; [None] when the iterations
    allowed by [fuel] do not end it. *)
Fixpoint findInLayers (fuel : nat) (layers : list AnimatorControllerLayer.t)
    (stateName : string) (i : Z)
  : option (Completion (Z * option AnimatorState.t)) :=
  match fuel with
  | O => None
  | S fuel' =>
      if (i <? Z.of_nat (List.length layers))%Z then
        match elementAt layers i with
        | None => Some (Throw TypeError)
        | Some layer =>
            match findStateByName (AnimatorControllerLayer.stateMachine layer)
                    stateName with
            | Some state => Some (Normal (i, Some state))
            | None => findInLayers fuel' layers stateName (i - 1)
            end
        end
      else Some (Normal ((-1)%Z, None))
  end.

(** [_getAnimatorStateInfo].  Two iterations end the loop from [i = 0]
    ([findInLayers_fuel]). *)
Definition _getAnimatorStateInfo (stateName : string) (layerIndex : Z)
    (a : Animator.t) : Completion (Z * option AnimatorState.t) :=
  match Animator.animatorController a with
  | None => Normal (layerIndex, None)
  | Some animatorController =>
      let layers := AnimatorController.layers animatorController in
      if (layerIndex =? -1)%Z then
        default (Throw TypeError) (findInLayers 2 layers stateName 0)
      else
        match elementAt layers layerIndex with
        | None => Throw TypeError
        | Some layer =>
            Normal (layerIndex,
                    findStateByName (AnimatorControllerLayer.stateMachine layer)
                      stateName)
        end
  end.

Definition _getAnimatorLayerData (layerIndex : nat)
  : Method AnimatorLayerData.t :=
  fun a =>
    match layerDataAt layerIndex a with
    | Some animatorLayerData => (a, Normal animatorLayerData)
    | None =>
        (Animator.set_animatorLayersData
           (<[ layerIndex := AnimatorLayerData.new ]>
              (Animator._animatorLayersData a)) a,
         Normal AnimatorLayerData.new)
    end.

(** ** Owners and state data *)

Definition _saveDefaultValues (stateData : AnimatorStateData.t) : Method unit :=
  let owners := AnimatorStateData.owners stateData in
  forDown (List.length owners) (fun i =>
    do r <- defined (owners !! i);
    do a <- get;
    writeOwner r (AnimationCureOwner.saveDefaultValue (Animator.scene a))).

Definition ownerRefOf (c : AnimationClipCurveData.t) : OwnerRef :=
  (findByPath (AnimationClipCurveData.relativePath c),
   propertyCode (AnimationClipCurveData.property c)).

(** One iteration of [_saveAnimatorStateData]: the owner of the curve is
    the cached one, or a new one that enters the cache. *)
Definition bindOwner (c : AnimationClipCurveData.t)
    (store : gmap OwnerRef AnimationCureOwner.t)
  : gmap OwnerRef AnimationCureOwner.t :=
  match store !! ownerRefOf c with
  | Some _ => store
  | None =>
      <[ ownerRefOf c :=
           AnimationCureOwner.new
             (findByPath (AnimationClipCurveData.relativePath c))
             (AnimationClipCurveData.type c)
             (AnimationClipCurveData.property c) ]> store
  end.

(** [_saveAnimatorStateData]: the curves are visited from the last to the
    first, and [owners[i]] is the owner of [curves[i]]. *)
Definition _saveAnimatorStateData (animatorState : AnimatorState.t)
  : Method AnimatorStateData.t :=
  fun a =>
    let curves := AnimationClip._curves (AnimatorState.clip animatorState) in
    (Animator.set_animationCureOwners
       (foldr bindOwner (Animator._animationCureOwners a) curves) a,
     Normal (AnimatorStateData.mk (map ownerRefOf curves))).

Definition _getAnimatorStateData (stateName : string)
    (animatorState : AnimatorState.t) (layerIndex : nat)
  : Method AnimatorStateData.t :=
  do animatorLayerData <- (fun a => defined (layerDataAt layerIndex a) a);
  match AnimatorLayerData.animatorStateDataMap animatorLayerData !! stateName with
  | Some animatorStateData => ret animatorStateData
  | None =>
      do animatorStateData <- _saveAnimatorStateData animatorState;
      run writeLayer layerIndex (fun d =>
            AnimatorLayerData.set_animatorStateDataMap
              (<[ stateName := animatorStateData ]>
                 (AnimatorLayerData.animatorStateDataMap d)) d);
      ret animatorStateData
  end.

(** [_revertDefaultValue]; [clip] is never [null] in the embedding. *)
Definition _revertDefaultValue (playData : AnimatorStatePlayData.t)
  : Method unit :=
  do state <- defined (AnimatorStatePlayData.state playData);
  let curves := AnimationClip._curves (AnimatorState.clip state) in
  do stateData <- defined (AnimatorStatePlayData.stateData playData);
  let owners := AnimatorStateData.owners stateData in
  forDown (List.length curves) (fun i =>
    do r <- defined (owners !! i);
    do curve <- defined (curves !! i);
    modify (fun a =>
      let owner := ownerAt (Animator._animationCureOwners a) r in
      let target := AnimationCureOwner.target owner in
      let value := AnimationCureOwner.defaultValue owner in
      Animator.set_scene
        (match AnimationClipCurveData.property curve with
         | Position =>
             writeTransform target
               (TransformData.set_position (asVector3 value)) (Animator.scene a)
         | Rotation =>
             writeTransform target
               (TransformData.set_rotationQuaternion (asQuaternion value))
               (Animator.scene a)
         | Scale =>
             writeTransform target
               (TransformData.set_scale (asVector3 value)) (Animator.scene a)
         end) a)).

(** ** Cross-curve data *)

Definition _clearCrossData (layerIndex : nat) : Method unit :=
  run writeLayer layerIndex (fun d =>
        AnimatorLayerData.set_crossCurveMark
          (S (AnimatorLayerData.crossCurveMark d)) d);
  modify (Animator.set_crossCurveData []).

Definition _addCrossCurveData (owner : OwnerRef)
    (curCurveIndex nextCurveIndex : option nat) : Method unit :=
  modify (fun a =>
    Animator.set_crossCurveData
      (Animator._crossCurveData a
         ++ [CrossCurveData.mk owner curCurveIndex nextCurveIndex]) a).

Definition saveFixedPoseValue (r : OwnerRef) : Method unit :=
  do a <- get;
  writeOwner r (AnimationCureOwner.saveFixedPoseValue (Animator.scene a)).

Definition _prepareSrcCrossData (srcPlayData : AnimatorStatePlayData.t)
    (crossCurveMark : nat) (saveFixed : bool) : Method unit :=
  do stateData <- defined (AnimatorStatePlayData.stateData srcPlayData);
  let owners := AnimatorStateData.owners stateData in
  forDown (List.length owners) (fun i =>
    do owner <- defined (owners !! i);
    do a <- get;
    run writeOwner owner
          (AnimationCureOwner.set_cross crossCurveMark
             (Some (List.length (Animator._crossCurveData a))));
    run (if saveFixed then saveFixedPoseValue owner else ret tt);
    _addCrossCurveData owner (Some i) None).

Definition _prepareDestCrossData (destPlayData : AnimatorStatePlayData.t)
    (crossCurveMark : nat) (saveFixed : bool) : Method unit :=
  do stateData <- defined (AnimatorStatePlayData.stateData destPlayData);
  let owners := AnimatorStateData.owners stateData in
  forDown (List.length owners) (fun i =>
    do owner <- defined (owners !! i);
    do a <- get;
    let o := ownerAt (Animator._animationCureOwners a) owner in
    if Nat.eqb (AnimationCureOwner.crossCurveMark o) crossCurveMark then
      do _ <- defined (elementAtIndex (Animator._crossCurveData a)
                         (AnimationCureOwner.crossCurveIndex o));
      modify (fun a =>
        Animator.set_crossCurveData
          (alter (CrossCurveData.set_nextCurveIndex (Some i))
             (default O (AnimationCureOwner.crossCurveIndex o))
             (Animator._crossCurveData a)) a)
    else
      run (if saveFixed then saveFixedPoseValue owner else ret tt);
      run writeOwner owner (AnimationCureOwner.set_crossCurveMark crossCurveMark);
      _addCrossCurveData owner None (Some i)).

(** The playback records of a layer, read through its two references. *)
Definition srcOf (layerIndex : nat) : Method AnimatorStatePlayData.t :=
  do d <- (fun a => defined (layerDataAt layerIndex a) a);
  ret (AnimatorLayerData.src d).

Definition destOf (layerIndex : nat) : Method AnimatorStatePlayData.t :=
  do d <- (fun a => defined (layerDataAt layerIndex a) a);
  ret (AnimatorLayerData.dest d).

Definition crossCurveMarkOf (layerIndex : nat) : Method nat :=
  do d <- (fun a => defined (layerDataAt layerIndex a) a);
  ret (AnimatorLayerData.crossCurveMark d).

Definition _prepareCrossFading (layerIndex : nat) : Method unit :=
  do crossCurveMark <- crossCurveMarkOf layerIndex;
  do srcPlayData <- srcOf layerIndex;
  run _prepareSrcCrossData srcPlayData crossCurveMark false;
  do destPlayData <- destOf layerIndex;
  _prepareDestCrossData destPlayData crossCurveMark false.

(** [_prepareStandbyCrossFading]; [srcPlayData] is an object, so the guard
    [srcPlayData && ...] always passes. *)
Definition _prepareStandbyCrossFading (layerIndex : nat) : Method unit :=
  do crossCurveMark <- crossCurveMarkOf layerIndex;
  do srcPlayData <- srcOf layerIndex;
  run _prepareSrcCrossData srcPlayData crossCurveMark true;
  do destPlayData <- destOf layerIndex;
  _prepareDestCrossData destPlayData crossCurveMark true.

Definition _prepareFiexdPoseCrossFading (layerIndex : nat) : Method unit :=
  do a <- get;
  let crossCurveData := Animator._crossCurveData a in
  run forDown (List.length crossCurveData) (fun i =>
        do dataItem <- defined (crossCurveData !! i);
        saveFixedPoseValue (CrossCurveData.owner dataItem));
  do destPlayData <- destOf layerIndex;
  do crossCurveMark <- crossCurveMarkOf layerIndex;
  _prepareDestCrossData destPlayData crossCurveMark true.

(** ** [play] and [crossFade] *)

Definition play (stateName : string) (layerIndex : Z)
    (normalizedTimeOffset : Q) : Method unit :=
  do info <- (fun a => (a, _getAnimatorStateInfo stateName layerIndex a));
  match snd info with
  | None => ret tt
  | Some playState =>
      let validLayerIndex := Z.to_nat (fst info) in
      do animatorLayerData <- _getAnimatorLayerData validLayerIndex;
      let srcPlayData := AnimatorLayerData.srcPlayData animatorLayerData in
      let state :=
        AnimatorStatePlayData.state (AnimatorLayerData.src animatorLayerData) in
      run (match state with
           | Some state =>
               if negb (sameState state playState)
               then _revertDefaultValue (AnimatorLayerData.src animatorLayerData)
               else ret tt
           | None => ret tt
           end);
      do animatorStateData <-
        _getAnimatorStateData stateName playState validLayerIndex;
      run writeLayer validLayerIndex
            (AnimatorLayerData.set_layerState LayerState.Playing);
      run writePlayData validLayerIndex srcPlayData (fun _ =>
            AnimatorStatePlayData.mk
              (Some playState)
              (AnimationClip.length (AnimatorState.clip playState)
               * normalizedTimeOffset)
              (Some PlayState.Playing)
              (Some animatorStateData));
      _saveDefaultValues animatorStateData
  end.

(** The [switch] of [crossFade] on the state of the layer; the result is
    the value of the local variable [transition] after it, [None] when no
    [case] assigned it. *)
Definition crossFadeCase (layerState : LayerState.t) (layerIndex : nat)
    (srcPlayData : PlayDataRef) (state : option AnimatorState.t)
    (crossState : AnimatorState.t) : Method (option TransitionRef) :=
  match layerState with
  | LayerState.Standby =>
      run writeLayer layerIndex
            (AnimatorLayerData.set_layerState LayerState.FixedCrossFading);
      run _clearCrossData layerIndex;
      run _prepareStandbyCrossFading layerIndex;
      ret (Some PoseTransition)
  | LayerState.Playing =>
      run writeLayer layerIndex
            (AnimatorLayerData.set_layerState LayerState.CrossFading);
      run _clearCrossData layerIndex;
      run _prepareCrossFading layerIndex;
      run writePlayData layerIndex srcPlayData
            (AnimatorStatePlayData.set_playState PlayState.Fading);
      do state <- defined state;
      do transition <- addTransition state crossState;
      ret (Some transition)
  | LayerState.CrossFading =>
      run writeLayer layerIndex
            (AnimatorLayerData.set_layerState LayerState.FixedCrossFading);
      run _prepareFiexdPoseCrossFading layerIndex;
      ret (Some PoseTransition)
  | LayerState.FixedCrossFading =>
      run _prepareFiexdPoseCrossFading layerIndex;
      ret None
  end.

(** The end of [crossFade]: the duration and the offset of [transition],
    and the clamp of the duration to what is left of the destination clip.
    Writing a property of an [undefined] transition raises [TypeError]. *)
Definition configureTransition (transition : option TransitionRef)
    (crossState : AnimatorState.t)
    (normalizedTransitionDuration normalizedTimeOffset : Q) : Method unit :=
  let clipLength := AnimationClip.length (AnimatorState.clip crossState) in
  do transition <- defined transition;
  run writeTransition transition
        (AnimatorStateTransition.set_duration
           (clipLength * normalizedTransitionDuration));
  run writeTransition transition
        (AnimatorStateTransition.set_offset
           (clipLength * normalizedTimeOffset));
  do a <- get;
  do tr <- defined (readTransition transition a);
  if js_gt (AnimatorStateTransition.duration tr)
           (AnimatorState.clipEndTime crossState
            - AnimatorStateTransition.offset tr)
  then writeTransition transition
         (AnimatorStateTransition.set_duration
            (AnimatorState.clipEndTime crossState
             - AnimatorStateTransition.offset tr))
  else ret tt.

Definition crossFade (stateName : string) (normalizedTransitionDuration : Q)
    (layerIndex : Z) (normalizedTimeOffset : Q) : Method unit :=
  do info <- (fun a => (a, _getAnimatorStateInfo stateName layerIndex a));
  match snd info with
  | None => ret tt
  | Some crossState =>
      let validLayerIndex := Z.to_nat (fst info) in
      do animatorLayerData <- _getAnimatorLayerData validLayerIndex;
      let playState := AnimatorLayerData.layerState animatorLayerData in
      let srcPlayData := AnimatorLayerData.srcPlayData animatorLayerData in
      let destPlayData := AnimatorLayerData.destPlayData animatorLayerData in
      let state :=
        AnimatorStatePlayData.state (AnimatorLayerData.src animatorLayerData) in
      do animatorStateData <-
        _getAnimatorStateData stateName crossState validLayerIndex;
      run writePlayData validLayerIndex destPlayData (fun _ =>
            AnimatorStatePlayData.mk (Some crossState) 0
              (Some PlayState.Crossing) (Some animatorStateData));
      run _saveDefaultValues animatorStateData;
      do transition <-
        crossFadeCase playState validLayerIndex srcPlayData state crossState;
      configureTransition transition crossState normalizedTransitionDuration
        normalizedTimeOffset
  end.

(** ** [update] *)

(** The time in the destination clip during a cross-fade: wrapped for a
    looping state, clamped otherwise. *)
Definition destinationFrameTime (destinationState : AnimatorState.t)
    (frameTime : Q) : Q :=
  if js_gt frameTime (AnimatorState.clipEndTime destinationState) then
    match AnimatorState.wrapMode destinationState with
    | WrapMode.Loop => js_rem frameTime (AnimatorState.clipEndTime destinationState)
    | WrapMode.Clamp => AnimatorState.clipEndTime destinationState
    end
  else frameTime.

(** The local [crossWeight] of the two cross-fade updates after its clamp:
    [_crossFadeFrameTime / duration], or [1] once that quotient is at least
    [1]. *)
Definition crossWeightReached (tr : AnimatorStateTransition.t) : bool :=
  js_ge (AnimatorStateTransition._crossFadeFrameTime tr
         / AnimatorStateTransition.duration tr) 1.

Definition crossWeightOf (tr : AnimatorStateTransition.t) : Q :=
  if crossWeightReached tr then 1
  else AnimatorStateTransition._crossFadeFrameTime tr
       / AnimatorStateTransition.duration tr.

Definition onScene (f : Scene -> Scene) : PoseMethod unit :=
  modify (fun p => Pose.mk (f (Pose.scene p)) (Pose.diff p)).

Definition onDiff (f : DiffBuffers.t -> DiffBuffers.t) : PoseMethod unit :=
  modify (fun p => Pose.mk (Pose.scene p) (f (Pose.diff p))).

(** The body of the loop of [_updatePlayingState] for the curve [i]. *)
Definition playingStateCurve (store : gmap OwnerRef AnimationCureOwner.t)
    (curves : list AnimationClipCurveData.t) (owners : list OwnerRef)
    (frameTime : Q) (isFirstLayer : bool) (weight : Q)
    (blendingMode : AnimatorLayerBlendingMode.t) (i : nat) : PoseMethod unit :=
  do c <- defined (curves !! i);
  let curve := AnimationClipCurveData.curve c in
  let type := AnimationClipCurveData.type c in
  let property := AnimationClipCurveData.property c in
  let value := AnimationCurve.evaluate curve frameTime in
  do r <- defined (owners !! i);
  let target := AnimationCureOwner.target (ownerAt store r) in
  let defaultValue := AnimationCureOwner.defaultValue (ownerAt store r) in
  if isFirstLayer then
    onScene (_applyClipValue target type property defaultValue (Some value) 1)
  else
    match blendingMode with
    | AnimatorLayerBlendingMode.Additive =>
        do firstFrameValue <- defined (AnimationCurve.keys curve !! O);
        run onDiff (_calculateDiff (AnimationCurve._valueType curve) property
                      firstFrameValue value);
        _updateAdditiveLayerValue target type property weight
    | AnimatorLayerBlendingMode.Override =>
        onScene (_applyClipValue target type property defaultValue
                   (Some value) weight)
    end.

Definition _updatePlayingState (layerIndex : nat)
    (playingStateData : PlayDataRef) (isFirstLayer : bool) (weight : Q)
    (blendingMode : AnimatorLayerBlendingMode.t) : Method unit :=
  run writePlayData layerIndex playingStateData
        (AnimatorStatePlayData.set_playState PlayState.Playing);
  do d <- (fun a => defined (layerDataAt layerIndex a) a);
  let playData := AnimatorLayerData.deref playingStateData d in
  do state <- defined (AnimatorStatePlayData.state playData);
  let curves := AnimationClip._curves (AnimatorState.clip state) in
  let frameTime :=
    AnimatorState._getTheRealFrameTime state
      (AnimatorStatePlayData.frameTime playData) in
  do stateData <- defined (AnimatorStatePlayData.stateData playData);
  do a <- get;
  onPose (forDown (List.length curves)
            (playingStateCurve (Animator._animationCureOwners a) curves
               (AnimatorStateData.owners stateData) frameTime isFirstLayer
               weight blendingMode)).

(** The body of the loop of [_updateCrossFade] for the record [i]. *)
Definition crossFadeCurve (store : gmap OwnerRef AnimationCureOwner.t)
    (crossCurveData : list CrossCurveData.t)
    (playingState : AnimatorState.t) (playingFrameTime : Q)
    (nextClip : AnimationClip.t) (srcOwners destOwners : list OwnerRef)
    (frameTime crossWeight weight : Q) (i : nat) : PoseMethod unit :=
  let curClip := AnimatorState.clip playingState in
  do dataItem <- defined (crossCurveData !! i);
  let curCurveIndex := CrossCurveData.curCurveIndex dataItem in
  let nextCurveIndex := CrossCurveData.nextCurveIndex dataItem in
  if indexGeZero curCurveIndex && indexGeZero nextCurveIndex then
    do cur <- defined (elementAtIndex (AnimationClip._curves curClip) curCurveIndex);
    do next <- defined (elementAtIndex (AnimationClip._curves nextClip) nextCurveIndex);
    let type := AnimationClipCurveData.type cur in
    let property := AnimationClipCurveData.property cur in
    let curFrameTime :=
      AnimatorState._getTheRealFrameTime playingState playingFrameTime in
    let curVal :=
      AnimationCurve.evaluate (AnimationClipCurveData.curve cur) curFrameTime in
    let destVal :=
      AnimationCurve.evaluate (AnimationClipCurveData.curve next) frameTime in
    do r <- defined (elementAtIndex srcOwners curCurveIndex);
    let target := AnimationCureOwner.target (ownerAt store r) in
    let defaultValue := AnimationCureOwner.defaultValue (ownerAt store r) in
    onScene (_applyClipValue target type property defaultValue
               (_getCrossFadeValue type property curVal destVal crossWeight) 1)
  else if indexGeZero curCurveIndex then
    do cur <- defined (elementAtIndex (AnimationClip._curves curClip) curCurveIndex);
    let type := AnimationClipCurveData.type cur in
    let property := AnimationClipCurveData.property cur in
    do r <- defined (elementAtIndex srcOwners curCurveIndex);
    let target := AnimationCureOwner.target (ownerAt store r) in
    let defaultValue := AnimationCureOwner.defaultValue (ownerAt store r) in
    let curFrameTime :=
      AnimatorState._getTheRealFrameTime playingState playingFrameTime in
    let curVal :=
      AnimationCurve.evaluate (AnimationClipCurveData.curve cur) curFrameTime in
    onScene (_applyClipValue target type property defaultValue
               (_getCrossFadeValue type property defaultValue curVal
                  (1 - crossWeight)) weight)
  else
    do r <- defined (elementAtIndex destOwners nextCurveIndex);
    let target := AnimationCureOwner.target (ownerAt store r) in
    let defaultValue := AnimationCureOwner.defaultValue (ownerAt store r) in
    do next <- defined (elementAtIndex (AnimationClip._curves nextClip) nextCurveIndex);
    let type := AnimationClipCurveData.type next in
    let property := AnimationClipCurveData.property next in
    let val :=
      AnimationCurve.evaluate (AnimationClipCurveData.curve next) frameTime in
    onScene (_applyClipValue target type property defaultValue
               (_getCrossFadeValue type property defaultValue val crossWeight)
               weight).

(** The promotion of the destination record:
    [animlayerData.srcPlayData = animlayerData.destPlayData] followed by
    [animlayerData.srcPlayData.frameTime = frameTime]. *)
Definition promoteDest (layerIndex : nat) (frameTime : Q) : Method unit :=
  run writeLayer layerIndex (fun d =>
        AnimatorLayerData.set_srcPlayData (AnimatorLayerData.destPlayData d) d);
  writeLayer layerIndex (fun d =>
    AnimatorLayerData.assign (AnimatorLayerData.srcPlayData d)
      (AnimatorStatePlayData.set_frameTime frameTime (AnimatorLayerData.src d)) d).

Definition _updateCrossFade (layerIndex : nat) (playingStateData : PlayDataRef)
    (transition : TransitionRef) (destStateData : PlayDataRef) (weight : Q)
    (deltaTime : Q) : Method unit :=
  do d <- (fun a => defined (layerDataAt layerIndex a) a);
  let destinationState :=
    AnimatorStatePlayData.state (AnimatorLayerData.deref destStateData d) in
  do playingState <-
    defined (AnimatorStatePlayData.state
               (AnimatorLayerData.deref playingStateData d));
  do destinationState <- defined destinationState;
  let nextClip := AnimatorState.clip destinationState in
  run writeTransition transition (fun tr =>
        AnimatorStateTransition.set_crossFadeFrameTime
          (AnimatorStateTransition._crossFadeFrameTime tr + deltaTime / 1000) tr);
  do a <- get;
  do tr <- defined (readTransition transition a);
  let frameTime :=
    destinationFrameTime destinationState
      (AnimatorStateTransition.offset tr
       + AnimatorStateTransition._crossFadeFrameTime tr) in
  let crossWeight := crossWeightOf tr in
  run (if crossWeightReached tr
       then writePlayData layerIndex playingStateData
              (AnimatorStatePlayData.set_playState PlayState.Finished)
       else ret tt);
  do d <- (fun a => defined (layerDataAt layerIndex a) a);
  let playData := AnimatorLayerData.deref playingStateData d in
  let destData := AnimatorLayerData.deref destStateData d in
  do a <- get;
  let mergedCurveIndexList := Animator._crossCurveData a in
  do srcStateData <- defined (AnimatorStatePlayData.stateData playData);
  do destStateData' <- defined (AnimatorStatePlayData.stateData destData);
  run onPose (forDown (List.length mergedCurveIndexList)
                (crossFadeCurve (Animator._animationCureOwners a)
                   mergedCurveIndexList playingState
                   (AnimatorStatePlayData.frameTime playData) nextClip
                   (AnimatorStateData.owners srcStateData)
                   (AnimatorStateData.owners destStateData')
                   frameTime crossWeight weight));
  do d <- (fun a => defined (layerDataAt layerIndex a) a);
  if playState_is
       (AnimatorStatePlayData.playState
          (AnimatorLayerData.deref playingStateData d)) PlayState.Finished
  then
    run promoteDest layerIndex frameTime;
    writeLayer layerIndex (AnimatorLayerData.set_layerState LayerState.Playing)
  else ret tt.

(** The body of the loop of [_updateCrossFadeFromPose] for the record [i]. *)
Definition crossFadeFromPoseCurve (store : gmap OwnerRef AnimationCureOwner.t)
    (crossCurveIndies : list CrossCurveData.t)
    (curves : list AnimationClipCurveData.t)
    (frameTime crossWeight weight : Q) (i : nat) : PoseMethod unit :=
  do crossCurveIndex <- defined (crossCurveIndies !! i);
  let owner := ownerAt store (CrossCurveData.owner crossCurveIndex) in
  let target := AnimationCureOwner.target owner in
  let type := AnimationCureOwner.type owner in
  let property := AnimationCureOwner.property owner in
  let fixedPoseValue := AnimationCureOwner.fixedPoseValue owner in
  let defaultValue := AnimationCureOwner.defaultValue owner in
  do calculatedValue <-
    (if indexTruthy (CrossCurveData.nextCurveIndex crossCurveIndex) then
       do c <- defined (curves !! i);
       let value :=
         AnimationCurve.evaluate (AnimationClipCurveData.curve c) frameTime in
       ret (_getCrossFadeValue type property fixedPoseValue value crossWeight)
     else
       ret (_getCrossFadeValue type property fixedPoseValue defaultValue
              crossWeight));
  onScene (_applyClipValue target type property defaultValue calculatedValue
             weight).

Definition _updateCrossFadeFromPose (layerIndex : nat)
    (transition : TransitionRef) (destStateData : PlayDataRef) (weight : Q)
    (deltaTime : Q) : Method unit :=
  do d <- (fun a => defined (layerDataAt layerIndex a) a);
  do destinationState <-
    defined (AnimatorStatePlayData.state
               (AnimatorLayerData.deref destStateData d));
  let nextClip := AnimatorState.clip destinationState in
  run writeTransition transition (fun tr =>
        AnimatorStateTransition.set_crossFadeFrameTime
          (AnimatorStateTransition._crossFadeFrameTime tr + deltaTime / 1000) tr);
  do a <- get;
  do tr <- defined (readTransition transition a);
  let frameTime :=
    destinationFrameTime destinationState
      (AnimatorStateTransition.offset tr
       + AnimatorStateTransition._crossFadeFrameTime tr) in
  let crossWeight := crossWeightOf tr in
  run (if crossWeightReached tr
       then writePlayData layerIndex destStateData
              (AnimatorStatePlayData.set_playState PlayState.Playing)
       else ret tt);
  do a <- get;
  let crossCurveIndies := Animator._crossCurveData a in
  run onPose (forDown (List.length crossCurveIndies)
                (crossFadeFromPoseCurve (Animator._animationCureOwners a)
                   crossCurveIndies (AnimationClip._curves nextClip)
                   frameTime crossWeight weight));
  do d <- (fun a => defined (layerDataAt layerIndex a) a);
  if playState_is
       (AnimatorStatePlayData.playState
          (AnimatorLayerData.deref destStateData d)) PlayState.Playing
  then promoteDest layerIndex frameTime
  else ret tt.

(** [this.layers]: the layers of the controller, or the empty array. *)
Definition layersOf (a : Animator.t) : list AnimatorControllerLayer.t :=
  match Animator.animatorController a with
  | Some c => AnimatorController.layers c
  | None => []
  end.

Definition _updateLayer (layerIndex : nat) (isFirstLayer : bool)
    (deltaTime : Q) : Method unit :=
  do layer <- (fun a => defined (layersOf a !! layerIndex) a);
  let blendingMode := AnimatorControllerLayer.blendingMode layer in
  let weight := AnimatorControllerLayer.weight layer in
  do animlayerData <- (fun a => defined (layerDataAt layerIndex a) a);
  let srcPlayData := AnimatorLayerData.srcPlayData animlayerData in
  let destPlayData := AnimatorLayerData.destPlayData animlayerData in
  match AnimatorLayerData.layerState animlayerData with
  | LayerState.Playing =>
      _updatePlayingState layerIndex srcPlayData isFirstLayer weight blendingMode
  | LayerState.FixedCrossFading =>
      _updateCrossFadeFromPose layerIndex PoseTransition destPlayData weight
        deltaTime
  | LayerState.CrossFading =>
      do state <-
        defined (AnimatorStatePlayData.state (AnimatorLayerData.src animlayerData));
      do a <- get;
      let transition := StateTransition (AnimatorState.instanceId state) 0 in
      match readTransition transition a with
      | Some _ =>
          _updateCrossFade layerIndex srcPlayData transition destPlayData
            weight deltaTime
      | None => ret tt
      end
  | LayerState.Standby => ret tt
  end.

(** The advance of the source record in the loop of [update]:
    [srcPlayData.frameTime += deltaTime / 1000] and, for a record that is
    [Playing] and went past the end of its clip, the wrap of a looping state
    or the clamp that marks the record [Finished]. *)
Definition advanceSource (deltaTime : Q) (i : nat) (srcPlayData : PlayDataRef)
  : Method unit :=
  run writePlayData i srcPlayData (fun p =>
        AnimatorStatePlayData.set_frameTime
          (AnimatorStatePlayData.frameTime p + deltaTime / 1000) p);
  do p <- srcOf i;
  if playState_is (AnimatorStatePlayData.playState p) PlayState.Playing
  then
    do state <- defined (AnimatorStatePlayData.state p);
    if js_gt (AnimatorStatePlayData.frameTime p)
             (AnimatorState.clipEndTime state)
    then
      match AnimatorState.wrapMode state with
      | WrapMode.Loop =>
          writePlayData i srcPlayData
            (AnimatorStatePlayData.set_frameTime
               (js_rem (AnimatorStatePlayData.frameTime p)
                  (AnimatorState.clipEndTime state)))
      | WrapMode.Clamp =>
          run writePlayData i srcPlayData
                (AnimatorStatePlayData.set_frameTime
                   (AnimatorState.clipEndTime state));
          writePlayData i srcPlayData
            (AnimatorStatePlayData.set_playState PlayState.Finished)
      end
    else ret tt
  else ret tt.

(** The body of the loop of [update] for the layer [i]; [deltaTime] is
    already multiplied by the speed. *)
Definition updateLayerAt (deltaTime : Q) (i : nat) : Method unit :=
  do animatorLayerData <- _getAnimatorLayerData i;
  if LayerState_eqb (AnimatorLayerData.layerState animatorLayerData)
       LayerState.Standby
  then ret tt
  else
    let isFirstLayer := Nat.eqb i 0 in
    let srcPlayData := AnimatorLayerData.srcPlayData animatorLayerData in
    run advanceSource deltaTime i srcPlayData;
    _updateLayer i isFirstLayer deltaTime.

Definition update (deltaTime : Q) : Method unit :=
  fun a =>
    if js_eq (Animator.speed a) 0 then (a, Normal tt)
    else
      match Animator.animatorController a with
      | None => (a, Normal tt)
      | Some animatorController =>
          let deltaTime := deltaTime * Animator.speed a in
          forUp (List.length (AnimatorController.layers animatorController)) 0
            (updateLayerAt deltaTime) a
      end.

End AnimatorMethods.

(** ** A concrete animator

    One layer, [Base], with the looping state [Idle] (a clip of one second)
    and the clamped state [Walk] (a clip of half a second); both clips move
    the position of the entity at the path [root]. *)
Module Scenario.

(** Rational stand-ins for the collaborators: the spherical interpolation
    and the weighting of a quaternion are linear, the normalisation is the
    identity, the weighting of a scale interpolates from [1], and an entity
    is numbered by the length of its path. *)
Definition collaborators : Collaborators := {|
  Quaternion_slerp := fun a b t =>
    mkQuaternion (qx a + (qx b - qx a) * t) (qy a + (qy b - qy a) * t)
                 (qz a + (qz b - qz a) * t) (qw a + (qw b - qw a) * t);
  Quaternion_normalize := fun q => q;
  calQuaternionWeight := fun q w =>
    mkQuaternion (qx q * w) (qy q * w) (qz q * w) (1 + (qw q - 1) * w);
  calScaleWeight := fun s w =>
    mkVector3 (1 + (v3x s - 1) * w) (1 + (v3y s - 1) * w)
              (1 + (v3z s - 1) * w);
  findByPath := String.length
|}.

Definition positionCurve (velocity : Q) : AnimationClipCurveData.t :=
  AnimationClipCurveData.mk "root" Transform Position
    (AnimationCurve.mk
       (fun t => VVector3 (mkVector3 (velocity * t) 0 0))
       [VVector3 (mkVector3 0 0 0)]
       InterpolableValueType.Vector3).

Definition idleClip : AnimationClip.t := AnimationClip.mk 1 [positionCurve 1].
Definition walkClip : AnimationClip.t := AnimationClip.mk (1#2) [positionCurve 2].

Definition Idle : AnimatorState.t :=
  AnimatorState.mk 1 "Idle" idleClip WrapMode.Loop 1 (fun t => t).
Definition Walk : AnimatorState.t :=
  AnimatorState.mk 2 "Walk" walkClip WrapMode.Clamp (1#2) (fun t => t).

Definition controller : AnimatorController.t :=
  AnimatorController.mk
    [AnimatorControllerLayer.mk "Base" 1 AnimatorLayerBlendingMode.Override
       [Idle; Walk]].

(** The animator before any call. *)
Definition fresh : Animator.t := Animator.new (Some controller) 1.

(** The store after a call, whatever its completion. *)
Definition after {A} (m : Method A) (a : Animator.t) : Animator.t := fst (m a).

Definition playingIdle : Animator.t :=
  after (@play collaborators "Idle" 0 0) fresh.
Definition playingWalk : Animator.t :=
  after (@play collaborators "Walk" 0 0) fresh.
Definition crossFadingToWalk : Animator.t :=
  after (@crossFade collaborators "Walk" (1#2) 0 0) playingIdle.
Definition fixedCrossFadingToIdle : Animator.t :=
  after (@crossFade collaborators "Idle" 1 0 0) crossFadingToWalk.

(** The record of the only layer. *)
Definition layer0 (a : Animator.t) : AnimatorLayerData.t :=
  default AnimatorLayerData.new (layerDataAt 0 a).

(** The state data of a playback record that has some. *)
Definition stateDataOf (p : AnimatorStatePlayData.t) : AnimatorStateData.t :=
  default (AnimatorStateData.mk []) (AnimatorStatePlayData.stateData p).

(** The first outgoing transition of a state that has one. *)
Definition firstTransition (a : Animator.t) (state : AnimatorState.t)
  : AnimatorStateTransition.t :=
  default AnimatorStateTransition.new
    (transitionsOf a (AnimatorState.instanceId state) !! 0%nat).

End Scenario.

(** ** Vocabulary of the statements *)

(** A property of the store that a computation keeps, however it
    completes. *)
Definition keeps {St A} (I : St -> Prop) (m : Stateful St A) : Prop :=
  forall s, I s -> I (fst (m s)).

(** The layer [i] has a record and the record satisfies [φ]. *)
Definition layerHas (i : nat) (φ : AnimatorLayerData.t -> Prop)
    (a : Animator.t) : Prop :=
  exists d, layerDataAt i a = Some d /\ φ d.

(** The store with the record of the layer [i] replaced. *)
Definition withLayer (i : nat) (d : AnimatorLayerData.t) (a : Animator.t)
  : Animator.t :=
  Animator.set_animatorLayersData (<[ i := d ]> (Animator._animatorLayersData a)) a.

(** The source record after [advanceSource], as a function of the record
    before it. *)
Definition advanced (deltaTime : Q) (p : AnimatorStatePlayData.t)
  : AnimatorStatePlayData.t :=
  let p1 :=
    AnimatorStatePlayData.set_frameTime
      (AnimatorStatePlayData.frameTime p + deltaTime / 1000) p in
  if playState_is (AnimatorStatePlayData.playState p1) PlayState.Playing then
    match AnimatorStatePlayData.state p1 with
    | Some state =>
        if js_gt (AnimatorStatePlayData.frameTime p1)
                 (AnimatorState.clipEndTime state)
        then
          match AnimatorState.wrapMode state with
          | WrapMode.Loop =>
              AnimatorStatePlayData.set_frameTime
                (js_rem (AnimatorStatePlayData.frameTime p1)
                   (AnimatorState.clipEndTime state)) p1
          | WrapMode.Clamp =>
              AnimatorStatePlayData.set_playState PlayState.Finished
                (AnimatorStatePlayData.set_frameTime
                   (AnimatorState.clipEndTime state) p1)
          end
        else p1
    | None => p1
    end
  else p1.

(** A property of the record of a layer that depends neither on its two
    playback records nor on which of them is the source. *)
Definition recordsBlind (φ : AnimatorLayerData.t -> Prop) : Prop :=
  forall d, φ d ->
    (forall r p, φ (AnimatorLayerData.assign r p d))
    /\ (forall r, φ (AnimatorLayerData.set_srcPlayData r d)).

(** A property of the record of a layer that [update] can keep: it is blind
    to the playback records, and it either excludes [CrossFading] or
    survives the return to [Playing]. *)
Definition updateStable (φ : AnimatorLayerData.t -> Prop) : Prop :=
  recordsBlind φ
  /\ ((forall d, φ d ->
         AnimatorLayerData.layerState d <> LayerState.CrossFading)
      \/ (forall d, φ d ->
            φ (AnimatorLayerData.set_layerState LayerState.Playing d))).

(** The fields of the animator that [update] never writes: the controller,
    the speed and the cross-curve records. *)
Definition configuredAs (c : option AnimatorController.t) (speed : Q)
    (records : list CrossCurveData.t) (a : Animator.t) : Prop :=
  Animator.animatorController a = c
  /\ Animator.speed a = speed
  /\ Animator._crossCurveData a = records.

(** The record of a layer after [promoteDest]. *)
Definition promoted (frameTime : Q) (d : AnimatorLayerData.t)
  : AnimatorLayerData.t :=
  let d1 := AnimatorLayerData.set_srcPlayData (AnimatorLayerData.destPlayData d) d in
  AnimatorLayerData.assign (AnimatorLayerData.srcPlayData d1)
    (AnimatorStatePlayData.set_frameTime frameTime (AnimatorLayerData.src d1)) d1.

(** The transition after [deltaTime] (already multiplied by the speed) was
    added to its elapsed time. *)
Definition elapsed (deltaTime : Q) (tr : AnimatorStateTransition.t)
  : AnimatorStateTransition.t :=
  AnimatorStateTransition.set_crossFadeFrameTime
    (AnimatorStateTransition._crossFadeFrameTime tr + deltaTime / 1000) tr.


(** The loop of [_updateCrossFade] reads, for every record, the source
    curve and the source owner at [curCurveIndex] and the destination curve
    at [nextCurveIndex]: every record pairs a source curve with a
    destination curve, within the bounds of the three arrays. *)
Definition crossRecordsPaired (records : list CrossCurveData.t)
    (curCurveCount nextCurveCount srcOwnerCount : nat) : bool :=
  forallb
    (fun r =>
       match CrossCurveData.curCurveIndex r, CrossCurveData.nextCurveIndex r with
       | Some cur, Some next =>
           (cur <? curCurveCount)%nat && (cur <? srcOwnerCount)%nat
           && (next <? nextCurveCount)%nat
       | _, _ => false
       end)
    records.

(** [play] reverts the pose of the state that the layer was playing when it
    is another state than the one to play; the revert reads the owner of
    every curve of that state, so the source record has state data with an
    owner for every curve. *)
Definition revertReady (a : Animator.t) (layerIndex : nat)
    (playState : AnimatorState.t) : bool :=
  match layerDataAt layerIndex a with
  | None => true
  | Some d =>
      match AnimatorStatePlayData.state (AnimatorLayerData.src d) with
      | None => true
      | Some state =>
          sameState state playState
          || match AnimatorStatePlayData.stateData (AnimatorLayerData.src d) with
             | Some stateData =>
                 (List.length (AnimationClip._curves (AnimatorState.clip state))
                  <=? List.length (AnimatorStateData.owners stateData))%nat
             | None => false
             end
      end
  end.




Section Driving.
Context {collaborators : Collaborators}.

(** Successive calls of [update], one per [deltaTime]; an error ends the
    run. *)
Fixpoint updates (deltaTimes : list Q) : Method unit :=
  match deltaTimes with
  | [] => ret tt
  | deltaTime :: rest => run update deltaTime; updates rest
  end.

End Driving.


(** The value of a property of the transform of an entity, and a value of a
    curve as the assignment to that property reads it ([<Vector3>value],
    [<Quaternion>value]). *)
Definition transformProperty (sc : Scene) (e : nat) (p : AnimationProperty)
  : InterpolableValue :=
  match p with
  | Position => VVector3 (TransformData.position (transformOf sc e))
  | Rotation => VQuaternion (TransformData.rotationQuaternion (transformOf sc e))
  | Scale => VVector3 (TransformData.scale (transformOf sc e))
  end.

Definition asPropertyValue (p : AnimationProperty) (v : InterpolableValue)
  : InterpolableValue :=
  match p with
  | Position | Scale => VVector3 (asVector3 v)
  | Rotation => VQuaternion (asQuaternion v)
  end.


(** ** A second concrete animator

    One layer with the looping state [Idle] of the first scenario, which
    moves the position of the entity [root], and the clamped state [Grow]
    (a clip of one second), which scales the same entity: the two clips
    animate different properties. *)
Module MixedScenario.

Definition scaleCurve : AnimationClipCurveData.t :=
  AnimationClipCurveData.mk "root" Transform Scale
    (AnimationCurve.mk
       (fun t => VVector3 (mkVector3 (1 + t) (1 + t) (1 + t)))
       [VVector3 (mkVector3 1 1 1)]
       InterpolableValueType.Vector3).

Definition growClip : AnimationClip.t := AnimationClip.mk 1 [scaleCurve].

Definition Grow : AnimatorState.t :=
  AnimatorState.mk 3 "Grow" growClip WrapMode.Clamp 1 (fun t => t).

Definition controller : AnimatorController.t :=
  AnimatorController.mk
    [AnimatorControllerLayer.mk "Base" 1 AnimatorLayerBlendingMode.Override
       [Scenario.Idle; Grow]].

Definition fresh : Animator.t := Animator.new (Some controller) 1.

Definition playingIdle : Animator.t :=
  Scenario.after (@play Scenario.collaborators "Idle" 0 0) fresh.

Definition crossFadingToGrow : Animator.t :=
  Scenario.after (@crossFade Scenario.collaborators "Grow" (1#2) 0 0)
    playingIdle.

End MixedScenario.


(** The records that [_prepareSrcCrossData] appends for the owners of the
    indices below [n], in the order of the loop (from the last owner to the
    first): the owner with its index on the source side and [null] on the
    destination side. *)
Fixpoint srcCrossRecords (owners : list OwnerRef) (n : nat)
  : list CrossCurveData.t :=
  match n with
  | O => []
  | S i =>
      match owners !! i with
      | Some r => CrossCurveData.mk r (Some i) None :: srcCrossRecords owners i
      | None => []
      end
  end.


Section CrossFadeVocabulary.
Context {collaborators : Collaborators}.

(** The state data that [_getAnimatorStateData] returns for a name on a
    layer: the entry of the cache of the layer, or new state data with the
    owners of the curves of the state. *)
Definition stateDataOfName (d : AnimatorLayerData.t) (stateName : string)
    (animatorState : AnimatorState.t) : AnimatorStateData.t :=
  default
    (AnimatorStateData.mk
       (map ownerRefOf (AnimationClip._curves (AnimatorState.clip animatorState))))
    (AnimatorLayerData.animatorStateDataMap d !! stateName).

End CrossFadeVocabulary.

(** A transition after the end of [crossFade] configured it for the
    destination state: the offset, and the duration clamped to what is left
    of the destination clip. *)
Definition configured (crossState : AnimatorState.t)
    (normalizedTransitionDuration normalizedTimeOffset : Q)
    (tr : AnimatorStateTransition.t) : AnimatorStateTransition.t :=
  let clipLength := AnimationClip.length (AnimatorState.clip crossState) in
  let offset := clipLength * normalizedTimeOffset in
  let duration := clipLength * normalizedTransitionDuration in
  AnimatorStateTransition.mk
    (AnimatorStateTransition.destinationState tr)
    (if js_gt duration (AnimatorState.clipEndTime crossState - offset)
     then AnimatorState.clipEndTime crossState - offset
     else duration)
    offset
    (AnimatorStateTransition._crossFadeFrameTime tr).

(** The record of a layer in the course of [crossFade] from [Playing]:
    after the destination record was filled, the state of the layer set
    and the generation mark raised ([preparedRecord]), and at the end, when
    the source record is marked [Fading] ([crossFadingRecord]).  [m] is the
    cache of state data after [_getAnimatorStateData]. *)
Definition preparedRecord (d : AnimatorLayerData.t)
    (m : gmap string AnimatorStateData.t) (crossState : AnimatorState.t)
    (sd' : AnimatorStateData.t) : AnimatorLayerData.t :=
  AnimatorLayerData.set_crossCurveMark
    (S (AnimatorLayerData.crossCurveMark d))
    (AnimatorLayerData.set_layerState LayerState.CrossFading
       (AnimatorLayerData.assign (AnimatorLayerData.destPlayData d)
          (AnimatorStatePlayData.mk (Some crossState) 0
             (Some PlayState.Crossing) (Some sd'))
          (AnimatorLayerData.set_animatorStateDataMap m d))).

Definition crossFadingRecord (d : AnimatorLayerData.t)
    (m : gmap string AnimatorStateData.t) (crossState : AnimatorState.t)
    (sd' : AnimatorStateData.t) : AnimatorLayerData.t :=
  let d5 := preparedRecord d m crossState sd' in
  AnimatorLayerData.assign (AnimatorLayerData.srcPlayData d)
    (AnimatorStatePlayData.set_playState PlayState.Fading
       (AnimatorLayerData.deref (AnimatorLayerData.srcPlayData d) d5)) d5.


(** ** A third concrete animator

    One layer with the states [Idle] and [Walk] of the first scenario and
    the looping state [Run]; the three clips move the position of the
    entity [root].  [playingWalk] is the animator after a cross-fade from
    [Idle] to [Walk] ran to its end. *)
Module ChainScenario.

Definition runClip : AnimationClip.t :=
  AnimationClip.mk (1#2) [Scenario.positionCurve 4].

Definition Run : AnimatorState.t :=
  AnimatorState.mk 3 "Run" runClip WrapMode.Loop (1#2) (fun t => t).

Definition layer : AnimatorControllerLayer.t :=
  AnimatorControllerLayer.mk "Base" 1 AnimatorLayerBlendingMode.Override
    [Scenario.Idle; Scenario.Walk; Run].

Definition controller : AnimatorController.t := AnimatorController.mk [layer].

Definition fresh : Animator.t := Animator.new (Some controller) 1.

Definition playingIdle : Animator.t :=
  Scenario.after (@play Scenario.collaborators "Idle" 0 0) fresh.

Definition crossFadingToWalk : Animator.t :=
  Scenario.after (@crossFade Scenario.collaborators "Walk" (1#2) 0 0)
    playingIdle.

Definition playingWalk : Animator.t :=
  Scenario.after (@updates Scenario.collaborators [125; 125])
    crossFadingToWalk.



End ChainScenario.






(** * The render pipeline and the scene

    Sources: the classes [BasicRenderPipeline] and [Scene] (the second
    and the first document of [src/packages/core/src/Scene.ts]).

    The render passes, the cameras and the entities are objects of classes
    that are not among the sources.  The embedding names such an object
    by its identity, a number, and reads the fields and the methods that
    the two classes use through parameters; neither class writes them. *)

(** ** Arrays of objects *)

Module JsArray.
Section Arrays.
Context {A : Type} `{EqDecision A}.

(** [array.indexOf(x)]: the first index that holds [x], or [-1]. *)
Fixpoint indexOfFrom (from : Z) (x : A) (l : list A) : Z :=
  match l with
  | [] => (-1)%Z
  | y :: rest => if decide (y = x) then from else indexOfFrom (from + 1) x rest
  end.

Definition indexOf (x : A) (l : list A) : Z := indexOfFrom 0 x l.

(** The array after [array.splice(start, deleteCount)]: a negative
    [start] counts from the end of the array, and the count is clamped to
    what is left after the start. *)
Definition splice (start deleteCount : Z) (l : list A) : list A :=
  let len := Z.of_nat (List.length l) in
  let actualStart :=
    if (start <? 0)%Z then Z.max (len + start) 0 else Z.min start len in
  let actualDeleteCount := Z.min (Z.max deleteCount 0) (len - actualStart) in
  take (Z.to_nat actualStart) l
  ++ drop (Z.to_nat (actualStart + actualDeleteCount)) l.

(** [array.sort(compare)] for a comparator that the elements order
    consistently.  The sort of ECMAScript is stable, which determines the
    result; the embedding computes it by insertion: an element goes
    before the first one that compares greater than it. *)
Fixpoint insertSorted (compare : A -> A -> Q) (x : A) (sorted : list A)
  : list A :=
  match sorted with
  | [] => [x]
  | y :: rest =>
      if js_gt (compare y x) 0 then x :: y :: rest
      else y :: insertSorted compare x rest
  end.

Definition sort (compare : A -> A -> Q) (l : list A) : list A :=
  fold_left (fun sorted x => insertSorted compare x sorted) l [].

End Arrays.
End JsArray.

(** ** [BasicRenderPipeline] *)

(** A render pass, a camera and an entity, by identity. *)
Definition RenderPass := nat.
Definition Camera := nat.
Definition Entity := nat.

(** The argument [nameOrPass : string | RenderPass] at run time: a string,
    a render pass, or anything else. *)
Inductive NameOrPass :=
  | Name (name : string)
  | Pass (pass : RenderPass)
  | Neither.

Module BasicRenderPipeline.

(** The fields that the methods below use; [_camera] and [_queue] are
    used by the rendering only. *)
Record t := mk {
    _defaultPass : RenderPass;
    _renderPassArray : list RenderPass
  }.

Definition set_renderPassArray (x : list RenderPass) (p : t) : t :=
  mk (_defaultPass p) x.

Section Methods.
(** The fields [name] and [priority] of the render passes.  A priority is
    a number. *)
Variable name : RenderPass -> string.
Variable priority : RenderPass -> Q.

(** [created] is the object that [new RenderPass(...)] returns when the
    argument is a string. *)
Definition addRenderPass (nameOrPass : NameOrPass) (created : RenderPass)
    (p : t) : t :=
  let pushed :=
    match nameOrPass with
    | Name _ => _renderPassArray p ++ [created]
    | Pass pass => _renderPassArray p ++ [pass]
    | Neither => _renderPassArray p
    end in
  set_renderPassArray
    (JsArray.sort (fun p1 p2 => priority p1 - priority p2) pushed) p.

Fixpoint firstNamed (n : string) (passes : list RenderPass)
  : option RenderPass :=
  match passes with
  | [] => None
  | pass :: rest =>
      if String.eqb (name pass) n then Some pass else firstNamed n rest
  end.

Definition getRenderPass (n : string) (p : t) : option RenderPass :=
  firstNamed n (_renderPassArray p).

Definition removeRenderPass (nameOrPass : NameOrPass) (p : t) : t :=
  let pass :=
    match nameOrPass with
    | Name n => getRenderPass n p
    | Pass pass => Some pass
    | Neither => None
    end in
  match pass with
  | Some pass =>
      let idx := JsArray.indexOf pass (_renderPassArray p) in
      set_renderPassArray (JsArray.splice idx 1 (_renderPassArray p)) p
  | None => p
  end.

(** The constructor; [defaultPass] is the object that
    [new RenderPass("default", 0, null, null, 0)] returns. *)
Definition new (defaultPass : RenderPass) : t :=
  addRenderPass (Pass defaultPass) defaultPass (mk defaultPass []).

(** The passes are in the order of their priorities. *)
Fixpoint ordered (passes : list RenderPass) : Prop :=
  match passes with
  | [] => True
  | pass :: rest =>
      Forall (fun later => priority pass <= priority later) rest
      /\ ordered rest
  end.

End Methods.
End BasicRenderPipeline.

(** ** [Scene] *)

Module EngineScene.
Import Stdlib.Strings.Ascii.

(** The fields that the methods below use, and the warnings that they
    hand to [Logger.warn]. *)
Record t := mk {
    _activeCameras : list Camera;
    _rootEntities : list Entity;
    warnings : list string
  }.

Definition set_activeCameras (x : list Camera) (s : t) : t :=
  mk x (_rootEntities s) (warnings s).
Definition warn (message : string) (s : t) : t :=
  mk (_activeCameras s) (_rootEntities s) (warnings s ++ [message]).

Definition _attachRenderCamera (camera : Camera) (s : t) : t :=
  let index := JsArray.indexOf camera (_activeCameras s) in
  if (index =? -1)%Z
  then set_activeCameras (_activeCameras s ++ [camera]) s
  else warn "Camera already attached." s.

Definition _detachRenderCamera (camera : Camera) (s : t) : t :=
  let index := JsArray.indexOf camera (_activeCameras s) in
  if negb (index =? -1)%Z
  then set_activeCameras (JsArray.splice index 1 (_activeCameras s)) s
  else s.

(** [path.split("/")]: the pieces of the path between the slashes, the
    empty ones included. *)
Fixpoint split (path : string) : list string :=
  match path with
  | EmptyString => [EmptyString]
  | String c rest =>
      if Ascii.eqb c "/"%char then EmptyString :: split rest
      else
        match split rest with
        | [] => [String c EmptyString]
        | piece :: pieces => String c piece :: pieces
        end
  end.


Section Methods.
(** The field [name] of an entity, its method [findByName] and the static
    method [Entity._findChildByName]; both return an entity or [null]. *)
Variable name : Entity -> string.
Variable findByName : Entity -> string -> option Entity.
Variable _findChildByName : Entity -> string -> option Entity.

(** The first loop of [findEntityByName], on the children from the last
    to the first. *)
Fixpoint lastNamed (n : string) (reversed : list Entity) : option Entity :=
  match reversed with
  | [] => None
  | child :: rest =>
      if String.eqb (name child) n then Some child else lastNamed n rest
  end.

(** Its second loop. *)
Fixpoint lastHolding (n : string) (reversed : list Entity) : option Entity :=
  match reversed with
  | [] => None
  | child :: rest =>
      match findByName child n with
      | Some entity => Some entity
      | None => lastHolding n rest
      end
  end.

Definition findEntityByName (n : string) (s : t) : option Entity :=
  let children := _rootEntities s in
  match lastNamed n (rev children) with
  | Some child => Some child
  | None => lastHolding n (rev children)
  end.




End Methods.
End EngineScene.


(** ** A concrete pipeline and a concrete scene *)

Module PipelineScenario.

(** Four passes: the default pass [0], and the passes [shadow], [post]
    and [overlay] with the priorities [-1], [1] and [0]. *)
Definition name (pass : RenderPass) : string :=
  match pass with
  | 0%nat => "default"
  | 1%nat => "shadow"
  | 2%nat => "post"
  | _ => "overlay"
  end.

Definition priority (pass : RenderPass) : Q :=
  match pass with
  | 0%nat => 0
  | 1%nat => -1
  | 2%nat => 1
  | _ => 0
  end.

Definition fresh : BasicRenderPipeline.t := BasicRenderPipeline.new priority 0%nat.

(** The pipeline after [shadow] and [post] were added. *)
Definition threePasses : BasicRenderPipeline.t :=
  BasicRenderPipeline.addRenderPass priority (Pass 2%nat) 0%nat
    (BasicRenderPipeline.addRenderPass priority (Pass 1%nat) 0%nat fresh).

End PipelineScenario.

Module SceneScenario.

(** Two root entities [0] and [1], both named [a]; the entity [2], named
    [b], is the only child, and it is a child of the second root. *)
Definition name (entity : Entity) : string :=
  match entity with
  | 2%nat => "b"
  | _ => "a"
  end.


Definition scene : EngineScene.t := EngineScene.mk [] [0%nat; 1%nat] [].

End SceneScenario.

(** * Properties *)

(** ** Numbers *)

Lemma js_gt_spec a b : js_gt a b = true <-> b < a.
Proof.
  unfold js_gt. rewrite negb_true_iff. split.
  - intros H. apply Qnot_le_lt. intros Hle. apply Qle_bool_iff in Hle. congruence.
  - intros H. destruct (Qle_bool a b) eqn:E; [|reflexivity].
    apply Qle_bool_iff in E. lra.
Qed.

Lemma js_gt_false a b : js_gt a b = false <-> a <= b.
Proof.
  unfold js_gt. rewrite negb_false_iff. apply Qle_bool_iff.
Qed.

Lemma js_ge_spec a b : js_ge a b = true <-> b <= a.
Proof. unfold js_ge. apply Qle_bool_iff. Qed.

Lemma js_eq_spec a b : js_eq a b = true <-> a == b.
Proof. unfold js_eq. apply Qeq_bool_iff. Qed.

(** The remainder of a dividend beyond a positive divisor lies in
    [[0, divisor)]. *)
Lemma js_rem_range a b : 0 < b -> b < a -> 0 <= js_rem a b /\ js_rem a b < b.
Proof.
  intros Hb Hab. unfold js_rem, js_trunc.
  assert (Hq : 1 < a / b) by (apply Qlt_shift_div_l; lra).
  assert (Hpos : Qle_bool 0 (a / b) = true) by (apply Qle_bool_iff; lra).
  rewrite Hpos.
  pose proof (Qfloor_le (a / b)) as Hlo.
  pose proof (Qlt_floor (a / b)) as Hhi.
  rewrite inject_Z_plus in Hhi. change (inject_Z 1) with 1 in Hhi.
  set (q := inject_Z (Qfloor (a / b))) in *.
  assert (Ha : a == b * (a / b)) by (field; lra).
  set (r := a / b) in *.
  split; nra.
Qed.

(** ** The diff from the base pose *)

(** C4. For the value kind [Vector4] the dispatch of [_calculateDiff] runs
    no case: the buffers and [_diffValueFromBasePose] stay as they were,
    whereas [_calculateVector4Diff], which the dispatch never reaches, would
    make the diff refer to the four-component buffer. *)
Theorem calculateDiff_Vector4_is_skipped :
  forall (property : AnimationProperty) (sVal dVal : InterpolableValue)
         (b : DiffBuffers.t),
    _calculateDiff InterpolableValueType.Vector4 property sVal dVal b = b
    /\ DiffBuffers._diffValueFromBasePose
         (_calculateVector4Diff property (asVector4 sVal) (asVector4 dVal) b)
       = DiffVector4Buffer
    /\ DiffBuffers.read
         (_calculateDiff InterpolableValueType.Vector4 Position
            (VVector4 (mkVector4 1 1 1 1)) (VVector4 (mkVector4 2 3 4 5))
            DiffBuffers.new)
       = None.
Proof. intros. repeat split. Qed.

Section AdditiveScale.
Context {collaborators : Collaborators}.

(** [_updateAdditiveLayerValue] on a [Scale] property of a transform, for a
    diff that refers to the three-component buffer: the scale of the target
    becomes its weighted scale times the diff. *)
Lemma updateAdditiveLayerValue_scale target weight sc b :
  DiffBuffers._diffValueFromBasePose b = DiffVector3Buffer ->
  _updateAdditiveLayerValue target Transform Scale weight (Pose.mk sc b)
  = (Pose.mk
       (writeTransform target
          (TransformData.set_scale
             (Vector3_scaleBy
                (calScaleWeight (TransformData.scale (transformOf sc target)) weight)
                (DiffBuffers._diffVector3FromBasePose b))) sc) b,
     Normal tt).
Proof.
  intros Hb. unfold _updateAdditiveLayerValue, DiffBuffers.read. simpl.
  rewrite Hb. reflexivity.
Qed.

Lemma transformOf_write target f sc :
  transformOf (writeTransform target f sc) target = f (transformOf sc target).
Proof.
  unfold transformOf at 1, writeTransform. rewrite lookup_insert_eq. reflexivity.
Qed.

(** C7. For a [Scale] property with nonzero base components the diff from
    the base pose is the component-wise ratio of the evaluated value to the
    base value, and applying it multiplies the scale of the target
    component-wise, where the weighting leaves that scale as it is (at
    weight 1). *)
Theorem additive_scale_diff_is_ratio :
  forall (target : nat) (sc : Scene) (b : DiffBuffers.t) (weight : Q)
         (base evaluated : Vector3),
    ~ v3x base == 0 -> ~ v3y base == 0 -> ~ v3z base == 0 ->
    calScaleWeight (TransformData.scale (transformOf sc target)) weight
    = TransformData.scale (transformOf sc target) ->
    let b' :=
      _calculateDiff InterpolableValueType.Vector3 Scale
        (VVector3 base) (VVector3 evaluated) b in
    let diffVal := DiffBuffers._diffVector3FromBasePose b' in
    DiffBuffers.read b' = Some (VVector3 diffVal)
    /\ Vector3_eq diffVal
         (mkVector3 (v3x evaluated / v3x base) (v3y evaluated / v3y base)
                    (v3z evaluated / v3z base))
    /\ Vector3_eq (Vector3_scaleBy diffVal base) evaluated
    /\ exists sc',
         _updateAdditiveLayerValue target Transform Scale weight (Pose.mk sc b')
         = (Pose.mk sc' b', Normal tt)
         /\ TransformData.scale (transformOf sc' target)
            = Vector3_scaleBy (TransformData.scale (transformOf sc target)) diffVal.
Proof.
  intros target sc b weight base evaluated Hx Hy Hz Hw b' diffVal.
  split; [reflexivity|].
  split; [repeat split; reflexivity|].
  split.
  - unfold Vector3_eq, Vector3_scaleBy, diffVal, b'. simpl.
    repeat split; field; assumption.
  - eexists. split.
    + apply updateAdditiveLayerValue_scale. reflexivity.
    + rewrite transformOf_write. simpl. rewrite Hw. reflexivity.
Qed.

End AdditiveScale.

(** The numbers of the claim: base scale (2,2,2), evaluated scale (4,4,4),
    current scale (1,1,1), weight 1; the diff is (2,2,2) and the scale of
    the target becomes (2,2,2). *)
Lemma additive_scale_diff_is_ratio_witness :
  let base := mkVector3 2 2 2 in
  let evaluated := mkVector3 4 4 4 in
  let b' :=
    _calculateDiff InterpolableValueType.Vector3 Scale
      (VVector3 base) (VVector3 evaluated) DiffBuffers.new in
  Vector3_eq (DiffBuffers._diffVector3FromBasePose b') (mkVector3 2 2 2)
  /\ exists sc',
       @_updateAdditiveLayerValue Scenario.collaborators 7 Transform Scale 1
         (Pose.mk ∅ b')
       = (Pose.mk sc' b', Normal tt)
       /\ Vector3_eq (TransformData.scale (transformOf sc' 7)) (mkVector3 2 2 2).
Proof.
  intros base evaluated b'.
  destruct (@additive_scale_diff_is_ratio Scenario.collaborators 7 ∅
              DiffBuffers.new 1 base evaluated)
    as (_ & Hd & _ & sc' & Hrun & Hscale).
  - vm_compute. discriminate.
  - vm_compute. discriminate.
  - vm_compute. discriminate.
  - vm_compute. reflexivity.
  - split.
    + vm_compute. repeat split; reflexivity.
    + exists sc'. split; [exact Hrun|].
      rewrite Hscale. vm_compute. repeat split; reflexivity.
Defined.

(** ** Resolution of a state name *)

(** Two iterations end the loop of [_getAnimatorStateInfo] that starts at
    [i = 0]: more fuel gives the same completion. *)
Lemma findInLayers_fuel fuel layers stateName :
  (2 <= fuel)%nat ->
  findInLayers fuel layers stateName 0 = findInLayers 2 layers stateName 0
  /\ is_Some (findInLayers 2 layers stateName 0).
Proof.
  intros Hfuel.
  destruct fuel as [|[|fuel]]; [lia | lia |].
  simpl. unfold elementAt. simpl.
  destruct (0 <? Z.of_nat (List.length layers))%Z eqn:Hn; [|eauto].
  destruct (layers !! Z.to_nat 0) as [layer|]; [|eauto].
  destruct (findStateByName _ _); [eauto|].
  assert (Hneg : (0 - 1 <? Z.of_nat (List.length layers))%Z = true)
    by (apply Z.ltb_lt; lia).
  rewrite Hneg. eauto.
Qed.

Section Resolution.
Context {collaborators : Collaborators}.

(** A name that the first layer does not know, searched on all layers
    ([layerIndex = -1]): the loop steps to [layers[-1]] and raises. *)
Lemma getAnimatorStateInfo_all_layers_miss a c layer rest stateName :
  Animator.animatorController a = Some c ->
  AnimatorController.layers c = layer :: rest ->
  findStateByName (AnimatorControllerLayer.stateMachine layer) stateName = None ->
  _getAnimatorStateInfo stateName (-1) a = Throw TypeError.
Proof.
  intros Hc Hl Hmiss. unfold _getAnimatorStateInfo. rewrite Hc, Hl. simpl.
  unfold elementAt. simpl. rewrite Hmiss. reflexivity.
Qed.

Lemma play_all_layers_miss a c layer rest stateName offset :
  Animator.animatorController a = Some c ->
  AnimatorController.layers c = layer :: rest ->
  findStateByName (AnimatorControllerLayer.stateMachine layer) stateName = None ->
  play stateName (-1) offset a = (a, Throw TypeError).
Proof.
  intros Hc Hl Hmiss. unfold play, bind.
  rewrite (getAnimatorStateInfo_all_layers_miss a c layer rest) by assumption.
  reflexivity.
Qed.

Lemma crossFade_all_layers_miss a c layer rest stateName duration offset :
  Animator.animatorController a = Some c ->
  AnimatorController.layers c = layer :: rest ->
  findStateByName (AnimatorControllerLayer.stateMachine layer) stateName = None ->
  crossFade stateName duration (-1) offset a = (a, Throw TypeError).
Proof.
  intros Hc Hl Hmiss. unfold crossFade, bind.
  rewrite (getAnimatorStateInfo_all_layers_miss a c layer rest) by assumption.
  reflexivity.
Qed.

(** A name that the requested layer does not know, for an explicit index
    of an existing layer: both calls return and change nothing. *)
Lemma getAnimatorStateInfo_layer_miss a c layer layerIndex stateName :
  Animator.animatorController a = Some c ->
  layerIndex <> (-1)%Z ->
  elementAt (AnimatorController.layers c) layerIndex = Some layer ->
  findStateByName (AnimatorControllerLayer.stateMachine layer) stateName = None ->
  _getAnimatorStateInfo stateName layerIndex a = Normal (layerIndex, None).
Proof.
  intros Hc Hne Hl Hmiss. unfold _getAnimatorStateInfo. rewrite Hc.
  apply Z.eqb_neq in Hne. rewrite Hne, Hl, Hmiss. reflexivity.
Qed.

Lemma play_layer_miss a c layer layerIndex stateName offset :
  Animator.animatorController a = Some c ->
  layerIndex <> (-1)%Z ->
  elementAt (AnimatorController.layers c) layerIndex = Some layer ->
  findStateByName (AnimatorControllerLayer.stateMachine layer) stateName = None ->
  play stateName layerIndex offset a = (a, Normal tt).
Proof.
  intros Hc Hne Hl Hmiss. unfold play, bind.
  rewrite (getAnimatorStateInfo_layer_miss a c layer) by assumption.
  reflexivity.
Qed.

Lemma crossFade_layer_miss a c layer layerIndex stateName duration offset :
  Animator.animatorController a = Some c ->
  layerIndex <> (-1)%Z ->
  elementAt (AnimatorController.layers c) layerIndex = Some layer ->
  findStateByName (AnimatorControllerLayer.stateMachine layer) stateName = None ->
  crossFade stateName duration layerIndex offset a = (a, Normal tt).
Proof.
  intros Hc Hne Hl Hmiss. unfold crossFade, bind.
  rewrite (getAnimatorStateInfo_layer_miss a c layer) by assumption.
  reflexivity.
Qed.

(** Without a controller no name resolves and both calls return. *)
Lemma play_without_controller a layerIndex stateName offset :
  Animator.animatorController a = None ->
  play stateName layerIndex offset a = (a, Normal tt).
Proof.
  intros Hc. unfold play, bind, _getAnimatorStateInfo. rewrite Hc. reflexivity.
Qed.

End Resolution.

(** C1. The animator of the scenario knows no state [Run].  Searched on
    all layers ([layerIndex = -1]), [play] and [crossFade] raise
    [TypeError] instead of returning; the store is the one before the
    call.  The same name on the explicit layer [0] is the silent no-op of
    the claim. *)
Theorem unresolved_name_on_all_layers_throws :
  @play Scenario.collaborators "Run" (-1) 0 Scenario.fresh
  = (Scenario.fresh, Throw TypeError)
  /\ @crossFade Scenario.collaborators "Run" (1#2) (-1) 0 Scenario.fresh
     = (Scenario.fresh, Throw TypeError)
  /\ @play Scenario.collaborators "Run" 0 0 Scenario.fresh
     = (Scenario.fresh, Normal tt)
  /\ @crossFade Scenario.collaborators "Run" (1#2) 0 0 Scenario.fresh
     = (Scenario.fresh, Normal tt).
Proof.
  split; [|split; [|split]].
  - eapply play_all_layers_miss; reflexivity.
  - eapply crossFade_all_layers_miss; reflexivity.
  - eapply play_layer_miss; try reflexivity. discriminate.
  - eapply crossFade_layer_miss; try reflexivity. discriminate.
Qed.

(** ** Computations and what they keep *)

Lemma bind_normal {St A B} (m : Stateful St A) (k : A -> Stateful St B)
    s s' x :
  m s = (s', Normal x) -> bind m k s = k x s'.
Proof. intros H. unfold bind. rewrite H. reflexivity. Qed.

Lemma bind_throw {St A B} (m : Stateful St A) (k : A -> Stateful St B)
    s s' e :
  m s = (s', Throw e) -> bind m k s = (s', Throw e).
Proof. intros H. unfold bind. rewrite H. reflexivity. Qed.

(** The first computation of a sequence returns, as [tac] shows. *)
Ltac step tac := erewrite bind_normal; [ | solve [tac] ].

Lemma keeps_ret {St A} (I : St -> Prop) (x : A) : keeps I (ret x).
Proof. intros s H. exact H. Qed.

Lemma keeps_throw {St A} (I : St -> Prop) e : keeps I (@throw St A e).
Proof. intros s H. exact H. Qed.

Lemma keeps_defined {St A} (I : St -> Prop) (o : option A) :
  keeps I (@defined St A o).
Proof. destruct o; [apply keeps_ret | apply keeps_throw]. Qed.

Lemma keeps_get {St} (I : St -> Prop) : keeps I (@get St).
Proof. intros s H. exact H. Qed.

Lemma keeps_read {St A} (I : St -> Prop) (f : St -> Completion A) :
  keeps I (fun s => (s, f s)).
Proof. intros s H. exact H. Qed.

Lemma keeps_read_defined {St A} (I : St -> Prop) (f : St -> option A) :
  keeps I (fun s => defined (f s) s).
Proof. intros s H. simpl. destruct (f s); exact H. Qed.

Lemma keeps_modify {St} (I : St -> Prop) (f : St -> St) :
  (forall s, I s -> I (f s)) -> keeps I (modify f).
Proof. intros Hf s H. apply Hf, H. Qed.

Lemma keeps_bind {St A B} (I : St -> Prop) (m : Stateful St A)
    (k : A -> Stateful St B) :
  keeps I m -> (forall x, keeps I (k x)) -> keeps I (bind m k).
Proof.
  intros Hm Hk s H. unfold bind. specialize (Hm s H).
  destruct (m s) as [s' [x|e]]; simpl in *.
  - apply Hk, Hm.
  - exact Hm.
Qed.

Lemma forDown_S {St} n (body : nat -> Stateful St unit) :
  forDown (S n) body = bind (body n) (fun _ => forDown n body).
Proof. reflexivity. Qed.

Lemma forUp_S {St} n from (body : nat -> Stateful St unit) :
  forUp (S n) from body = bind (body from) (fun _ => forUp n (S from) body).
Proof. reflexivity. Qed.

Lemma keeps_forDown {St} (I : St -> Prop) n (body : nat -> Stateful St unit) :
  (forall i, keeps I (body i)) -> keeps I (forDown n body).
Proof.
  intros Hb. induction n as [|n IH].
  - apply keeps_ret.
  - rewrite forDown_S. apply keeps_bind; auto.
Qed.

Lemma keeps_forUp {St} (I : St -> Prop) n from (body : nat -> Stateful St unit) :
  (forall i, keeps I (body i)) -> keeps I (forUp n from body).
Proof.
  intros Hb. revert from. induction n as [|n IH]; intros from.
  - apply keeps_ret.
  - rewrite forUp_S. apply keeps_bind; auto.
Qed.

(** A loop whose every iteration returns, returns. *)
Lemma forDown_returns {St} n (body : nat -> Stateful St unit) :
  (forall i s, (i < n)%nat -> exists s', body i s = (s', Normal tt)) ->
  forall s, exists s', forDown n body s = (s', Normal tt).
Proof.
  induction n as [|n IH]; intros Hb s.
  - eexists. reflexivity.
  - rewrite forDown_S. unfold bind. destruct (Hb n s) as [s1 H1]; [lia|].
    rewrite H1. apply IH. intros i s2 Hi. apply Hb. lia.
Qed.

(** ** The records of the layers *)

Lemma alter_lookup_insert {A} (f : A -> A) (m : gmap nat A) i x :
  m !! i = Some x -> alter f i m = <[ i := f x ]> m.
Proof.
  intros H. apply map_eq. intros j. destruct (decide (i = j)) as [->|Hne].
  - rewrite lookup_alter_eq, lookup_insert_eq, H. reflexivity.
  - rewrite lookup_alter_ne, lookup_insert_ne by assumption. reflexivity.
Qed.

Lemma layerDataAt_withLayer i d a : layerDataAt i (withLayer i d a) = Some d.
Proof. unfold layerDataAt, withLayer. simpl. apply lookup_insert_eq. Qed.

Lemma layerDataAt_withLayer_ne i j d a :
  i <> j -> layerDataAt j (withLayer i d a) = layerDataAt j a.
Proof.
  intros H. unfold layerDataAt, withLayer. simpl. apply lookup_insert_ne, H.
Qed.

Lemma withLayer_withLayer i d d' a :
  withLayer i d (withLayer i d' a) = withLayer i d a.
Proof. unfold withLayer. simpl. rewrite insert_insert_eq. reflexivity. Qed.

Lemma writeLayer_at i f a d :
  layerDataAt i a = Some d ->
  writeLayer i f a = (withLayer i (f d) a, Normal tt).
Proof.
  intros H. unfold writeLayer, modify, withLayer.
  rewrite (alter_lookup_insert f _ i d H). reflexivity.
Qed.

Lemma writePlayData_at i r f a d :
  layerDataAt i a = Some d ->
  writePlayData i r f a
  = (withLayer i (AnimatorLayerData.assign r (f (AnimatorLayerData.deref r d)) d) a,
     Normal tt).
Proof. intros H. unfold writePlayData. rewrite (writeLayer_at i _ a d H). reflexivity. Qed.

Lemma getAnimatorLayerData_at i a d :
  layerDataAt i a = Some d -> _getAnimatorLayerData i a = (a, Normal d).
Proof. intros H. unfold _getAnimatorLayerData. rewrite H. reflexivity. Qed.

Lemma deref_assign r p d :
  AnimatorLayerData.deref r (AnimatorLayerData.assign r p d) = p.
Proof. destruct r; reflexivity. Qed.

Lemma assign_assign r p p' d :
  AnimatorLayerData.assign r p (AnimatorLayerData.assign r p' d)
  = AnimatorLayerData.assign r p d.
Proof. destruct r; reflexivity. Qed.

Lemma srcPlayData_assign r p d :
  AnimatorLayerData.srcPlayData (AnimatorLayerData.assign r p d)
  = AnimatorLayerData.srcPlayData d.
Proof. destruct r; reflexivity. Qed.

Lemma destPlayData_assign r p d :
  AnimatorLayerData.destPlayData (AnimatorLayerData.assign r p d)
  = AnimatorLayerData.destPlayData d.
Proof. destruct r; reflexivity. Qed.

Lemma layerState_assign r p d :
  AnimatorLayerData.layerState (AnimatorLayerData.assign r p d)
  = AnimatorLayerData.layerState d.
Proof. destruct r; reflexivity. Qed.

Lemma src_assign_src p d :
  AnimatorLayerData.src
    (AnimatorLayerData.assign (AnimatorLayerData.srcPlayData d) p d) = p.
Proof.
  unfold AnimatorLayerData.src. rewrite srcPlayData_assign. apply deref_assign.
Qed.

Section Advance.
Context {collaborators : Collaborators}.

(** [advanceSource] on a layer that has a record: it returns when a record
    that is [Playing] has a state, and the source record becomes
    [advanced]. *)
Lemma srcOf_at i a d :
  layerDataAt i a = Some d -> srcOf i a = (a, Normal (AnimatorLayerData.src d)).
Proof. intros H. unfold srcOf, bind. rewrite H. reflexivity. Qed.

Lemma destOf_at i a d :
  layerDataAt i a = Some d -> destOf i a = (a, Normal (AnimatorLayerData.dest d)).
Proof. intros H. unfold destOf, bind. rewrite H. reflexivity. Qed.

Lemma advanceSource_at deltaTime i a d :
  layerDataAt i a = Some d ->
  (AnimatorStatePlayData.playState (AnimatorLayerData.src d)
   = Some PlayState.Playing ->
   is_Some (AnimatorStatePlayData.state (AnimatorLayerData.src d))) ->
  advanceSource deltaTime i (AnimatorLayerData.srcPlayData d) a
  = (withLayer i
       (AnimatorLayerData.assign (AnimatorLayerData.srcPlayData d)
          (advanced deltaTime (AnimatorLayerData.src d)) d) a,
     Normal tt).
Proof.
  intros Hd Hstate. unfold advanceSource.
  step ltac:(apply writePlayData_at; exact Hd).
  step ltac:(apply srcOf_at; apply layerDataAt_withLayer).
  rewrite !src_assign_src. unfold advanced.
  change (AnimatorLayerData.deref (AnimatorLayerData.srcPlayData d) d)
    with (AnimatorLayerData.src d).
  set (p1 := AnimatorStatePlayData.set_frameTime _ (AnimatorLayerData.src d)).
  destruct (playState_is (AnimatorStatePlayData.playState p1) PlayState.Playing)
    eqn:Hplaying; [|reflexivity].
  assert (Hs : is_Some (AnimatorStatePlayData.state p1)).
  { apply Hstate. subst p1. simpl in Hplaying.
    destruct (AnimatorStatePlayData.playState (AnimatorLayerData.src d))
      as [[]|]; simpl in Hplaying; congruence. }
  destruct Hs as [st Hst]. rewrite Hst.
  unfold bind at 1. cbn [defined ret].
  destruct (js_gt _ _); [|reflexivity].
  destruct (AnimatorState.wrapMode st).
  - step ltac:(apply writePlayData_at; apply layerDataAt_withLayer).
    rewrite deref_assign, assign_assign, withLayer_withLayer.
    rewrite (writePlayData_at i _ _ _ _ (layerDataAt_withLayer _ _ _)).
    rewrite deref_assign, assign_assign, withLayer_withLayer. reflexivity.
  - rewrite (writePlayData_at i _ _ _ _ (layerDataAt_withLayer _ _ _)).
    rewrite deref_assign, assign_assign, withLayer_withLayer. reflexivity.
Qed.

End Advance.

(** ** What the methods keep of the record of a layer *)

(** A method that leaves the records of all layers alone. *)
Lemma keeps_layers_same {A} i φ (m : Method A) :
  (forall a, Animator._animatorLayersData (fst (m a))
             = Animator._animatorLayersData a) ->
  keeps (layerHas i φ) m.
Proof.
  intros Hsame a (d & Hd & Hφ). exists d. split; [|exact Hφ].
  unfold layerDataAt in *. rewrite Hsame. exact Hd.
Qed.

Lemma keeps_onPose {A} i φ (m : PoseMethod A) : keeps (layerHas i φ) (onPose m).
Proof.
  apply keeps_layers_same. intros a. unfold onPose.
  destruct (m _) as [p c]. reflexivity.
Qed.

Lemma keeps_writeTransition i φ r f : keeps (layerHas i φ) (writeTransition r f).
Proof. apply keeps_layers_same. intros a. destruct r; reflexivity. Qed.

Lemma keeps_writeOwner i φ r f : keeps (layerHas i φ) (writeOwner r f).
Proof. apply keeps_layers_same. intros a. reflexivity. Qed.

Lemma keeps_writeLayer i φ j f :
  (j = i -> forall d, φ d -> φ (f d)) ->
  keeps (layerHas i φ) (writeLayer j f).
Proof.
  intros Hf a (d & Hd & Hφ). unfold writeLayer, modify, layerHas, layerDataAt in *.
  simpl. destruct (decide (j = i)) as [->|Hne].
  - exists (f d). rewrite lookup_alter_eq, Hd. split; [reflexivity|].
    apply Hf; [reflexivity | exact Hφ].
  - exists d. rewrite lookup_alter_ne by exact Hne. split; assumption.
Qed.

Lemma keeps_writePlayData i φ j r f :
  (j = i -> forall d, φ d ->
     φ (AnimatorLayerData.assign r (f (AnimatorLayerData.deref r d)) d)) ->
  keeps (layerHas i φ) (writePlayData j r f).
Proof. intros Hf. unfold writePlayData. apply keeps_writeLayer. exact Hf. Qed.

Lemma keeps_getAnimatorLayerData i φ j :
  keeps (layerHas i φ) (_getAnimatorLayerData j).
Proof.
  intros a (d & Hd & Hφ). unfold _getAnimatorLayerData.
  destruct (layerDataAt j a) eqn:Hj; simpl.
  - exists d. split; assumption.
  - exists d. split; [|exact Hφ]. unfold layerDataAt in *. simpl.
    rewrite lookup_insert_ne; [exact Hd|]. congruence.
Qed.

Lemma keeps_promoteDest i φ j frameTime :
  (j = i -> recordsBlind φ) -> keeps (layerHas i φ) (promoteDest j frameTime).
Proof.
  intros Hb. unfold promoteDest. apply keeps_bind; [|intros _].
  - apply keeps_writeLayer. intros Hj d Hd. apply (Hb Hj d Hd).
  - apply keeps_writeLayer. intros Hj d Hd. apply (Hb Hj d Hd).
Qed.

(** The structure of a method, rule by rule; what is left are the writes to
    the records of the layers. *)
Ltac keeps_rules :=
  repeat first
    [ apply keeps_ret
    | apply keeps_throw
    | apply keeps_defined
    | apply keeps_get
    | apply keeps_read_defined
    | apply keeps_onPose
    | apply keeps_writeTransition
    | apply keeps_writeOwner
    | apply keeps_getAnimatorLayerData
    | apply keeps_bind; [ | intros ? ]
    | match goal with
      | |- keeps _ (if ?b then _ else _) => destruct b
      | |- keeps _ (match ?x with _ => _ end) => destruct x
      end ].

Section UpdateKeeps.
Context {collaborators : Collaborators}.

Lemma keeps_advanceSource i φ j deltaTime r :
  (j = i -> recordsBlind φ) ->
  keeps (layerHas i φ) (advanceSource deltaTime j r).
Proof.
  intros Hb. unfold advanceSource, srcOf. keeps_rules;
    apply keeps_writePlayData; intros Hj d Hd; apply (Hb Hj d Hd).
Qed.

Lemma keeps_updatePlayingState i φ j r isFirstLayer weight blendingMode :
  (j = i -> forall d, φ d ->
     φ (AnimatorLayerData.assign r
          (AnimatorStatePlayData.set_playState PlayState.Playing
             (AnimatorLayerData.deref r d)) d)) ->
  keeps (layerHas i φ)
    (_updatePlayingState j r isFirstLayer weight blendingMode).
Proof.
  intros Hw. unfold _updatePlayingState. keeps_rules.
  apply keeps_writePlayData. exact Hw.
Qed.

Lemma keeps_updateCrossFadeFromPose i φ j transition r weight deltaTime :
  (j = i -> recordsBlind φ) ->
  keeps (layerHas i φ)
    (_updateCrossFadeFromPose j transition r weight deltaTime).
Proof.
  intros Hb. unfold _updateCrossFadeFromPose. keeps_rules;
    first [ apply keeps_writePlayData; intros Hj d Hd; apply (Hb Hj d Hd)
          | apply keeps_writeLayer; intros Hj d Hd; apply (Hb Hj d Hd) ].
Qed.

Lemma keeps_updateCrossFade i φ j r transition r' weight deltaTime :
  (j = i -> recordsBlind φ
            /\ forall d, φ d ->
                 φ (AnimatorLayerData.set_layerState LayerState.Playing d)) ->
  keeps (layerHas i φ) (_updateCrossFade j r transition r' weight deltaTime).
Proof.
  intros Hb. unfold _updateCrossFade. keeps_rules;
    first [ apply keeps_writePlayData; intros Hj d Hd;
            apply (proj1 (Hb Hj) d Hd)
          | apply keeps_writeLayer; intros Hj d Hd;
            first [ apply (proj1 (Hb Hj) d Hd) | apply (proj2 (Hb Hj) d Hd) ] ].
Qed.

(** [_updateLayer] keeps a stable property of the record of the layer
    [i]; of another layer it keeps every property. *)
Lemma keeps_updateLayer i φ j isFirstLayer deltaTime :
  (j = i -> updateStable φ) ->
  keeps (layerHas i φ) (_updateLayer j isFirstLayer deltaTime).
Proof.
  intros Hb a Ha. unfold _updateLayer, bind.
  destruct (layersOf a !! j) as [layer|]; [|exact Ha]. simpl.
  destruct (layerDataAt j a) as [dj|] eqn:Hdj; [|exact Ha]. simpl.
  destruct (AnimatorLayerData.layerState dj) eqn:Hstate.
  - exact Ha.
  - apply keeps_updatePlayingState; [|exact Ha].
    intros Hj d Hd. apply (proj1 (Hb Hj) d Hd).
  - destruct (AnimatorStatePlayData.state (AnimatorLayerData.src dj)) as [st|];
      [|exact Ha]. simpl.
    destruct (transitionsOf a (AnimatorState.instanceId st) !! 0%nat);
      [|exact Ha].
    apply keeps_updateCrossFade; [|exact Ha].
    intros ->. destruct (Hb eq_refl) as [Hblind [Hno|Hplay]].
    + destruct Ha as (d & Hd & Hφ).
      rewrite Hdj in Hd. injection Hd as ->.
      destruct (Hno d Hφ Hstate).
    + split; assumption.
  - apply keeps_updateCrossFadeFromPose; [|exact Ha].
    intros Hj. exact (proj1 (Hb Hj)).
Qed.

Lemma keeps_updateLayerAt i φ j deltaTime :
  (j = i -> updateStable φ) ->
  keeps (layerHas i φ) (updateLayerAt deltaTime j).
Proof.
  intros Hb. unfold updateLayerAt.
  apply keeps_bind; [apply keeps_getAnimatorLayerData | intros dj].
  destruct (LayerState_eqb _ _); [apply keeps_ret|].
  apply keeps_bind; [|intros _].
  - apply keeps_advanceSource. intros Hj. exact (proj1 (Hb Hj)).
  - apply keeps_updateLayer. exact Hb.
Qed.

Lemma keeps_update i φ deltaTime :
  updateStable φ -> keeps (layerHas i φ) (update deltaTime).
Proof.
  intros Hb a Ha. unfold update.
  destruct (js_eq (Animator.speed a) 0); [exact Ha|].
  destruct (Animator.animatorController a); [|exact Ha].
  apply keeps_forUp; [|exact Ha].
  intros j. apply keeps_updateLayerAt. intros _. exact Hb.
Qed.

(** The iteration of another layer keeps the record of the layer [i]. *)
Lemma updateLayerAt_frame i j d deltaTime a :
  j <> i ->
  layerDataAt i a = Some d ->
  layerDataAt i (fst (updateLayerAt deltaTime j a)) = Some d.
Proof.
  intros Hne Hd.
  destruct (keeps_updateLayerAt i (fun d' => d' = d) j deltaTime) with (s := a)
    as (d' & Hd' & ->).
  - intros Hj. congruence.
  - exists d. split; [exact Hd | reflexivity].
  - exact Hd'.
Qed.

End UpdateKeeps.

(** ** What [update] never writes *)

Lemma keeps_config_same {A} c speed records (m : Method A) :
  (forall a, Animator.animatorController (fst (m a))
             = Animator.animatorController a
             /\ Animator.speed (fst (m a)) = Animator.speed a
             /\ Animator._crossCurveData (fst (m a))
                = Animator._crossCurveData a) ->
  keeps (configuredAs c speed records) m.
Proof.
  intros Hsame a (Hc & Hs & Hr). destruct (Hsame a) as (Hc' & Hs' & Hr').
  repeat split; congruence.
Qed.

Lemma keeps_config_onPose {A} c speed records (m : PoseMethod A) :
  keeps (configuredAs c speed records) (onPose m).
Proof.
  apply keeps_config_same. intros a. unfold onPose.
  destruct (m _) as [p r]. repeat split.
Qed.

Lemma keeps_config_writeTransition c speed records r f :
  keeps (configuredAs c speed records) (writeTransition r f).
Proof. apply keeps_config_same. intros a. destruct r; repeat split. Qed.

Lemma keeps_config_writeLayer c speed records j f :
  keeps (configuredAs c speed records) (writeLayer j f).
Proof. apply keeps_config_same. intros a. repeat split. Qed.

Lemma keeps_config_writePlayData c speed records j r f :
  keeps (configuredAs c speed records) (writePlayData j r f).
Proof. apply keeps_config_writeLayer. Qed.

Lemma keeps_config_getAnimatorLayerData c speed records j :
  keeps (configuredAs c speed records) (_getAnimatorLayerData j).
Proof.
  apply keeps_config_same. intros a. unfold _getAnimatorLayerData.
  destruct (layerDataAt j a); repeat split.
Qed.

Ltac keeps_config :=
  repeat first
    [ apply keeps_ret
    | apply keeps_throw
    | apply keeps_defined
    | apply keeps_get
    | apply keeps_read_defined
    | apply keeps_config_onPose
    | apply keeps_config_writeTransition
    | apply keeps_config_writePlayData
    | apply keeps_config_writeLayer
    | apply keeps_config_getAnimatorLayerData
    | apply keeps_bind; [ | intros ? ]
    | match goal with
      | |- keeps _ (if ?b then _ else _) => destruct b
      | |- keeps _ (match ?x with _ => _ end) => destruct x
      end ].

Section UpdateAtLayer.
Context {collaborators : Collaborators}.

Lemma keeps_config_updateLayerAt c speed records deltaTime j :
  keeps (configuredAs c speed records) (updateLayerAt deltaTime j).
Proof.
  unfold updateLayerAt, advanceSource, srcOf, _updateLayer,
    _updatePlayingState, _updateCrossFade, _updateCrossFadeFromPose,
    promoteDest.
  keeps_config.
Qed.

(** ** The loop of [update] around the iteration of one layer *)

Lemma forUp_split {St} n m from (body : nat -> Stateful St unit) s :
  forUp (n + m) from body s
  = bind (forUp n from body) (fun _ => forUp m (from + n) body) s.
Proof.
  revert from s. induction n as [|n IH]; intros from s.
  - simpl. unfold bind. simpl. rewrite Nat.add_0_r. reflexivity.
  - change (S n + m)%nat with (S (n + m)). rewrite !forUp_S.
    unfold bind. destruct (body from s) as [s1 [[]|e]]; [|reflexivity].
    rewrite IH. unfold bind.
    replace (S from + n)%nat with (from + S n)%nat by lia.
    reflexivity.
Qed.

Lemma keeps_forUp_range {St} (I : St -> Prop) n from
    (body : nat -> Stateful St unit) :
  (forall j, (from <= j < from + n)%nat -> keeps I (body j)) ->
  keeps I (forUp n from body).
Proof.
  revert from. induction n as [|n IH]; intros from Hb.
  - apply keeps_ret.
  - rewrite forUp_S. apply keeps_bind.
    + apply Hb. lia.
    + intros _. apply IH. intros j Hj. apply Hb. lia.
Qed.

(** The iterations of the layers before [i] returned with the store [a1]:
    the record of the layer [i] is still the one before the call, what
    [update] never writes too, and the record of the layer [i] after [update] is
    the one after its own iteration on [a1], however [update] completes. *)
Lemma update_at_layer a deltaTime c i d a1 :
  js_eq (Animator.speed a) 0 = false ->
  Animator.animatorController a = Some c ->
  (i < List.length (AnimatorController.layers c))%nat ->
  layerDataAt i a = Some d ->
  forUp i 0 (updateLayerAt (deltaTime * Animator.speed a)) a = (a1, Normal tt) ->
  layerDataAt i a1 = Some d
  /\ configuredAs (Some c) (Animator.speed a) (Animator._crossCurveData a) a1
  /\ layerDataAt i (fst (update deltaTime a))
     = layerDataAt i (fst (updateLayerAt (deltaTime * Animator.speed a) i a1)).
Proof.
  intros Hspeed Hc Hi Hd Hbefore.
  set (dts := deltaTime * Animator.speed a) in *.
  assert (Hd1 : layerDataAt i a1 = Some d).
  { destruct (keeps_forUp_range (layerHas i (fun d' => d' = d)) i 0
                (updateLayerAt dts)) with (s := a) as (d' & Hd' & ->).
    - intros j Hj. apply keeps_updateLayerAt. intros ->. lia.
    - exists d. split; [exact Hd | reflexivity].
    - rewrite Hbefore in Hd'. exact Hd'. }
  assert (Hcfg : configuredAs (Some c) (Animator.speed a)
                   (Animator._crossCurveData a) a1).
  { pose proof (keeps_forUp
                  (configuredAs (Some c) (Animator.speed a)
                     (Animator._crossCurveData a)) i 0
                  (updateLayerAt dts)
                  (keeps_config_updateLayerAt _ _ _ dts) a) as H.
    rewrite Hbefore in H. apply H. repeat split. exact Hc. }
  split; [exact Hd1|]. split; [exact Hcfg|].
  unfold update. rewrite Hspeed, Hc. fold dts.
  replace (List.length (AnimatorController.layers c))
    with (i + S (List.length (AnimatorController.layers c) - S i))%nat by lia.
  rewrite forUp_split. unfold bind at 1. rewrite Hbefore.
  rewrite forUp_S. unfold bind at 1. simpl.
  destruct (updateLayerAt dts i a1) as [a2 [[]|e]] eqn:Hown; [|reflexivity].
  simpl.
  assert (Hex : layerHas i (fun _ => True) a2).
  { pose proof (keeps_updateLayerAt i (fun _ => True) i dts) as H.
    specialize (H (fun _ => conj (fun _ _ => conj (fun _ _ => I) (fun _ => I))
                               (or_intror (fun _ _ => I))) a1).
    rewrite Hown in H. apply H. exists d. split; [exact Hd1 | exact I]. }
  destruct Hex as (d2 & Hd2 & _).
  destruct (keeps_forUp_range (layerHas i (fun d' => d' = d2))
              (List.length (AnimatorController.layers c) - S i) (S i)
              (updateLayerAt dts)) with (s := a2) as (d' & Hd' & ->).
  - intros j Hj. apply keeps_updateLayerAt. intros ->. lia.
  - exists d2. split; [exact Hd2 | reflexivity].
  - rewrite Hd'. symmetry. exact Hd2.
Qed.

(** ** A layer that is [Playing] *)

(** After [_updateLayer] on a layer that is [Playing], however it
    completes, the source record is marked [Playing] and is otherwise the
    one before it. *)
Lemma updateLayer_playing i isFirstLayer deltaTime a d :
  layerDataAt i a = Some d ->
  AnimatorLayerData.layerState d = LayerState.Playing ->
  is_Some (layersOf a !! i) ->
  layerDataAt i (fst (_updateLayer i isFirstLayer deltaTime a))
  = Some (AnimatorLayerData.assign (AnimatorLayerData.srcPlayData d)
            (AnimatorStatePlayData.set_playState PlayState.Playing
               (AnimatorLayerData.src d)) d).
Proof.
  intros Hd Hstate [layer Hlayer]. unfold _updateLayer, bind.
  rewrite Hlayer. simpl. rewrite Hd. simpl. rewrite Hstate.
  unfold _updatePlayingState.
  erewrite bind_normal by (apply writePlayData_at; exact Hd).
  set (d2 := AnimatorLayerData.assign _ _ d).
  match goal with
  | |- layerDataAt i (fst (?m ?st)) = _ =>
      assert (Hk : keeps (layerHas i (fun d' => d' = d2)) m);
        [ apply keeps_layers_same | destruct (Hk st) as (d' & Hd' & ->) ]
  end.
  - intros s. unfold bind.
    destruct (layerDataAt i s); simpl; [|reflexivity].
    destruct (AnimatorStatePlayData.state _); simpl; [|reflexivity].
    destruct (AnimatorStatePlayData.stateData _); simpl; [|reflexivity].
    unfold onPose. destruct (forDown _ _ _). reflexivity.
  - exists d2. split; [apply layerDataAt_withLayer | reflexivity].
  - exact Hd'.
Qed.

(** The record of a layer that is [Playing] after its iteration of the
    loop of [update], however the iteration completes. *)
Lemma updateLayerAt_playing deltaTime i a d :
  layerDataAt i a = Some d ->
  AnimatorLayerData.layerState d = LayerState.Playing ->
  is_Some (layersOf a !! i) ->
  (AnimatorStatePlayData.playState (AnimatorLayerData.src d)
   = Some PlayState.Playing ->
   is_Some (AnimatorStatePlayData.state (AnimatorLayerData.src d))) ->
  layerDataAt i (fst (updateLayerAt deltaTime i a))
  = Some (AnimatorLayerData.assign (AnimatorLayerData.srcPlayData d)
            (AnimatorStatePlayData.set_playState PlayState.Playing
               (advanced deltaTime (AnimatorLayerData.src d))) d).
Proof.
  intros Hd Hstate Hlayer Hsrc. unfold updateLayerAt.
  erewrite bind_normal by (apply getAnimatorLayerData_at; exact Hd).
  rewrite Hstate. simpl.
  erewrite bind_normal by (apply advanceSource_at; assumption).
  rewrite (updateLayer_playing i _ _ _ _ (layerDataAt_withLayer i _ a)).
  - rewrite src_assign_src, srcPlayData_assign, assign_assign. reflexivity.
  - rewrite layerState_assign. exact Hstate.
  - exact Hlayer.
Qed.

End UpdateAtLayer.

Section PlayingLayer.
Context {collaborators : Collaborators}.

(** The record of a layer that is [Playing] after [update], when the
    iterations of the layers before it return, however [update]
    completes. *)
Lemma update_playing a deltaTime c i d a1 :
  js_eq (Animator.speed a) 0 = false ->
  Animator.animatorController a = Some c ->
  (i < List.length (AnimatorController.layers c))%nat ->
  forUp i 0 (updateLayerAt (deltaTime * Animator.speed a)) a = (a1, Normal tt) ->
  layerDataAt i a = Some d ->
  AnimatorLayerData.layerState d = LayerState.Playing ->
  (AnimatorStatePlayData.playState (AnimatorLayerData.src d)
   = Some PlayState.Playing ->
   is_Some (AnimatorStatePlayData.state (AnimatorLayerData.src d))) ->
  layerDataAt i (fst (update deltaTime a))
  = Some (AnimatorLayerData.assign (AnimatorLayerData.srcPlayData d)
            (AnimatorStatePlayData.set_playState PlayState.Playing
               (advanced (deltaTime * Animator.speed a) (AnimatorLayerData.src d)))
            d).
Proof.
  intros Hspeed Hc Hi Hbefore Hd Hstate Hsrc.
  destruct (update_at_layer a deltaTime c i d a1 Hspeed Hc Hi Hd Hbefore)
    as (Hd1 & [Hc1 _] & ->).
  apply updateLayerAt_playing; try assumption.
  unfold layersOf. rewrite Hc1. apply lookup_lt_is_Some. exact Hi.
Qed.

(** C8 (amended). For a looping state with a positive [clipEndTime] on a
    layer that is [Playing] and whose source record is [Playing], when the
    iterations of the layers before it return and the advance
    [frameTime + deltaTime * speed / 1000] goes past [clipEndTime], the
    source record after [update] has that advance modulo [clipEndTime] as
    its [frameTime], in [[0, clipEndTime)]. *)
Theorem update_wraps_looping_source :
  forall (a : Animator.t) (deltaTime : Q) (c : AnimatorController.t)
         (i : nat) (d : AnimatorLayerData.t) (st : AnimatorState.t)
         (a1 : Animator.t),
    js_eq (Animator.speed a) 0 = false ->
    Animator.animatorController a = Some c ->
    (i < List.length (AnimatorController.layers c))%nat ->
    forUp i 0 (updateLayerAt (deltaTime * Animator.speed a)) a
    = (a1, Normal tt) ->
    layerDataAt i a = Some d ->
    AnimatorLayerData.layerState d = LayerState.Playing ->
    AnimatorStatePlayData.playState (AnimatorLayerData.src d)
    = Some PlayState.Playing ->
    AnimatorStatePlayData.state (AnimatorLayerData.src d) = Some st ->
    AnimatorState.wrapMode st = WrapMode.Loop ->
    0 < AnimatorState.clipEndTime st ->
    AnimatorState.clipEndTime st
    < AnimatorStatePlayData.frameTime (AnimatorLayerData.src d)
      + deltaTime * Animator.speed a / 1000 ->
    exists d',
      layerDataAt i (fst (update deltaTime a)) = Some d'
      /\ AnimatorStatePlayData.frameTime (AnimatorLayerData.src d')
         == js_rem (AnimatorStatePlayData.frameTime (AnimatorLayerData.src d)
                    + deltaTime * Animator.speed a / 1000)
                   (AnimatorState.clipEndTime st)
      /\ 0 <= AnimatorStatePlayData.frameTime (AnimatorLayerData.src d')
      /\ AnimatorStatePlayData.frameTime (AnimatorLayerData.src d')
         < AnimatorState.clipEndTime st.
Proof.
  intros a deltaTime c i d st a1 Hspeed Hc Hi Hbefore Hd Hstate Hplaying Hst
    Hloop Hpos Hpast.
  eexists. split.
  - apply (update_playing a deltaTime c i d a1); try assumption.
    intros _. rewrite Hst. eauto.
  - rewrite src_assign_src. unfold advanced. simpl.
    rewrite Hplaying, Hst. simpl.
    apply js_gt_spec in Hpast. rewrite Hpast, Hloop. simpl.
    apply js_gt_spec in Hpast.
    split; [reflexivity|]. apply js_rem_range; assumption.
Qed.

(** The source record of a clamped state that is at, or is driven to, the
    end of its clip: after [update] its [frameTime] is [clipEndTime], and
    its [playState] is [Playing]. *)
Lemma update_clamps_source a deltaTime c i d st a1 :
  js_eq (Animator.speed a) 0 = false ->
  Animator.animatorController a = Some c ->
  (i < List.length (AnimatorController.layers c))%nat ->
  forUp i 0 (updateLayerAt (deltaTime * Animator.speed a)) a = (a1, Normal tt) ->
  layerDataAt i a = Some d ->
  AnimatorLayerData.layerState d = LayerState.Playing ->
  AnimatorStatePlayData.playState (AnimatorLayerData.src d)
  = Some PlayState.Playing ->
  AnimatorStatePlayData.state (AnimatorLayerData.src d) = Some st ->
  AnimatorState.wrapMode st = WrapMode.Clamp ->
  AnimatorState.clipEndTime st
  <= AnimatorStatePlayData.frameTime (AnimatorLayerData.src d)
     + deltaTime * Animator.speed a / 1000 ->
  exists d',
    layerDataAt i (fst (update deltaTime a)) = Some d'
    /\ AnimatorStatePlayData.frameTime (AnimatorLayerData.src d')
       == AnimatorState.clipEndTime st
    /\ AnimatorStatePlayData.playState (AnimatorLayerData.src d')
       = Some PlayState.Playing.
Proof.
  intros Hspeed Hc Hi Hbefore Hd Hstate Hplaying Hst Hclamp Hend.
  eexists. split.
  - apply (update_playing a deltaTime c i d a1); try assumption.
    intros _. rewrite Hst. eauto.
  - rewrite src_assign_src. split; [|reflexivity].
    unfold advanced. simpl. rewrite Hplaying, Hst. simpl.
    destruct (js_gt _ _) eqn:Hgt.
    + rewrite Hclamp. reflexivity.
    + apply js_gt_false in Hgt. simpl. lra.
Qed.

End PlayingLayer.

(** The premises of the amended C8 hold for the looping [Idle] of the
    scenario and an update of 1250 ms: the source record wraps from 1.25 s
    to 0.25 s. *)
Lemma update_wraps_looping_source_witness :
  exists d',
    layerDataAt 0 (fst (@update Scenario.collaborators 1250 Scenario.playingIdle))
    = Some d'
    /\ AnimatorStatePlayData.frameTime (AnimatorLayerData.src d')
       == js_rem (0 + 1250 * 1 / 1000) 1
    /\ 0 <= AnimatorStatePlayData.frameTime (AnimatorLayerData.src d')
    /\ AnimatorStatePlayData.frameTime (AnimatorLayerData.src d') < 1.
Proof.
  apply (@update_wraps_looping_source Scenario.collaborators
           Scenario.playingIdle 1250 Scenario.controller 0%nat
           (Scenario.layer0 Scenario.playingIdle) Scenario.Idle
           Scenario.playingIdle);
    try reflexivity.
  simpl. lia.
Defined.

(** C8 (as stated). The looping [Idle] of the scenario plays at
    [frameTime = 0] with speed 1; [update(1250)] advances it past its
    [clipEndTime] of one second and leaves it at 0.25 s, which is not
    [(0 + 1250 * 1) mod 1 = 0]: the advance is [deltaTime * speed / 1000]. *)
Lemma update_wrap_ignores_milliseconds_counterexample :
  let a := Scenario.playingIdle in
  let d := Scenario.layer0 a in
  let d' := Scenario.layer0 (fst (@update Scenario.collaborators 1250 a)) in
  AnimatorStatePlayData.playState (AnimatorLayerData.src d)
  = Some PlayState.Playing
  /\ AnimatorStatePlayData.state (AnimatorLayerData.src d) = Some Scenario.Idle
  /\ AnimatorState.wrapMode Scenario.Idle = WrapMode.Loop
  /\ AnimatorStatePlayData.frameTime (AnimatorLayerData.src d') == 1 # 4
  /\ ~ (AnimatorStatePlayData.frameTime (AnimatorLayerData.src d')
        == js_rem (AnimatorStatePlayData.frameTime (AnimatorLayerData.src d)
                   + 1250 * Animator.speed a)
                  (AnimatorState.clipEndTime Scenario.Idle)).
Proof.
  repeat split; try reflexivity.
  vm_compute. discriminate.
Qed.

(** C2. The clamped [Walk] of the scenario (half a second) is played and
    driven to the end of its clip by [update(600)]; another [update(16)]
    keeps [frameTime] at [clipEndTime], but after either call the source
    record is [Playing], not [Finished]: [_updatePlayingState] marks the
    record [Playing] again in the same call of [update] that marked it
    [Finished]. *)
Theorem finished_source_is_marked_playing_again :
  let reached := fst (@update Scenario.collaborators 600 Scenario.playingWalk) in
  let further := fst (@update Scenario.collaborators 16 reached) in
  let playData a := AnimatorLayerData.src (Scenario.layer0 a) in
  AnimatorStatePlayData.frameTime (playData reached)
  == AnimatorState.clipEndTime Scenario.Walk
  /\ AnimatorStatePlayData.playState (playData reached) = Some PlayState.Playing
  /\ AnimatorStatePlayData.frameTime (playData further)
     == AnimatorState.clipEndTime Scenario.Walk
  /\ AnimatorStatePlayData.playState (playData further) = Some PlayState.Playing
  /\ AnimatorStatePlayData.playState (playData further)
     <> Some PlayState.Finished.
Proof.
  repeat split; try reflexivity.
  vm_compute. discriminate.
Qed.

(** ** A layer that is [FixedCrossFading] *)

Lemma promoteDest_at i frameTime a d :
  layerDataAt i a = Some d ->
  promoteDest i frameTime a = (withLayer i (promoted frameTime d) a, Normal tt).
Proof.
  intros Hd. unfold promoteDest.
  erewrite bind_normal by (apply writeLayer_at; exact Hd).
  erewrite writeLayer_at by apply layerDataAt_withLayer.
  rewrite withLayer_withLayer. reflexivity.
Qed.

Lemma promoted_fields frameTime d :
  AnimatorLayerData.srcPlayData (promoted frameTime d)
  = AnimatorLayerData.destPlayData d
  /\ AnimatorLayerData.destPlayData (promoted frameTime d)
     = AnimatorLayerData.destPlayData d
  /\ AnimatorLayerData.layerState (promoted frameTime d)
     = AnimatorLayerData.layerState d
  /\ AnimatorLayerData.src (promoted frameTime d)
     = AnimatorStatePlayData.set_frameTime frameTime (AnimatorLayerData.dest d).
Proof.
  destruct d as [m s t ls mark p1 p2]. destruct t; repeat split.
Qed.


Lemma state_advanced deltaTime p :
  AnimatorStatePlayData.state (advanced deltaTime p)
  = AnimatorStatePlayData.state p.
Proof.
  destruct p as [s f ps sd]. unfold advanced. simpl.
  destruct (playState_is _ _); [|reflexivity].
  destruct s as [st|]; [|reflexivity].
  destruct (js_gt _ _); [|reflexivity].
  destruct (AnimatorState.wrapMode st); reflexivity.
Qed.

Lemma stateData_advanced deltaTime p :
  AnimatorStatePlayData.stateData (advanced deltaTime p)
  = AnimatorStatePlayData.stateData p.
Proof.
  destruct p as [s f ps sd]. unfold advanced. simpl.
  destruct (playState_is _ _); [|reflexivity].
  destruct s as [st|]; [|reflexivity].
  destruct (js_gt _ _); [|reflexivity].
  destruct (AnimatorState.wrapMode st); reflexivity.
Qed.

(** The destination record after the advance of the source record: its
    state and its state data are the ones before, also when both
    references name the same record. *)
Lemma dest_after_advance deltaTime d :
  let d1 :=
    AnimatorLayerData.assign (AnimatorLayerData.srcPlayData d)
      (advanced deltaTime (AnimatorLayerData.src d)) d in
  AnimatorStatePlayData.state (AnimatorLayerData.dest d1)
  = AnimatorStatePlayData.state (AnimatorLayerData.dest d)
  /\ AnimatorStatePlayData.stateData (AnimatorLayerData.dest d1)
     = AnimatorStatePlayData.stateData (AnimatorLayerData.dest d).
Proof.
  unfold AnimatorLayerData.dest, AnimatorLayerData.src.
  destruct d as [m s t ls mark p1 p2].
  destruct s, t; simpl; auto using state_advanced, stateData_advanced.
Qed.

Lemma crossWeightReached_elapsed deltaTime tr :
  0 < AnimatorStateTransition.duration tr ->
  AnimatorStateTransition.duration tr
  <= AnimatorStateTransition._crossFadeFrameTime tr + deltaTime / 1000 ->
  crossWeightReached (elapsed deltaTime tr) = true.
Proof.
  intros Hpos Hle. unfold crossWeightReached, elapsed. simpl.
  apply js_ge_spec. apply Qle_shift_div_l; [exact Hpos|]. lra.
Qed.

Lemma crossWeightOf_reached tr :
  crossWeightReached tr = true -> crossWeightOf tr == 1.
Proof. intros H. unfold crossWeightOf. rewrite H. reflexivity. Qed.


Section FixedCrossFading.
Context {collaborators : Collaborators}.






End FixedCrossFading.


(** ** A layer that is [CrossFading] *)

Lemma crossWeightReached_not_yet deltaTime tr :
  0 < AnimatorStateTransition.duration tr ->
  AnimatorStateTransition._crossFadeFrameTime tr + deltaTime / 1000
  < AnimatorStateTransition.duration tr ->
  crossWeightReached (elapsed deltaTime tr) = false.
Proof.
  intros Hpos Hlt. unfold crossWeightReached, elapsed, js_ge. simpl.
  destruct (Qle_bool 1 _) eqn:E; [|reflexivity].
  apply Qle_bool_iff in E.
  assert (H : (AnimatorStateTransition._crossFadeFrameTime tr + deltaTime / 1000)
              / AnimatorStateTransition.duration tr < 1)
    by (apply Qlt_shift_div_r; [exact Hpos | lra]).
  lra.
Qed.

Lemma readTransition_write r f a tr :
  readTransition r a = Some tr ->
  readTransition r (fst (writeTransition r f a)) = Some (f tr).
Proof.
  destruct r as [|stateId index]; simpl.
  - intros [= <-]. reflexivity.
  - intros H. unfold transitionsOf at 1. simpl. rewrite lookup_insert_eq. simpl.
    rewrite list_lookup_alter_eq, H. reflexivity.
Qed.

Lemma layerDataAt_writeTransition r f a i :
  layerDataAt i (fst (writeTransition r f a)) = layerDataAt i a.
Proof. destruct r; reflexivity. Qed.

Lemma crossCurveData_writeTransition r f a :
  Animator._crossCurveData (fst (writeTransition r f a))
  = Animator._crossCurveData a.
Proof. destruct r; reflexivity. Qed.

Lemma writeTransition_returns r f a :
  writeTransition r f a = (fst (writeTransition r f a), Normal tt).
Proof. reflexivity. Qed.

(** A write to the [playState] of a record changes the state and the state
    data of no record. *)
Lemma deref_assign_playState r r' x d :
  let d' :=
    AnimatorLayerData.assign r
      (AnimatorStatePlayData.set_playState x (AnimatorLayerData.deref r d)) d in
  AnimatorStatePlayData.state (AnimatorLayerData.deref r' d')
  = AnimatorStatePlayData.state (AnimatorLayerData.deref r' d)
  /\ AnimatorStatePlayData.stateData (AnimatorLayerData.deref r' d')
     = AnimatorStatePlayData.stateData (AnimatorLayerData.deref r' d)
  /\ AnimatorStatePlayData.frameTime (AnimatorLayerData.deref r' d')
     = AnimatorStatePlayData.frameTime (AnimatorLayerData.deref r' d).
Proof. destruct r, r'; repeat split. Qed.

Section CrossFading.
Context {collaborators : Collaborators}.

Lemma crossFade_loop_returns store records playingState playingFrameTime
    nextClip srcOwners destOwners frameTime crossWeight weight :
  crossRecordsPaired records
    (List.length (AnimationClip._curves (AnimatorState.clip playingState)))
    (List.length (AnimationClip._curves nextClip))
    (List.length srcOwners) = true ->
  forall p, exists p',
    forDown (List.length records)
      (crossFadeCurve store records playingState playingFrameTime nextClip
         srcOwners destOwners frameTime crossWeight weight) p
    = (p', Normal tt).
Proof.
  intros Hpaired. apply forDown_returns. intros k p Hk.
  unfold crossFadeCurve.
  destruct (lookup_lt_is_Some_2 records k Hk) as [r Hr].
  rewrite Hr. unfold bind at 1. cbn [defined ret].
  unfold crossRecordsPaired in Hpaired. rewrite forallb_forall in Hpaired.
  assert (Hin : In r records).
  { apply list_elem_of_In. apply list_elem_of_lookup. eauto. }
  specialize (Hpaired r Hin).
  destruct (CrossCurveData.curCurveIndex r) as [cur|]; [|discriminate].
  destruct (CrossCurveData.nextCurveIndex r) as [next|]; [|discriminate].
  apply andb_prop in Hpaired as [Hpaired Hnext].
  apply andb_prop in Hpaired as [Hcur Hown].
  apply Nat.ltb_lt in Hcur, Hown, Hnext.
  destruct (lookup_lt_is_Some_2 _ _ Hcur) as [c Hc].
  destruct (lookup_lt_is_Some_2 _ _ Hnext) as [n Hn].
  destruct (lookup_lt_is_Some_2 _ _ Hown) as [o Ho].
  cbn [indexGeZero andb elementAtIndex]. 
  replace (0 <=? Z.of_nat cur)%Z with true by (symmetry; apply Z.leb_le; lia).
  replace (0 <=? Z.of_nat next)%Z with true by (symmetry; apply Z.leb_le; lia).
  cbn [andb]. rewrite Hc, Hn, Ho. eexists. reflexivity.
Qed.

Lemma updateLayer_crossFading i isFirstLayer deltaTime a d layer s tr :
  layerDataAt i a = Some d ->
  AnimatorLayerData.layerState d = LayerState.CrossFading ->
  layersOf a !! i = Some layer ->
  AnimatorStatePlayData.state (AnimatorLayerData.src d) = Some s ->
  transitionsOf a (AnimatorState.instanceId s) !! 0%nat = Some tr ->
  _updateLayer i isFirstLayer deltaTime a
  = _updateCrossFade i (AnimatorLayerData.srcPlayData d)
      (StateTransition (AnimatorState.instanceId s) 0)
      (AnimatorLayerData.destPlayData d)
      (AnimatorControllerLayer.weight layer) deltaTime a.
Proof.
  intros Hd Hstate Hlayer Hs Htr. unfold _updateLayer, bind.
  rewrite Hlayer. simpl. rewrite Hd. simpl. rewrite Hstate, Hs. simpl.
  rewrite Htr. reflexivity.
Qed.

(** [_updateCrossFade] up to its last test: the elapsed time has grown,
    the source record is marked [Finished] when it reached the duration,
    and the blend loop has run through. *)
Lemma updateCrossFade_at i weight deltaTime a d s s' sd sd' tr :
  layerDataAt i a = Some d ->
  AnimatorStatePlayData.state (AnimatorLayerData.src d) = Some s ->
  AnimatorStatePlayData.state (AnimatorLayerData.dest d) = Some s' ->
  AnimatorStatePlayData.stateData (AnimatorLayerData.src d) = Some sd ->
  AnimatorStatePlayData.stateData (AnimatorLayerData.dest d) = Some sd' ->
  transitionsOf a (AnimatorState.instanceId s) !! 0%nat = Some tr ->
  crossRecordsPaired (Animator._crossCurveData a)
    (List.length (AnimationClip._curves (AnimatorState.clip s)))
    (List.length (AnimationClip._curves (AnimatorState.clip s')))
    (List.length (AnimatorStateData.owners sd)) = true ->
  let transition := StateTransition (AnimatorState.instanceId s) 0 in
  let d2 :=
    if crossWeightReached (elapsed deltaTime tr)
    then AnimatorLayerData.assign (AnimatorLayerData.srcPlayData d)
           (AnimatorStatePlayData.set_playState PlayState.Finished
              (AnimatorLayerData.src d)) d
    else d in
  let frameTime :=
    destinationFrameTime s'
      (AnimatorStateTransition.offset tr
       + (AnimatorStateTransition._crossFadeFrameTime tr + deltaTime / 1000)) in
  exists a',
    _updateCrossFade i (AnimatorLayerData.srcPlayData d) transition
      (AnimatorLayerData.destPlayData d) weight deltaTime a = (a', Normal tt)
    /\ readTransition transition a' = Some (elapsed deltaTime tr)
    /\ layerDataAt i a'
       = Some (if playState_is
                    (AnimatorStatePlayData.playState (AnimatorLayerData.src d2))
                    PlayState.Finished
               then AnimatorLayerData.set_layerState LayerState.Playing
                      (promoted frameTime d2)
               else d2).
Proof.
  intros Hd Hs Hs' Hsd Hsd' Htr Hpaired transition d2 frameTime.
  unfold _updateCrossFade.
  unfold bind at 1. rewrite Hd. cbn [defined ret].
  change (AnimatorLayerData.deref (AnimatorLayerData.srcPlayData d) d)
    with (AnimatorLayerData.src d).
  change (AnimatorLayerData.deref (AnimatorLayerData.destPlayData d) d)
    with (AnimatorLayerData.dest d).
  rewrite Hs, Hs'. unfold bind at 1. cbn [defined ret].
  unfold bind at 1. cbn [defined ret].
  erewrite bind_normal by apply writeTransition_returns.
  fold transition.
  set (a1 := fst (writeTransition transition _ a)).
  assert (Htr1 : readTransition transition a1 = Some (elapsed deltaTime tr)).
  { subst a1. apply (readTransition_write transition _ a tr). exact Htr. }
  assert (Hd1 : layerDataAt i a1 = Some d).
  { subst a1. rewrite layerDataAt_writeTransition. exact Hd. }
  unfold bind at 1. cbn [get]. rewrite Htr1.
  unfold bind at 1. cbn [defined ret].
  assert (Hmark : exists a2,
    (if crossWeightReached (elapsed deltaTime tr)
     then writePlayData i (AnimatorLayerData.srcPlayData d)
            (AnimatorStatePlayData.set_playState PlayState.Finished)
     else ret tt) a1 = (a2, Normal tt)
    /\ layerDataAt i a2 = Some d2
    /\ readTransition transition a2 = Some (elapsed deltaTime tr)
    /\ Animator._crossCurveData a2 = Animator._crossCurveData a).
  { subst d2. destruct (crossWeightReached (elapsed deltaTime tr)).
    - exists (withLayer i
                (AnimatorLayerData.assign (AnimatorLayerData.srcPlayData d)
                   (AnimatorStatePlayData.set_playState PlayState.Finished
                      (AnimatorLayerData.src d)) d) a1).
      split; [apply writePlayData_at; exact Hd1|].
      split; [apply layerDataAt_withLayer|].
      split; [exact Htr1|]. subst a1. apply crossCurveData_writeTransition.
    - exists a1. split; [reflexivity|]. split; [exact Hd1|].
      split; [exact Htr1|]. subst a1. apply crossCurveData_writeTransition. }
  destruct Hmark as (a2 & Hrun2 & Hd2 & Htr2 & Hrec2).
  erewrite bind_normal by exact Hrun2.
  unfold bind at 1. rewrite Hd2. cbn [defined ret].
  unfold bind at 1. cbn [get].
  assert (Hfields :
    AnimatorStatePlayData.stateData
      (AnimatorLayerData.deref (AnimatorLayerData.srcPlayData d) d2) = Some sd
    /\ AnimatorStatePlayData.stateData
         (AnimatorLayerData.deref (AnimatorLayerData.destPlayData d) d2)
       = Some sd').
  { subst d2. destruct (crossWeightReached (elapsed deltaTime tr));
      [|split; assumption].
    clear -Hsd Hsd'. unfold AnimatorLayerData.src, AnimatorLayerData.dest in *.
    destruct d as [m rs rd ls mark p1 p2]; destruct rs, rd; simpl in *;
      split; assumption. }
  destruct Hfields as [Hsd2 Hsd2'].
  rewrite Hsd2. unfold bind at 1. cbn [defined ret].
  rewrite Hsd2'. unfold bind at 1. cbn [defined ret].
  rewrite Hrec2.
  match goal with
  | |- context [forDown _ (crossFadeCurve ?st ?rs ?ps ?pf ?nc ?so ?dso ?ft ?cw ?w)] =>
      destruct (crossFade_loop_returns st rs ps pf nc so dso ft cw w Hpaired
                  (Pose.mk (Animator.scene a2) (Animator.diff a2)))
        as [p' Hloop]
  end.
  unfold bind at 1. unfold onPose. rewrite Hloop.
  set (a3 := Animator.set_scene _ _).
  assert (Hd3 : layerDataAt i a3 = Some d2) by exact Hd2.
  assert (Htr3 : readTransition transition a3 = Some (elapsed deltaTime tr))
    by exact Htr2.
  unfold bind at 1. rewrite Hd3. cbn [defined ret].
  change (AnimatorLayerData.deref (AnimatorLayerData.srcPlayData d) d2)
    with (AnimatorLayerData.deref (AnimatorLayerData.srcPlayData d) d2).
  assert (Hsrc2 : AnimatorLayerData.deref (AnimatorLayerData.srcPlayData d) d2
                  = AnimatorLayerData.src d2).
  { unfold AnimatorLayerData.src. subst d2.
    destruct (crossWeightReached _); [rewrite srcPlayData_assign|]; reflexivity. }
  rewrite Hsrc2.
  destruct (playState_is _ PlayState.Finished).
  - erewrite bind_normal by (apply promoteDest_at; exact Hd3).
    erewrite writeLayer_at by apply layerDataAt_withLayer.
    eexists. split; [reflexivity|].
    rewrite withLayer_withLayer. split; [exact Htr3|].
    apply layerDataAt_withLayer.
  - eexists. split; [reflexivity|]. split; [exact Htr3 | exact Hd3].
Qed.

End CrossFading.

Lemma advanced_not_playing deltaTime p :
  playState_is (AnimatorStatePlayData.playState p) PlayState.Playing = false ->
  advanced deltaTime p
  = AnimatorStatePlayData.set_frameTime
      (AnimatorStatePlayData.frameTime p + deltaTime / 1000) p.
Proof.
  intros H. unfold advanced. cbn [AnimatorStatePlayData.playState
    AnimatorStatePlayData.set_frameTime]. rewrite H. reflexivity.
Qed.

Section CrossFadeCompletion.
Context {collaborators : Collaborators}.

(** The iteration of the loop of [update] for a layer that is
    [CrossFading] with fully paired records: it returns, the elapsed time
    of the first outgoing transition of the source state grows by
    [deltaTime / 1000], and the record of the layer is the result of the
    last test of [_updateCrossFade] on the advanced record. *)
Lemma updateLayerAt_crossFading deltaTime i a d layer s s' sd sd' tr :
  layerDataAt i a = Some d ->
  AnimatorLayerData.layerState d = LayerState.CrossFading ->
  layersOf a !! i = Some layer ->
  AnimatorStatePlayData.state (AnimatorLayerData.src d) = Some s ->
  AnimatorStatePlayData.state (AnimatorLayerData.dest d) = Some s' ->
  AnimatorStatePlayData.stateData (AnimatorLayerData.src d) = Some sd ->
  AnimatorStatePlayData.stateData (AnimatorLayerData.dest d) = Some sd' ->
  transitionsOf a (AnimatorState.instanceId s) !! 0%nat = Some tr ->
  crossRecordsPaired (Animator._crossCurveData a)
    (List.length (AnimationClip._curves (AnimatorState.clip s)))
    (List.length (AnimationClip._curves (AnimatorState.clip s')))
    (List.length (AnimatorStateData.owners sd)) = true ->
  let d1 :=
    AnimatorLayerData.assign (AnimatorLayerData.srcPlayData d)
      (advanced deltaTime (AnimatorLayerData.src d)) d in
  let d2 :=
    if crossWeightReached (elapsed deltaTime tr)
    then AnimatorLayerData.assign (AnimatorLayerData.srcPlayData d1)
           (AnimatorStatePlayData.set_playState PlayState.Finished
              (AnimatorLayerData.src d1)) d1
    else d1 in
  let frameTime :=
    destinationFrameTime s'
      (AnimatorStateTransition.offset tr
       + (AnimatorStateTransition._crossFadeFrameTime tr + deltaTime / 1000)) in
  exists a',
    updateLayerAt deltaTime i a = (a', Normal tt)
    /\ transitionsOf a' (AnimatorState.instanceId s) !! 0%nat
       = Some (elapsed deltaTime tr)
    /\ layerDataAt i a'
       = Some (if playState_is
                    (AnimatorStatePlayData.playState (AnimatorLayerData.src d2))
                    PlayState.Finished
               then AnimatorLayerData.set_layerState LayerState.Playing
                      (promoted frameTime d2)
               else d2).
Proof.
  intros Hd Hstate Hlayer Hs Hs' Hsd Hsd' Htr Hpaired d1 d2 frameTime.
  unfold updateLayerAt.
  erewrite bind_normal by (apply getAnimatorLayerData_at; exact Hd).
  rewrite Hstate. cbn [LayerState_eqb].
  erewrite bind_normal
    by (apply advanceSource_at; [exact Hd | intros _; rewrite Hs; eauto]).
  fold d1.
  assert (Hd1 : layerDataAt i (withLayer i d1 a) = Some d1)
    by apply layerDataAt_withLayer.
  assert (Hstate1 : AnimatorLayerData.layerState d1 = LayerState.CrossFading).
  { subst d1. rewrite layerState_assign. exact Hstate. }
  assert (Hs1 : AnimatorStatePlayData.state (AnimatorLayerData.src d1) = Some s).
  { subst d1. rewrite src_assign_src, state_advanced. exact Hs. }
  assert (Hsd1 : AnimatorStatePlayData.stateData (AnimatorLayerData.src d1)
                 = Some sd).
  { subst d1. rewrite src_assign_src, stateData_advanced. exact Hsd. }
  destruct (dest_after_advance deltaTime d) as [Hs1' Hsd1']. fold d1 in Hs1', Hsd1'.
  rewrite Hs' in Hs1'. rewrite Hsd' in Hsd1'.
  rewrite (updateLayer_crossFading i _ _ _ d1 layer s tr Hd1 Hstate1 Hlayer Hs1 Htr).
  destruct (updateCrossFade_at i (AnimatorControllerLayer.weight layer)
              deltaTime (withLayer i d1 a) d1 s s' sd sd' tr
              Hd1 Hs1 Hs1' Hsd1 Hsd1' Htr Hpaired)
    as (a' & Hrun & Htr' & Hd').
  exists a'. split; [exact Hrun|]. split; [exact Htr' | exact Hd'].
Qed.

(** One update of a layer that is [CrossFading], whatever the number of
    layers: when its records all pair a source curve with a destination
    curve, its transition (the first outgoing transition of the source
    state) has a positive duration [D] and the iterations of the layers
    before it return, the iteration of the layer returns and adds
    [deltaTime * speed / 1000] to the elapsed time of the transition; once
    the elapsed time is at least [D], [crossWeight] is 1, the layer is
    [Playing] after [update] and the destination record is its source
    record; before that, with a source record that is [Fading], the layer
    stays [CrossFading] with the same two records. *)
Lemma update_cross_fading_layer :
  forall (a : Animator.t) (deltaTime : Q) (c : AnimatorController.t) (i : nat)
         (d : AnimatorLayerData.t) (a1 : Animator.t)
         (s s' : AnimatorState.t) (sd sd' : AnimatorStateData.t)
         (tr : AnimatorStateTransition.t),
    js_eq (Animator.speed a) 0 = false ->
    Animator.animatorController a = Some c ->
    (i < List.length (AnimatorController.layers c))%nat ->
    forUp i 0 (updateLayerAt (deltaTime * Animator.speed a)) a
    = (a1, Normal tt) ->
    layerDataAt i a = Some d ->
    AnimatorLayerData.layerState d = LayerState.CrossFading ->
    AnimatorStatePlayData.state (AnimatorLayerData.src d) = Some s ->
    AnimatorStatePlayData.state (AnimatorLayerData.dest d) = Some s' ->
    AnimatorStatePlayData.stateData (AnimatorLayerData.src d) = Some sd ->
    AnimatorStatePlayData.stateData (AnimatorLayerData.dest d) = Some sd' ->
    transitionsOf a1 (AnimatorState.instanceId s) !! 0%nat = Some tr ->
    0 < AnimatorStateTransition.duration tr ->
    crossRecordsPaired (Animator._crossCurveData a1)
      (List.length (AnimationClip._curves (AnimatorState.clip s)))
      (List.length (AnimationClip._curves (AnimatorState.clip s')))
      (List.length (AnimatorStateData.owners sd)) = true ->
    let dts := deltaTime * Animator.speed a in
    exists a2 d',
      updateLayerAt dts i a1 = (a2, Normal tt)
      /\ transitionsOf a2 (AnimatorState.instanceId s) !! 0%nat
         = Some (elapsed dts tr)
      /\ layerDataAt i (fst (update deltaTime a)) = Some d'
      /\ (AnimatorStateTransition.duration tr
          <= AnimatorStateTransition._crossFadeFrameTime tr + dts / 1000 ->
          crossWeightOf (elapsed dts tr) == 1
          /\ AnimatorLayerData.layerState d' = LayerState.Playing
          /\ AnimatorLayerData.srcPlayData d' = AnimatorLayerData.destPlayData d
          /\ AnimatorStatePlayData.state (AnimatorLayerData.src d') = Some s')
      /\ (AnimatorStateTransition._crossFadeFrameTime tr + dts / 1000
          < AnimatorStateTransition.duration tr ->
          AnimatorStatePlayData.playState (AnimatorLayerData.src d)
          = Some PlayState.Fading ->
          AnimatorLayerData.layerState d' = LayerState.CrossFading
          /\ AnimatorLayerData.srcPlayData d' = AnimatorLayerData.srcPlayData d
          /\ AnimatorLayerData.destPlayData d' = AnimatorLayerData.destPlayData d
          /\ AnimatorStatePlayData.state (AnimatorLayerData.src d') = Some s
          /\ AnimatorStatePlayData.state (AnimatorLayerData.dest d') = Some s').
Proof.
  intros a deltaTime c i d a1 s s' sd sd' tr Hspeed Hc Hi Hbefore Hd Hstate
    Hs Hs' Hsd Hsd' Htr Hpos Hpaired dts.
  destruct (update_at_layer a deltaTime c i d a1 Hspeed Hc Hi Hd Hbefore)
    as (Hd1 & [Hc1 _] & Hafter).
  assert (Hlayer : is_Some (layersOf a1 !! i)).
  { unfold layersOf. rewrite Hc1. apply lookup_lt_is_Some. exact Hi. }
  destruct Hlayer as [layer Hlayer].
  destruct (updateLayerAt_crossFading dts i a1 d layer s s' sd sd' tr
              Hd1 Hstate Hlayer Hs Hs' Hsd Hsd' Htr Hpaired)
    as (a2 & Hrun & Htr2 & Hd2).
  exists a2. eexists. split; [exact Hrun|]. split; [exact Htr2|].
  split; [rewrite Hafter; fold dts; rewrite Hrun; exact Hd2|].
  destruct (dest_after_advance dts d) as [Hs1' _].
  split.
  - intros Hle.
    pose proof (crossWeightReached_elapsed dts tr Hpos Hle) as Hreached.
    split; [apply crossWeightOf_reached; exact Hreached|].
    rewrite Hreached. rewrite src_assign_src.
    cbn [AnimatorStatePlayData.playState AnimatorStatePlayData.set_playState
         playState_is].
    match goal with
    | |- context [promoted ?ft ?d0] =>
        destruct (promoted_fields ft d0) as (Hp1 & Hp2 & Hp3 & Hp4)
    end.
    split; [reflexivity|].
    split.
    + cbn [AnimatorLayerData.srcPlayData AnimatorLayerData.set_layerState].
      rewrite Hp1. rewrite !destPlayData_assign. reflexivity.
    + unfold AnimatorLayerData.src in *.
      cbn [AnimatorLayerData.srcPlayData AnimatorLayerData.set_layerState
           AnimatorLayerData.deref AnimatorLayerData.firstPlayData
           AnimatorLayerData.secondPlayData] in *.
      change (AnimatorLayerData.deref
                (AnimatorLayerData.srcPlayData (promoted ?ft ?d0))
                (AnimatorLayerData.set_layerState LayerState.Playing
                   (promoted ?ft ?d0)))
        with (AnimatorLayerData.deref
                (AnimatorLayerData.srcPlayData (promoted ft d0))
                (promoted ft d0)).
      rewrite Hp4. cbn [AnimatorStatePlayData.state
        AnimatorStatePlayData.set_frameTime].
      unfold AnimatorLayerData.dest. rewrite destPlayData_assign.
      rewrite (proj1 (deref_assign_playState _ _ _ _)).
      rewrite <- Hs'. exact Hs1'.
  - intros Hlt Hfading.
    rewrite (crossWeightReached_not_yet dts tr Hpos Hlt).
    rewrite src_assign_src.
    rewrite (advanced_not_playing dts (AnimatorLayerData.src d))
      by (rewrite Hfading; reflexivity).
    cbn [AnimatorStatePlayData.playState AnimatorStatePlayData.set_frameTime].
    rewrite Hfading. cbn [playState_is].
    rewrite layerState_assign, srcPlayData_assign, destPlayData_assign.
    rewrite src_assign_src.
    repeat split; try assumption.
    rewrite <- Hs'. 
    rewrite (advanced_not_playing dts (AnimatorLayerData.src d)) in Hs1'
      by (rewrite Hfading; reflexivity).
    exact Hs1'.
Qed.

End CrossFadeCompletion.

(** ** Driving a cross-fade to its end *)

Section DrivingUpdates.
Context {collaborators : Collaborators}.

(** With a single layer [update] is the iteration of that layer. *)
Lemma update_single_layer deltaTime a layer a' :
  js_eq (Animator.speed a) 0 = false ->
  Animator.animatorController a = Some (AnimatorController.mk [layer]) ->
  updateLayerAt (deltaTime * Animator.speed a) 0 a = (a', Normal tt) ->
  update deltaTime a = (a', Normal tt).
Proof.
  intros Hspeed Hc Hrun. unfold update. rewrite Hspeed, Hc.
  cbn [AnimatorController.layers List.length]. rewrite forUp_S.
  erewrite bind_normal by exact Hrun. reflexivity.
Qed.

Lemma updateLayer_playing_first i deltaTime a d layer :
  layerDataAt i a = Some d ->
  AnimatorLayerData.layerState d = LayerState.Playing ->
  layersOf a !! i = Some layer ->
  _updateLayer i true deltaTime a
  = _updatePlayingState i (AnimatorLayerData.srcPlayData d) true
      (AnimatorControllerLayer.weight layer)
      (AnimatorControllerLayer.blendingMode layer) a.
Proof.
  intros Hd Hstate Hlayer. unfold _updateLayer, bind.
  rewrite Hlayer. simpl. rewrite Hd. simpl. rewrite Hstate. reflexivity.
Qed.

(** The loop of [_updatePlayingState] on the first layer runs through when
    every curve has an owner. *)
Lemma playingState_loop_returns store curves owners frameTime weight
    blendingMode :
  (List.length curves <= List.length owners)%nat ->
  forall p, exists p',
    forDown (List.length curves)
      (playingStateCurve store curves owners frameTime true weight blendingMode)
      p
    = (p', Normal tt).
Proof.
  intros Hlen. apply forDown_returns. intros k p Hk.
  unfold playingStateCurve.
  destruct (lookup_lt_is_Some_2 curves k Hk) as [c Hc].
  destruct (lookup_lt_is_Some_2 owners k) as [r Hr]; [lia|].
  rewrite Hc, Hr. eexists. reflexivity.
Qed.





End DrivingUpdates.

Section DrivenCrossFade.
Context {collaborators : Collaborators}.




End DrivenCrossFade.



(** ** [play] *)

(** A loop whose every iteration returns and keeps [I], returns and keeps
    [I]. *)
Lemma forDown_returns_keeping {St} (I : St -> Prop) n
    (body : nat -> Stateful St unit) :
  (forall i s, (i < n)%nat -> I s ->
     exists s', body i s = (s', Normal tt) /\ I s') ->
  forall s, I s -> exists s', forDown n body s = (s', Normal tt) /\ I s'.
Proof.
  induction n as [|n IH]; intros Hb s Hs.
  - exists s. split; [reflexivity | exact Hs].
  - rewrite forDown_S. unfold bind.
    destruct (Hb n s) as (s1 & H1 & HI1); [lia | exact Hs |].
    rewrite H1. apply IH; [|exact HI1]. intros i s2 Hi. apply Hb. lia.
Qed.

Section Play.
Context {collaborators : Collaborators}.

Lemma revertDefaultValue_returns p a s sd :
  AnimatorStatePlayData.state p = Some s ->
  AnimatorStatePlayData.stateData p = Some sd ->
  (List.length (AnimationClip._curves (AnimatorState.clip s))
   <= List.length (AnimatorStateData.owners sd))%nat ->
  exists a',
    _revertDefaultValue p a = (a', Normal tt)
    /\ Animator._animatorLayersData a' = Animator._animatorLayersData a.
Proof.
  intros Hs Hsd Hlen. unfold _revertDefaultValue.
  rewrite Hs, Hsd. unfold bind at 1. cbn [defined ret].
  unfold bind at 1. cbn [defined ret].
  apply (forDown_returns_keeping
           (fun a' => Animator._animatorLayersData a'
                      = Animator._animatorLayersData a));
    [|reflexivity].
  intros k a0 Hk Ha0.
  destruct (lookup_lt_is_Some_2 (AnimatorStateData.owners sd) k) as [r Hr];
    [lia|].
  destruct (lookup_lt_is_Some_2 _ k Hk) as [c Hc].
  rewrite Hr, Hc. eexists. split; [reflexivity|]. exact Ha0.
Qed.

Lemma saveDefaultValues_returns sd a :
  exists a',
    _saveDefaultValues sd a = (a', Normal tt)
    /\ Animator._animatorLayersData a' = Animator._animatorLayersData a.
Proof.
  unfold _saveDefaultValues.
  apply (forDown_returns_keeping
           (fun a' => Animator._animatorLayersData a'
                      = Animator._animatorLayersData a));
    [|reflexivity].
  intros k a0 Hk Ha0.
  destruct (lookup_lt_is_Some_2 _ k Hk) as [r Hr].
  rewrite Hr. eexists. split; [reflexivity|]. exact Ha0.
Qed.

(** [_getAnimatorStateData] on a layer that has a record: it returns, and
    of the record of the layer only the cache of state data may change. *)
Lemma getAnimatorStateData_at stateName state i a d :
  layerDataAt i a = Some d ->
  exists a' sd m,
    _getAnimatorStateData stateName state i a = (a', Normal sd)
    /\ layerDataAt i a' = Some (AnimatorLayerData.set_animatorStateDataMap m d).
Proof.
  intros Hd. unfold _getAnimatorStateData.
  unfold bind at 1. rewrite Hd. cbn [defined ret].
  destruct (AnimatorLayerData.animatorStateDataMap d !! stateName) as [sd|].
  - exists a, sd, (AnimatorLayerData.animatorStateDataMap d).
    split; [reflexivity|]. rewrite Hd. destruct d. reflexivity.
  - unfold bind at 1. cbn [_saveAnimatorStateData].
    set (a1 := Animator.set_animationCureOwners _ a).
    assert (Hd1 : layerDataAt i a1 = Some d) by exact Hd.
    erewrite bind_normal by (apply writeLayer_at; exact Hd1).
    eexists. eexists. eexists. split; [reflexivity|].
    apply layerDataAt_withLayer.
Qed.

Lemma layerDataAt_same_layers i a a' :
  Animator._animatorLayersData a' = Animator._animatorLayersData a ->
  layerDataAt i a' = layerDataAt i a.
Proof. intros H. unfold layerDataAt. rewrite H. reflexivity. Qed.

(** C6. For every state that the name resolves to, on a layer whose
    previous pose can be reverted, [play] returns, and immediately after it
    the layer is [Playing] and its source record is [Playing] in that state
    with [frameTime = clip.length * normalizedTimeOffset], which is [0] for
    the offset [0]. *)
Theorem play_starts_source_record :
  forall (a : Animator.t) (stateName : string) (layerIndex : Z)
         (normalizedTimeOffset : Q) (validLayerIndex : Z)
         (playState : AnimatorState.t),
    _getAnimatorStateInfo stateName layerIndex a
    = Normal (validLayerIndex, Some playState) ->
    revertReady a (Z.to_nat validLayerIndex) playState = true ->
    exists a' d',
      play stateName layerIndex normalizedTimeOffset a = (a', Normal tt)
      /\ layerDataAt (Z.to_nat validLayerIndex) a' = Some d'
      /\ AnimatorLayerData.layerState d' = LayerState.Playing
      /\ AnimatorStatePlayData.state (AnimatorLayerData.src d') = Some playState
      /\ AnimatorStatePlayData.playState (AnimatorLayerData.src d')
         = Some PlayState.Playing
      /\ AnimatorStatePlayData.frameTime (AnimatorLayerData.src d')
         == AnimationClip.length (AnimatorState.clip playState)
            * normalizedTimeOffset
      /\ (normalizedTimeOffset == 0 ->
          AnimatorStatePlayData.frameTime (AnimatorLayerData.src d') == 0).
Proof.
  intros a stateName layerIndex offset iZ playState Hinfo Hready.
  set (i := Z.to_nat iZ) in *.
  unfold play. unfold bind at 1. rewrite Hinfo. cbn [snd fst]. fold i.
  (* the record of the layer, created when the layer has none *)
  assert (Hget : exists a1 d0,
    _getAnimatorLayerData i a = (a1, Normal d0)
    /\ layerDataAt i a1 = Some d0
    /\ revertReady a1 i playState = true).
  { unfold _getAnimatorLayerData. destruct (layerDataAt i a) as [d0|] eqn:Hd0.
    - exists a, d0. repeat split; assumption.
    - eexists. exists AnimatorLayerData.new. split; [reflexivity|].
      assert (H : layerDataAt i
                    (Animator.set_animatorLayersData
                       (<[i:=AnimatorLayerData.new]>
                          (Animator._animatorLayersData a)) a)
                  = Some AnimatorLayerData.new)
        by apply lookup_insert_eq.
      split; [exact H|]. unfold revertReady. rewrite H. reflexivity. }
  destruct Hget as (a1 & d0 & Hget & Hd0 & Hready1).
  erewrite bind_normal by exact Hget.
  (* the revert of the previous pose *)
  assert (Hrevert : exists a2,
    match AnimatorStatePlayData.state (AnimatorLayerData.src d0) with
    | Some state =>
        if negb (sameState state playState)
        then _revertDefaultValue (AnimatorLayerData.src d0)
        else ret tt
    | None => ret tt
    end a1 = (a2, Normal tt)
    /\ layerDataAt i a2 = Some d0).
  { unfold revertReady in Hready1. rewrite Hd0 in Hready1.
    destruct (AnimatorStatePlayData.state (AnimatorLayerData.src d0))
      as [s0|] eqn:Hs0; [|exists a1; split; [reflexivity | exact Hd0]].
    destruct (sameState s0 playState);
      [exists a1; split; [reflexivity | exact Hd0]|].
    simpl in Hready1.
    destruct (AnimatorStatePlayData.stateData (AnimatorLayerData.src d0))
      as [sd0|] eqn:Hsd0; [|discriminate].
    apply Nat.leb_le in Hready1.
    destruct (revertDefaultValue_returns _ a1 s0 sd0 Hs0 Hsd0 Hready1)
      as (a2 & Hrun & Hsame).
    exists a2. split; [exact Hrun|].
    rewrite (layerDataAt_same_layers i a1 a2 Hsame). exact Hd0. }
  destruct Hrevert as (a2 & Hrevert & Hd2).
  erewrite bind_normal by exact Hrevert.
  destruct (getAnimatorStateData_at stateName playState i a2 d0 Hd2)
    as (a3 & sd & m & Hdata & Hd3).
  erewrite bind_normal by exact Hdata.
  erewrite bind_normal by (apply writeLayer_at; exact Hd3).
  erewrite bind_normal by (apply writePlayData_at; apply layerDataAt_withLayer).
  rewrite withLayer_withLayer.
  match goal with
  | |- context [_saveDefaultValues sd ?s] =>
      destruct (saveDefaultValues_returns sd s) as (a' & Hsave & Hsame)
  end.
  exists a'. eexists. split; [exact Hsave|].
  split.
  { rewrite (layerDataAt_same_layers i _ a' Hsame).
    apply layerDataAt_withLayer. }
  rewrite layerState_assign.
  replace (AnimatorLayerData.srcPlayData d0)
    with (AnimatorLayerData.srcPlayData
            (AnimatorLayerData.set_layerState LayerState.Playing
               (AnimatorLayerData.set_animatorStateDataMap m d0)))
    by reflexivity.
  rewrite src_assign_src.
  repeat split; try reflexivity.
  intros Hzero. simpl. rewrite Hzero. ring.
Qed.

End Play.

(** The premises of C6 hold in the scenario for [play("Walk", 0, 1/2)]
    while [Idle] plays: the pose of [Idle] is reverted and the source
    record starts [Walk] at a quarter of a second. *)
Lemma play_starts_source_record_witness :
  exists a' d',
    @play Scenario.collaborators "Walk" 0 (1#2) Scenario.playingIdle
    = (a', Normal tt)
    /\ layerDataAt 0 a' = Some d'
    /\ AnimatorLayerData.layerState d' = LayerState.Playing
    /\ AnimatorStatePlayData.state (AnimatorLayerData.src d')
       = Some Scenario.Walk
    /\ AnimatorStatePlayData.playState (AnimatorLayerData.src d')
       = Some PlayState.Playing
    /\ AnimatorStatePlayData.frameTime (AnimatorLayerData.src d') == 1 # 4.
Proof.
  destruct (@play_starts_source_record Scenario.collaborators
              Scenario.playingIdle "Walk" 0 (1#2) 0 Scenario.Walk
              eq_refl eq_refl)
    as (a' & d' & Hrun & Hd' & Hlayer & Hstate & Hplaying & Htime & _).
  exists a', d'. repeat split; assumption.
Defined.

(** ** [crossFade] *)

(** A sequence whose continuation always raises, raises. *)
Lemma bind_raises {St A B} (m : Stateful St A) (k : A -> Stateful St B) :
  (forall x s, exists s', k x s = (s', Throw TypeError)) ->
  forall s, exists s', bind m k s = (s', Throw TypeError).
Proof.
  intros Hk s. unfold bind. destruct (m s) as [s1 [x|[]]].
  - apply Hk.
  - eexists. reflexivity.
Qed.

Section CrossFade.
Context {collaborators : Collaborators}.

(** The end of [crossFade] on a transition that exists: it returns, the
    offset of the transition is [clip.length * normalizedTimeOffset], and
    its duration is [clip.length * normalizedTransitionDuration] clamped
    to [clipEndTime - offset]. *)
Lemma configureTransition_clamps r crossState duration offset a tr :
  readTransition r a = Some tr ->
  exists a' tr',
    configureTransition (Some r) crossState duration offset a = (a', Normal tt)
    /\ readTransition r a' = Some tr'
    /\ AnimatorStateTransition.offset tr'
       = AnimationClip.length (AnimatorState.clip crossState) * offset
    /\ AnimatorStateTransition.duration tr'
       <= AnimatorState.clipEndTime crossState
          - AnimatorStateTransition.offset tr'
    /\ AnimatorStateTransition.duration tr'
       <= AnimationClip.length (AnimatorState.clip crossState) * duration.
Proof.
  intros Htr. unfold configureTransition.
  unfold bind at 1. cbn [defined ret].
  erewrite bind_normal by apply writeTransition_returns.
  set (a1 := fst (writeTransition r _ a)).
  pose proof (readTransition_write r
                (AnimatorStateTransition.set_duration
                   (AnimationClip.length (AnimatorState.clip crossState)
                    * duration)) a tr Htr) as Htr1.
  fold a1 in Htr1.
  erewrite bind_normal by apply writeTransition_returns.
  set (a2 := fst (writeTransition r _ a1)).
  pose proof (readTransition_write r
                (AnimatorStateTransition.set_offset
                   (AnimationClip.length (AnimatorState.clip crossState)
                    * offset)) a1 _ Htr1) as Htr2.
  fold a2 in Htr2.
  unfold bind at 1. cbn [get]. rewrite Htr2.
  unfold bind at 1. cbn [defined ret].
  cbn [AnimatorStateTransition.duration AnimatorStateTransition.offset
       AnimatorStateTransition.set_offset AnimatorStateTransition.set_duration].
  destruct (js_gt _ _) eqn:Hgt.
  - rewrite writeTransition_returns.
    eexists. eexists. split; [reflexivity|].
    split; [apply (readTransition_write r _ a2 _ Htr2)|].
    cbn [AnimatorStateTransition.duration AnimatorStateTransition.offset
         AnimatorStateTransition.set_offset AnimatorStateTransition.set_duration].
    apply js_gt_spec in Hgt.
    split; [reflexivity|]. split; lra.
  - exists a2. eexists. split; [reflexivity|]. split; [exact Htr2|].
    cbn [AnimatorStateTransition.duration AnimatorStateTransition.offset
         AnimatorStateTransition.set_offset AnimatorStateTransition.set_duration].
    apply js_gt_false in Hgt.
    split; [reflexivity|]. split; lra.
Qed.

(** On a layer that is [FixedCrossFading] the [switch] of [crossFade]
    assigns no transition, and the write to its duration raises. *)
Lemma crossFadeCase_fixed_raises i r state crossState duration offset a :
  exists a',
    bind (crossFadeCase LayerState.FixedCrossFading i r state crossState)
      (fun transition =>
         configureTransition transition crossState duration offset) a
    = (a', Throw TypeError).
Proof.
  unfold crossFadeCase, bind.
  destruct (_prepareFiexdPoseCrossFading i a) as [a1 [[]|[]]];
    eexists; reflexivity.
Qed.

(** [crossFade] to a state that the name resolves to, on a layer that is
    [FixedCrossFading]: the call raises [TypeError]. *)
Lemma crossFade_fixed_raises a stateName duration layerIndex offset
    validLayerIndex crossState d :
  _getAnimatorStateInfo stateName layerIndex a
  = Normal (validLayerIndex, Some crossState) ->
  layerDataAt (Z.to_nat validLayerIndex) a = Some d ->
  AnimatorLayerData.layerState d = LayerState.FixedCrossFading ->
  exists a',
    crossFade stateName duration layerIndex offset a = (a', Throw TypeError).
Proof.
  intros Hinfo Hd Hfixed. unfold crossFade.
  unfold bind at 1. rewrite Hinfo. cbn [snd fst].
  erewrite bind_normal by (apply getAnimatorLayerData_at; exact Hd).
  rewrite Hfixed.
  apply bind_raises. intros sd a1.
  apply bind_raises. intros [] a2.
  apply bind_raises. intros [] a3.
  apply crossFadeCase_fixed_raises.
Qed.

End CrossFade.

(** C5. The scenario after [play("Idle")], [crossFade("Walk")] and
    [crossFade("Idle")] has its layer [FixedCrossFading]; a further
    [crossFade("Walk", 0.5)], whose destination resolves, raises
    [TypeError] instead of completing, and the pose transition keeps the
    duration and the offset of the cross-fade to [Idle]. *)
Theorem cross_fade_from_fixed_pose_throws :
  let a := Scenario.fixedCrossFadingToIdle in
  let call := @crossFade Scenario.collaborators "Walk" (1#2) 0 0 in
  AnimatorLayerData.layerState (Scenario.layer0 a)
  = LayerState.FixedCrossFading
  /\ _getAnimatorStateInfo "Walk" 0 a = Normal (0%Z, Some Scenario.Walk)
  /\ snd (call a) = Throw TypeError
  /\ AnimatorLayerData.layerState (Scenario.layer0 (fst (call a)))
     = LayerState.FixedCrossFading
  /\ Animator._transitionForPose (fst (call a)) = Animator._transitionForPose a.
Proof.
  intros a call.
  split; [vm_compute; reflexivity|]. split; [vm_compute; reflexivity|].
  split.
  - destruct (@crossFade_fixed_raises Scenario.collaborators a "Walk" (1#2)
                0 0 0 Scenario.Walk (Scenario.layer0 a))
      as [a' Hraise]; [vm_compute; reflexivity ..|].
    unfold call. rewrite Hraise. reflexivity.
  - split; vm_compute; reflexivity.
Qed.

(** C9. In the same scenario the pose transition lasts one second.  The
    call [crossFade("Walk", 0.5)] resolves [Walk], whose clip ends at half
    a second, makes it the destination, and raises before it sets the
    duration: the transition that [update] will use still lasts one
    second, more than [clipEndTime - offset = 0.5].  From a layer that is
    [Playing], [crossFade("Walk", 3)] returns with the duration clamped to
    half a second. *)
Theorem cross_fade_from_fixed_pose_keeps_stale_duration :
  let a := Scenario.fixedCrossFadingToIdle in
  let call := @crossFade Scenario.collaborators "Walk" (1#2) 0 0 in
  let tr := Animator._transitionForPose (fst (call a)) in
  let clamped :=
    fst (@crossFade Scenario.collaborators "Walk" 3 0 0 Scenario.playingIdle) in
  snd (call a) = Throw TypeError
  /\ AnimatorStatePlayData.state
       (AnimatorLayerData.dest (Scenario.layer0 (fst (call a))))
     = Some Scenario.Walk
  /\ AnimatorStateTransition.duration tr == 1
  /\ AnimatorStateTransition.offset tr == 0
  /\ ~ (AnimatorStateTransition.duration tr
        <= AnimatorState.clipEndTime Scenario.Walk
           - AnimatorStateTransition.offset tr)
  /\ snd (@crossFade Scenario.collaborators "Walk" 3 0 0 Scenario.playingIdle)
     = Normal tt
  /\ AnimatorStateTransition.duration
       (Scenario.firstTransition clamped Scenario.Idle)
     == AnimatorState.clipEndTime Scenario.Walk.
Proof.
  repeat split; try (vm_compute; reflexivity).
  vm_compute. intros H. apply H. reflexivity.
Qed.


(** * Further properties of the animator *)

(** ** Resolution of a state name, case by case *)

Section ResolutionCases.
Context {collaborators : Collaborators}.

(** X1. The search of a state on all layers ([layerIndex = -1]) reads the
    first layer only: without a controller or without layers it finds
    nothing, a state of the first layer is found with the index 0, and a
    name that the first layer does not know raises [TypeError], whatever
    the layers after the first hold. *)
Theorem default_search_reads_first_layer_only :
  forall (a : Animator.t) (stateName : string),
    _getAnimatorStateInfo stateName (-1) a
    = match Animator.animatorController a with
      | None => Normal ((-1)%Z, None)
      | Some c =>
          match AnimatorController.layers c with
          | [] => Normal ((-1)%Z, None)
          | layer :: _ =>
              match findStateByName
                      (AnimatorControllerLayer.stateMachine layer) stateName with
              | Some state => Normal (0%Z, Some state)
              | None => Throw TypeError
              end
          end
      end.
Proof.
  intros a stateName. unfold _getAnimatorStateInfo.
  destruct (Animator.animatorController a) as [c|]; [|reflexivity].
  destruct (AnimatorController.layers c) as [|layer rest]; [reflexivity|].
  simpl. unfold elementAt. simpl.
  destruct (findStateByName _ _); reflexivity.
Qed.

(** An index is out of the bounds exactly when it is negative or at least
    the number of layers. *)
Lemma elementAt_None {A} (l : list A) (index : Z) :
  elementAt l index = None
  <-> (index < 0 \/ Z.of_nat (List.length l) <= index)%Z.
Proof.
  unfold elementAt. destruct (index <? 0)%Z eqn:Hneg.
  - apply Z.ltb_lt in Hneg. split; [left; exact Hneg | reflexivity].
  - apply Z.ltb_ge in Hneg. rewrite lookup_ge_None. split.
    + intros H. right. lia.
    + intros [H|H]; lia.
Qed.

(** X2. With an explicit layer index, [play] and [crossFade] raise
    [TypeError] when the index is out of the bounds of the layers, and
    return without any effect when the layer at the index does not know the
    name; the store is unchanged in both cases. *)
Theorem explicit_layer_index_misses :
  forall (a : Animator.t) (c : AnimatorController.t) (stateName : string)
         (layerIndex : Z) (duration offset : Q),
    Animator.animatorController a = Some c ->
    layerIndex <> (-1)%Z ->
    ((layerIndex < 0
      \/ Z.of_nat (List.length (AnimatorController.layers c)) <= layerIndex)%Z ->
     play stateName layerIndex offset a = (a, Throw TypeError)
     /\ crossFade stateName duration layerIndex offset a = (a, Throw TypeError))
    /\ (forall layer,
          elementAt (AnimatorController.layers c) layerIndex = Some layer ->
          findStateByName (AnimatorControllerLayer.stateMachine layer) stateName
          = None ->
          play stateName layerIndex offset a = (a, Normal tt)
          /\ crossFade stateName duration layerIndex offset a = (a, Normal tt)).
Proof.
  intros a c stateName layerIndex duration offset Hc Hne.
  apply Z.eqb_neq in Hne. split.
  - intros Hout. apply elementAt_None in Hout.
    unfold play, crossFade, bind, _getAnimatorStateInfo.
    rewrite Hc, Hne, Hout. split; reflexivity.
  - intros layer Hlayer Hmiss.
    unfold play, crossFade, bind, _getAnimatorStateInfo.
    rewrite Hc, Hne, Hlayer, Hmiss. split; reflexivity.
Qed.

(** X3. [_getAnimatorLayerData] looks the record of a layer up and creates
    it when it is missing: the call returns the record that the layer has
    afterwards, an existing record is returned with the store unchanged, a
    missing one is a new record in [Standby], the records of the other
    layers are untouched, and a second call returns the same record and
    changes nothing. *)
Theorem getAnimatorLayerData_creates_once :
  forall (layerIndex : nat) (a : Animator.t),
    exists d,
      snd (_getAnimatorLayerData layerIndex a) = Normal d
      /\ layerDataAt layerIndex (fst (_getAnimatorLayerData layerIndex a))
         = Some d
      /\ (forall d0, layerDataAt layerIndex a = Some d0 ->
            d = d0 /\ fst (_getAnimatorLayerData layerIndex a) = a)
      /\ (layerDataAt layerIndex a = None ->
            d = AnimatorLayerData.new
            /\ AnimatorLayerData.layerState d = LayerState.Standby)
      /\ (forall j, j <> layerIndex ->
            layerDataAt j (fst (_getAnimatorLayerData layerIndex a))
            = layerDataAt j a)
      /\ _getAnimatorLayerData layerIndex
           (fst (_getAnimatorLayerData layerIndex a))
         = (fst (_getAnimatorLayerData layerIndex a), Normal d).
Proof.
  intros i a. unfold _getAnimatorLayerData at 1 2 3 4 6 7.
  destruct (layerDataAt i a) as [d0|] eqn:Hd.
  - exists d0. cbn [fst snd].
    split; [reflexivity|]. split; [exact Hd|].
    split; [intros d1 H1; split; congruence|].
    split; [discriminate|].
    split; [reflexivity|].
    apply getAnimatorLayerData_at. exact Hd.
  - exists AnimatorLayerData.new. cbn [fst snd].
    split; [reflexivity|].
    split; [apply (layerDataAt_withLayer i AnimatorLayerData.new a)|].
    split; [discriminate|].
    split; [split; reflexivity|].
    split.
    + intros j Hj.
      apply (layerDataAt_withLayer_ne i j AnimatorLayerData.new a). congruence.
    + apply getAnimatorLayerData_at.
      apply (layerDataAt_withLayer i AnimatorLayerData.new a).
Qed.

End ResolutionCases.

(** The animator of the scenario has one layer, which knows no state
    [Run]: the explicit index 5 is out of its bounds and both calls raise;
    with the index 0 both calls return and change nothing. *)
Lemma explicit_layer_index_misses_witness :
  (@play Scenario.collaborators "Run" 5 0 Scenario.fresh
   = (Scenario.fresh, Throw TypeError)
   /\ @crossFade Scenario.collaborators "Run" (1#2) 5 0 Scenario.fresh
      = (Scenario.fresh, Throw TypeError))
  /\ (@play Scenario.collaborators "Run" 0 0 Scenario.fresh
      = (Scenario.fresh, Normal tt)
      /\ @crossFade Scenario.collaborators "Run" (1#2) 0 0 Scenario.fresh
         = (Scenario.fresh, Normal tt)).
Proof.
  split.
  - apply (@explicit_layer_index_misses Scenario.collaborators Scenario.fresh
             Scenario.controller "Run" 5%Z (1#2) 0).
    + reflexivity.
    + discriminate.
    + right. simpl. lia.
  - eapply (@explicit_layer_index_misses Scenario.collaborators Scenario.fresh
              Scenario.controller "Run" 0%Z (1#2) 0).
    + reflexivity.
    + discriminate.
    + reflexivity.
    + reflexivity.
Defined.


(** ** The owners of the curves and the cache of state data *)

Lemma propertyCode_inj p q : propertyCode p = propertyCode q -> p = q.
Proof. destruct p, q; simpl; congruence. Qed.

Section OwnerCache.
Context {collaborators : Collaborators}.

Lemma bindOwner_keeps c store r o :
  store !! r = Some o -> bindOwner c store !! r = Some o.
Proof.
  intros H. unfold bindOwner.
  destruct (store !! ownerRefOf c) eqn:Hc; [exact H|].
  rewrite lookup_insert_ne; [exact H|]. congruence.
Qed.

Lemma foldr_bindOwner_keeps curves store r o :
  store !! r = Some o -> foldr bindOwner store curves !! r = Some o.
Proof.
  intros H. induction curves as [|c curves IH]; [exact H|].
  simpl. apply bindOwner_keeps, IH.
Qed.

(** An owner that the binding of the curves created is bound to the entity
    and the property of its key. *)
Lemma foldr_bindOwner_new curves store r o :
  store !! r = None ->
  foldr bindOwner store curves !! r = Some o ->
  AnimationCureOwner.target o = fst r
  /\ propertyCode (AnimationCureOwner.property o) = snd r
  /\ AnimationCureOwner.defaultValue o
     = AnimationCureOwner.initialValue (AnimationCureOwner.property o)
  /\ AnimationCureOwner.crossCurveIndex o = None.
Proof.
  intros Hnone. induction curves as [|c curves IH]; simpl.
  - rewrite Hnone. discriminate.
  - unfold bindOwner at 1.
    destruct (foldr bindOwner store curves !! ownerRefOf c) eqn:Hc.
    + exact IH.
    + destruct (decide (ownerRefOf c = r)) as [<-|Hne].
      * rewrite lookup_insert_eq. intros [= <-]. repeat split.
      * rewrite lookup_insert_ne by exact Hne. exact IH.
Qed.

Lemma bindOwner_bound c store :
  is_Some (bindOwner c store !! ownerRefOf c).
Proof.
  unfold bindOwner. destruct (store !! ownerRefOf c) eqn:Hc.
  - rewrite Hc. eauto.
  - rewrite lookup_insert_eq. eauto.
Qed.

Lemma foldr_bindOwner_bound curves store c :
  c ∈ curves -> is_Some (foldr bindOwner store curves !! ownerRefOf c).
Proof.
  induction curves as [|c' curves IH]; intros Hin.
  - apply elem_of_nil in Hin. destruct Hin.
  - apply elem_of_cons in Hin. simpl. destruct Hin as [->|Hin].
    + apply bindOwner_bound.
    + destruct (IH Hin) as [o Ho]. exists o. apply bindOwner_keeps, Ho.
Qed.

(** X4. [_saveAnimatorStateData] binds every curve of the clip to an owner:
    the state data has one owner per curve, the owner of a curve is the
    entry of the cache for the entity at the path of the curve and for its
    property, so that curves of the same property of the same entity share
    one owner; an owner that was in the cache is reused as it is, a new one
    is bound to that entity and property, and nothing but the cache
    changes. *)
Theorem saveAnimatorStateData_binds_every_curve :
  forall (animatorState : AnimatorState.t) (a : Animator.t),
    let curves := AnimationClip._curves (AnimatorState.clip animatorState) in
    exists a' sd,
      _saveAnimatorStateData animatorState a = (a', Normal sd)
      /\ List.length (AnimatorStateData.owners sd) = List.length curves
      /\ (forall i c, curves !! i = Some c ->
            exists o,
              AnimatorStateData.owners sd !! i
              = Some (findByPath (AnimationClipCurveData.relativePath c),
                      propertyCode (AnimationClipCurveData.property c))
              /\ Animator._animationCureOwners a'
                 !! (findByPath (AnimationClipCurveData.relativePath c),
                     propertyCode (AnimationClipCurveData.property c))
                 = Some o
              /\ (Animator._animationCureOwners a
                  !! (findByPath (AnimationClipCurveData.relativePath c),
                      propertyCode (AnimationClipCurveData.property c))
                  = None ->
                  AnimationCureOwner.target o
                  = findByPath (AnimationClipCurveData.relativePath c)
                  /\ AnimationCureOwner.property o
                     = AnimationClipCurveData.property c))
      /\ (forall r o, Animator._animationCureOwners a !! r = Some o ->
            Animator._animationCureOwners a' !! r = Some o)
      /\ Animator.set_animationCureOwners (Animator._animationCureOwners a) a'
         = a.
Proof.
  intros animatorState a curves. unfold _saveAnimatorStateData. fold curves.
  eexists. eexists. split; [reflexivity|].
  cbn [AnimatorStateData.owners Animator._animationCureOwners
       Animator.set_animationCureOwners].
  split; [apply length_map|].
  split; [|split].
  - intros i c Hc.
    destruct (foldr_bindOwner_bound curves (Animator._animationCureOwners a) c)
      as [o Ho]; [apply list_elem_of_lookup; eauto|].
    exists o. split.
    + rewrite list_lookup_fmap, Hc. reflexivity.
    + split; [exact Ho|]. intros Hnone.
      destruct (foldr_bindOwner_new curves _ _ o Hnone Ho) as (Ht & Hp & _).
      split; [exact Ht|]. apply propertyCode_inj. exact Hp.
  - intros r o. apply foldr_bindOwner_keeps.
  - destruct a. reflexivity.
Qed.

(** X5. [_getAnimatorStateData] caches the state data of a layer by the
    name of the state: on a layer that has a record the call returns the
    state data that the cache holds for the name afterwards; an entry that
    was there is returned with the store unchanged, whatever state is
    passed; a missing entry is built with one owner per curve of the state;
    and a second call for the name, with any state, returns the same state
    data and changes nothing. *)
Theorem getAnimatorStateData_caches_by_name :
  forall (stateName : string) (animatorState : AnimatorState.t)
         (layerIndex : nat) (a : Animator.t) (d : AnimatorLayerData.t),
    layerDataAt layerIndex a = Some d ->
    exists a' sd d',
      _getAnimatorStateData stateName animatorState layerIndex a
      = (a', Normal sd)
      /\ layerDataAt layerIndex a' = Some d'
      /\ AnimatorLayerData.animatorStateDataMap d' !! stateName = Some sd
      /\ (forall sd0,
            AnimatorLayerData.animatorStateDataMap d !! stateName = Some sd0 ->
            sd = sd0 /\ a' = a)
      /\ (AnimatorLayerData.animatorStateDataMap d !! stateName = None ->
          AnimatorStateData.owners sd
          = map ownerRefOf
              (AnimationClip._curves (AnimatorState.clip animatorState)))
      /\ (forall otherState,
            _getAnimatorStateData stateName otherState layerIndex a'
            = (a', Normal sd)).
Proof.
  intros stateName animatorState i a d Hd.
  assert (Hhit : forall a0 d0 sd0 s0,
            layerDataAt i a0 = Some d0 ->
            AnimatorLayerData.animatorStateDataMap d0 !! stateName = Some sd0 ->
            _getAnimatorStateData stateName s0 i a0 = (a0, Normal sd0)).
  { intros a0 d0 sd0 s0 H0 Hsd0. unfold _getAnimatorStateData.
    unfold bind at 1. rewrite H0. cbn [defined ret]. rewrite Hsd0.
    reflexivity. }
  destruct (AnimatorLayerData.animatorStateDataMap d !! stateName) as [sd0|]
    eqn:Hsd.
  - exists a, sd0, d. split; [apply (Hhit a d sd0 _ Hd Hsd)|].
    split; [exact Hd|]. split; [exact Hsd|].
    split; [intros sd1 [= <-]; split; reflexivity|].
    split; [discriminate|].
    intros s'. apply (Hhit a d sd0 _ Hd Hsd).
  - unfold _getAnimatorStateData.
    unfold bind at 1. rewrite Hd. cbn [defined ret]. rewrite Hsd.
    unfold bind at 1. cbn [_saveAnimatorStateData].
    set (a1 := Animator.set_animationCureOwners _ a).
    set (sd := AnimatorStateData.mk _).
    assert (Hd1 : layerDataAt i a1 = Some d) by exact Hd.
    erewrite bind_normal by (apply writeLayer_at; exact Hd1).
    cbn [ret].
    set (d' := AnimatorLayerData.set_animatorStateDataMap _ d).
    exists (withLayer i d' a1), sd, d'.
    assert (Hd' : layerDataAt i (withLayer i d' a1) = Some d')
      by apply layerDataAt_withLayer.
    assert (Hsd' : AnimatorLayerData.animatorStateDataMap d' !! stateName
                   = Some sd).
    { subst d'. cbn [AnimatorLayerData.animatorStateDataMap
                     AnimatorLayerData.set_animatorStateDataMap].
      apply lookup_insert_eq. }
    split; [reflexivity|]. split; [exact Hd'|]. split; [exact Hsd'|].
    split; [discriminate|]. split; [reflexivity|].
    intros s'. apply (Hhit _ d' sd _ Hd' Hsd').
Qed.

End OwnerCache.

(** The layer of the scenario that plays [Idle] has no state data for
    [Walk] yet: the call builds it with the owner of the one curve of
    [Walk], and a second call finds it. *)
Lemma getAnimatorStateData_caches_by_name_witness :
  exists a' sd,
    @_getAnimatorStateData Scenario.collaborators "Walk" Scenario.Walk 0
      Scenario.playingIdle
    = (a', Normal sd)
    /\ List.length (AnimatorStateData.owners sd) = 1%nat
    /\ @_getAnimatorStateData Scenario.collaborators "Walk" Scenario.Idle 0 a'
       = (a', Normal sd).
Proof.
  destruct (@getAnimatorStateData_caches_by_name Scenario.collaborators
              "Walk" Scenario.Walk 0%nat Scenario.playingIdle
              (Scenario.layer0 Scenario.playingIdle))
    as (a' & sd & d' & Hrun & _ & _ & _ & Hmiss & Hagain).
  - vm_compute. reflexivity.
  - exists a', sd. split; [exact Hrun|]. split.
    + rewrite Hmiss by (vm_compute; reflexivity). reflexivity.
    + apply Hagain.
Defined.


(** ** What [update] leaves alone *)

Lemma keeps_owners_same {A} owners (m : Method A) :
  (forall a, Animator._animationCureOwners (fst (m a))
             = Animator._animationCureOwners a) ->
  keeps (fun a => Animator._animationCureOwners a = owners) m.
Proof. intros Hsame a Ha. rewrite Hsame. exact Ha. Qed.

Lemma keeps_owners_onPose {A} owners (m : PoseMethod A) :
  keeps (fun a => Animator._animationCureOwners a = owners) (onPose m).
Proof.
  apply keeps_owners_same. intros a. unfold onPose.
  destruct (m _) as [p r]. reflexivity.
Qed.

Lemma keeps_owners_writeTransition owners r f :
  keeps (fun a => Animator._animationCureOwners a = owners)
    (writeTransition r f).
Proof. apply keeps_owners_same. intros a. destruct r; reflexivity. Qed.

Lemma keeps_owners_writeLayer owners j f :
  keeps (fun a => Animator._animationCureOwners a = owners) (writeLayer j f).
Proof. apply keeps_owners_same. intros a. reflexivity. Qed.

Lemma keeps_owners_writePlayData owners j r f :
  keeps (fun a => Animator._animationCureOwners a = owners)
    (writePlayData j r f).
Proof. apply keeps_owners_writeLayer. Qed.

Lemma keeps_owners_getAnimatorLayerData owners j :
  keeps (fun a => Animator._animationCureOwners a = owners)
    (_getAnimatorLayerData j).
Proof.
  apply keeps_owners_same. intros a. unfold _getAnimatorLayerData.
  destruct (layerDataAt j a); reflexivity.
Qed.

Ltac keeps_owners :=
  repeat first
    [ apply keeps_ret
    | apply keeps_throw
    | apply keeps_defined
    | apply keeps_get
    | apply keeps_read_defined
    | apply keeps_owners_onPose
    | apply keeps_owners_writeTransition
    | apply keeps_owners_writePlayData
    | apply keeps_owners_writeLayer
    | apply keeps_owners_getAnimatorLayerData
    | apply keeps_bind; [ | intros ? ]
    | match goal with
      | |- keeps _ (if ?b then _ else _) => destruct b
      | |- keeps _ (match ?x with _ => _ end) => destruct x
      end ].

Section UpdateLeavesAlone.
Context {collaborators : Collaborators}.

Lemma keeps_owners_updateLayerAt owners deltaTime j :
  keeps (fun a => Animator._animationCureOwners a = owners)
    (updateLayerAt deltaTime j).
Proof.
  unfold updateLayerAt, advanceSource, srcOf, _updateLayer,
    _updatePlayingState, _updateCrossFade, _updateCrossFadeFromPose,
    promoteDest.
  keeps_owners.
Qed.

(** X6. [update] never writes the controller, the speed, the cross-curve
    records or the cache of curve owners (the default and fixed-pose values
    included): they are the same after the call, however it completes. *)
Theorem update_never_writes_configuration :
  forall (deltaTime : Q) (a : Animator.t),
    Animator.animatorController (fst (update deltaTime a))
    = Animator.animatorController a
    /\ Animator.speed (fst (update deltaTime a)) = Animator.speed a
    /\ Animator._crossCurveData (fst (update deltaTime a))
       = Animator._crossCurveData a
    /\ Animator._animationCureOwners (fst (update deltaTime a))
       = Animator._animationCureOwners a.
Proof.
  intros deltaTime a.
  assert (Hconfig : keeps (configuredAs (Animator.animatorController a)
                             (Animator.speed a) (Animator._crossCurveData a))
                      (update deltaTime)).
  { intros s Hs. unfold update.
    destruct (js_eq (Animator.speed s) 0); [exact Hs|].
    destruct (Animator.animatorController s); [|exact Hs].
    apply keeps_forUp; [|exact Hs].
    intros j. apply keeps_config_updateLayerAt. }
  assert (Howners : keeps (fun s => Animator._animationCureOwners s
                                    = Animator._animationCureOwners a)
                      (update deltaTime)).
  { intros s Hs. unfold update.
    destruct (js_eq (Animator.speed s) 0); [exact Hs|].
    destruct (Animator.animatorController s); [|exact Hs].
    apply keeps_forUp; [|exact Hs].
    intros j. apply keeps_owners_updateLayerAt. }
  destruct (Hconfig a) as (Hc & Hs & Hr); [repeat split|].
  split; [exact Hc|]. split; [exact Hs|]. split; [exact Hr|].
  apply (Howners a). reflexivity.
Qed.

(** X7. The only change of [layerState] that [update] makes is from
    [CrossFading] to [Playing]; the generation mark [crossCurveMark] and
    the cache of state data of a layer are never changed.  This holds for
    every layer that has a record, however [update] completes. *)
Theorem update_layer_state_changes :
  forall (deltaTime : Q) (a : Animator.t) (i : nat) (d : AnimatorLayerData.t),
    layerDataAt i a = Some d ->
    exists d',
      layerDataAt i (fst (update deltaTime a)) = Some d'
      /\ AnimatorLayerData.crossCurveMark d' = AnimatorLayerData.crossCurveMark d
      /\ AnimatorLayerData.animatorStateDataMap d'
         = AnimatorLayerData.animatorStateDataMap d
      /\ (AnimatorLayerData.layerState d' = AnimatorLayerData.layerState d
          \/ (AnimatorLayerData.layerState d = LayerState.CrossFading
              /\ AnimatorLayerData.layerState d' = LayerState.Playing)).
Proof.
  intros deltaTime a i d Hd.
  set (φ := fun d' : AnimatorLayerData.t =>
    AnimatorLayerData.crossCurveMark d' = AnimatorLayerData.crossCurveMark d
    /\ AnimatorLayerData.animatorStateDataMap d'
       = AnimatorLayerData.animatorStateDataMap d
    /\ (AnimatorLayerData.layerState d' = AnimatorLayerData.layerState d
        \/ (AnimatorLayerData.layerState d = LayerState.CrossFading
            /\ AnimatorLayerData.layerState d' = LayerState.Playing))).
  assert (Hstable : updateStable φ).
  { split.
    - intros d' (Hm & Hc & Hs). split.
      + intros r p. destruct r; repeat split; assumption.
      + intros r. repeat split; assumption.
    - destruct (AnimatorLayerData.layerState d) eqn:Hstate.
      + left. intros d' (_ & _ & [Hs | [Hs _]]); congruence.
      + left. intros d' (_ & _ & [Hs | [Hs _]]); congruence.
      + right. intros d' (Hm & Hc & _).
        split; [exact Hm|]. split; [exact Hc|]. right. split; reflexivity.
      + left. intros d' (_ & _ & [Hs | [Hs _]]); congruence. }
  destruct (keeps_update i φ deltaTime Hstable a) as (d' & Hd' & Hφ).
  - exists d. split; [exact Hd|]. repeat split. left. reflexivity.
  - exists d'. split; [exact Hd'|]. exact Hφ.
Qed.

(** X8. [update] skips a layer that is [Standby]: the record of the layer,
    with its two playback records and their frame times, is the same after
    the call, however it completes. *)
Theorem update_skips_standby_layer :
  forall (deltaTime : Q) (a : Animator.t) (i : nat) (d : AnimatorLayerData.t),
    layerDataAt i a = Some d ->
    AnimatorLayerData.layerState d = LayerState.Standby ->
    layerDataAt i (fst (update deltaTime a)) = Some d.
Proof.
  intros deltaTime a i d Hd Hstandby.
  assert (Hkeeps : forall dts j,
            keeps (fun s => layerDataAt i s = Some d) (updateLayerAt dts j)).
  { intros dts j s Hs. destruct (decide (j = i)) as [->|Hne].
    - unfold updateLayerAt.
      erewrite bind_normal by (apply getAnimatorLayerData_at; exact Hs).
      rewrite Hstandby. exact Hs.
    - apply updateLayerAt_frame; assumption. }
  unfold update.
  destruct (js_eq (Animator.speed a) 0); [exact Hd|].
  destruct (Animator.animatorController a); [|exact Hd].
  apply (keeps_forUp (fun s => layerDataAt i s = Some d)); [|exact Hd].
  intros j. apply Hkeeps.
Qed.

(** One iteration of the loop of [update] on an animator whose layers have
    no record: the layer gets a new record and nothing else changes. *)
Lemma updateLayerAt_without_record deltaTime j a :
  layerDataAt j a = None ->
  updateLayerAt deltaTime j a
  = (withLayer j AnimatorLayerData.new a, Normal tt).
Proof.
  intros Hnone. unfold updateLayerAt, bind, _getAnimatorLayerData.
  rewrite Hnone. reflexivity.
Qed.

Lemma forUp_without_records deltaTime n from a :
  (forall j, (from <= j)%nat -> layerDataAt j a = None) ->
  exists a',
    forUp n from (updateLayerAt deltaTime) a = (a', Normal tt)
    /\ Animator.set_animatorLayersData (Animator._animatorLayersData a) a' = a
    /\ (forall j, (from <= j < from + n)%nat ->
          layerDataAt j a' = Some AnimatorLayerData.new)
    /\ (forall j, ~ (from <= j < from + n)%nat ->
          layerDataAt j a' = layerDataAt j a).
Proof.
  revert from a. induction n as [|n IH]; intros from a Hnone.
  - exists a. split; [reflexivity|]. split; [destruct a; reflexivity|].
    split; [intros j Hj; lia | reflexivity].
  - rewrite forUp_S.
    erewrite bind_normal
      by (apply updateLayerAt_without_record; apply Hnone; lia).
    destruct (IH (S from) (withLayer from AnimatorLayerData.new a))
      as (a' & Hrun & Hsame & Hnew & Hold).
    { intros j Hj. rewrite layerDataAt_withLayer_ne by lia. apply Hnone. lia. }
    exists a'. split; [exact Hrun|]. split; [|split].
    + destruct a, a'. unfold withLayer in Hsame. cbn in Hsame |- *.
      injection Hsame as -> -> -> -> -> -> -> ->. reflexivity.
    + intros j Hj. destruct (decide (j = from)) as [->|Hne].
      * rewrite Hold by lia. apply layerDataAt_withLayer.
      * apply Hnew. lia.
    + intros j Hj. rewrite Hold by lia.
      apply layerDataAt_withLayer_ne. lia.
Qed.

(** X9. [update] before any [play] or [crossFade], when no layer has a
    record yet: the call returns, every layer of the controller gets a new
    record in [Standby], and nothing else changes, no transform of the
    scene in particular. *)
Theorem update_before_any_play :
  forall (deltaTime : Q) (a : Animator.t) (c : AnimatorController.t),
    Animator._animatorLayersData a = ∅ ->
    js_eq (Animator.speed a) 0 = false ->
    Animator.animatorController a = Some c ->
    exists a',
      update deltaTime a = (a', Normal tt)
      /\ Animator.set_animatorLayersData ∅ a' = a
      /\ Animator.scene a' = Animator.scene a
      /\ (forall j, (j < List.length (AnimatorController.layers c))%nat ->
            layerDataAt j a' = Some AnimatorLayerData.new)
      /\ (forall j, (List.length (AnimatorController.layers c) <= j)%nat ->
            layerDataAt j a' = None).
Proof.
  intros deltaTime a c Hempty Hspeed Hc. unfold update. rewrite Hspeed, Hc.
  destruct (forUp_without_records (deltaTime * Animator.speed a)
              (List.length (AnimatorController.layers c)) 0 a)
    as (a' & Hrun & Hsame & Hnew & Hold).
  { intros j _. unfold layerDataAt. rewrite Hempty. apply lookup_empty. }
  exists a'. split; [exact Hrun|]. rewrite Hempty in Hsame.
  split; [exact Hsame|].
  split; [rewrite <- Hsame; reflexivity|].
  split.
  - intros j Hj. apply Hnew. lia.
  - intros j Hj. rewrite Hold by lia.
    unfold layerDataAt. rewrite Hempty. apply lookup_empty.
Qed.

End UpdateLeavesAlone.

(** The layer of the scenario that cross-fades from [Idle] to [Walk] over a
    quarter of a second: after an update of 250 ms its state is [Playing],
    the one change that [update] makes. *)
Lemma update_layer_state_changes_witness :
  exists d',
    layerDataAt 0
      (fst (@update Scenario.collaborators 250 Scenario.crossFadingToWalk))
    = Some d'
    /\ AnimatorLayerData.layerState
         (Scenario.layer0 Scenario.crossFadingToWalk)
       = LayerState.CrossFading
    /\ AnimatorLayerData.layerState d' = LayerState.Playing.
Proof.
  destruct (@update_layer_state_changes Scenario.collaborators 250
              Scenario.crossFadingToWalk 0%nat
              (Scenario.layer0 Scenario.crossFadingToWalk))
    as (d' & Hd' & _ & _ & Hstate).
  - vm_compute. reflexivity.
  - exists d'. split; [exact Hd'|]. split; [reflexivity|].
    assert (Hafter : layerDataAt 0
              (fst (@update Scenario.collaborators 250
                      Scenario.crossFadingToWalk))
            = Some (Scenario.layer0
                      (fst (@update Scenario.collaborators 250
                              Scenario.crossFadingToWalk))))
      by (vm_compute; reflexivity).
    rewrite Hd' in Hafter. injection Hafter as ->. vm_compute. reflexivity.
Defined.

(** The animator of the scenario after a first [update]: its layer has a
    record in [Standby], and a second update leaves the record as it is. *)
Lemma update_skips_standby_layer_witness :
  let a := fst (@update Scenario.collaborators 16 Scenario.fresh) in
  layerDataAt 0 a = Some AnimatorLayerData.new
  /\ layerDataAt 0 (fst (@update Scenario.collaborators 16 a))
     = Some AnimatorLayerData.new.
Proof.
  intros a. split; [vm_compute; reflexivity|].
  apply (@update_skips_standby_layer Scenario.collaborators 16 a 0%nat
           AnimatorLayerData.new).
  - vm_compute. reflexivity.
  - reflexivity.
Defined.

(** The animator of the scenario before any call: [update] returns and
    gives its one layer a record. *)
Lemma update_before_any_play_witness :
  exists a',
    @update Scenario.collaborators 16 Scenario.fresh = (a', Normal tt)
    /\ Animator.scene a' = Animator.scene Scenario.fresh
    /\ layerDataAt 0 a' = Some AnimatorLayerData.new.
Proof.
  destruct (@update_before_any_play Scenario.collaborators 16 Scenario.fresh
              Scenario.controller)
    as (a' & Hrun & _ & Hscene & Hnew & _); try reflexivity.
  exists a'. split; [exact Hrun|]. split; [exact Hscene|].
  apply Hnew. simpl. lia.
Defined.


(** ** The values that a playing layer writes *)

(** What a loop establishes for the iteration [i] when the iterations
    after it (the indices below [i]) keep it. *)
Lemma forDown_preserves {St} n (body : nat -> Stateful St unit)
    (R : St -> Prop) :
  (forall j s s', (j < n)%nat -> R s -> body j s = (s', Normal tt) -> R s') ->
  forall s s', R s -> forDown n body s = (s', Normal tt) -> R s'.
Proof.
  induction n as [|n IH]; intros Hb s s' Hs Hrun.
  - injection Hrun as <-. exact Hs.
  - rewrite forDown_S in Hrun. unfold bind in Hrun.
    destruct (body n s) as [s1 [[]|e]] eqn:Hn; [|discriminate].
    apply (IH (fun j s0 s0' Hj => Hb j s0 s0' (Nat.lt_lt_succ_r _ _ Hj)) s1 s');
      [|exact Hrun].
    apply (Hb n s s1); [lia | exact Hs | exact Hn].
Qed.

Lemma forDown_establishes {St} n (body : nat -> Stateful St unit)
    (R P : St -> Prop) i :
  (i < n)%nat ->
  (forall j s s', (j < n)%nat -> R s -> body j s = (s', Normal tt) -> R s') ->
  (forall s s', R s -> body i s = (s', Normal tt) -> P s') ->
  (forall j s s', (j < i)%nat -> R s -> P s -> body j s = (s', Normal tt) ->
     P s') ->
  forall s s', R s -> forDown n body s = (s', Normal tt) -> R s' /\ P s'.
Proof.
  induction n as [|n IH]; intros Hi Hinv Hat Hbelow s s' Hs Hrun; [lia|].
  rewrite forDown_S in Hrun. unfold bind in Hrun.
  destruct (body n s) as [s1 [[]|e]] eqn:Hn; [|discriminate].
  assert (Hs1 : R s1) by (apply (Hinv n s s1); [lia | exact Hs | exact Hn]).
  destruct (decide (i = n)) as [->|Hne].
  - apply (forDown_preserves n body (fun q => R q /\ P q)) with (s := s1);
      [| |exact Hrun].
    + intros j q q' Hj [Hq HP] Hbody. split.
      * apply (Hinv j q q'); [lia | exact Hq | exact Hbody].
      * apply (Hbelow j q q' Hj Hq HP Hbody).
    + split; [exact Hs1|]. apply (Hat s s1 Hs Hn).
  - apply (IH ltac:(lia)
             (fun j q q' Hj => Hinv j q q' (Nat.lt_lt_succ_r _ _ Hj))
             Hat Hbelow s1 s' Hs1 Hrun).
Qed.

Lemma transformProperty_write_same e f sc p :
  transformProperty (writeTransform e f sc) e p
  = match p with
    | Position => VVector3 (TransformData.position (f (transformOf sc e)))
    | Rotation =>
        VQuaternion (TransformData.rotationQuaternion (f (transformOf sc e)))
    | Scale => VVector3 (TransformData.scale (f (transformOf sc e)))
    end.
Proof. unfold transformProperty. rewrite transformOf_write. reflexivity. Qed.

Lemma transformProperty_write_other e e' f sc p :
  e <> e' ->
  transformProperty (writeTransform e f sc) e' p = transformProperty sc e' p.
Proof.
  intros Hne. unfold transformProperty, transformOf, writeTransform.
  rewrite lookup_insert_ne by exact Hne. reflexivity.
Qed.

Section AppliedValues.
Context {collaborators : Collaborators}.

(** [_applyClipValue] at the weight 1 on a transform: the property holds
    the value. *)
Lemma applyClipValue_full e p srcValue v sc :
  transformProperty (_applyClipValue e Transform p srcValue (Some v) 1 sc) e p
  = asPropertyValue p v.
Proof.
  unfold _applyClipValue. cbn [isTransform].
  destruct p; change (js_eq 1 1) with true; cbn iota;
    rewrite transformProperty_write_same; reflexivity.
Qed.

(** [_applyClipValue] writes one property of one entity: every other
    property, and every property of another entity, is as before. *)
Lemma applyClipValue_other e type p srcValue dstValue weight sc e' p' :
  (e = e' -> p <> p') ->
  transformProperty (_applyClipValue e type p srcValue dstValue weight sc) e' p'
  = transformProperty sc e' p'.
Proof.
  intros Hne. unfold _applyClipValue.
  destruct (isTransform type); [|reflexivity].
  destruct dstValue as [v|]; [|reflexivity].
  destruct (decide (e = e')) as [<-|He].
  - specialize (Hne eq_refl).
    destruct p, p'; try congruence; destruct (js_eq weight 1);
      rewrite transformProperty_write_same; reflexivity.
  - destruct p; destruct (js_eq weight 1);
      apply transformProperty_write_other; exact He.
Qed.

(** The loop of [_updatePlayingState] on the first layer: the curve [k] of
    a transform leaves its value in the property that it animates, unless
    a curve of a lower index, which the loop visits later, animates the
    same property of the same entity. *)
Lemma playingState_loop_value store curves owners frameTime weight
    blendingMode k ck rk p p' :
  curves !! k = Some ck ->
  owners !! k = Some rk ->
  AnimationClipCurveData.type ck = Transform ->
  (forall j cj rj, (j < k)%nat ->
     curves !! j = Some cj -> owners !! j = Some rj ->
     AnimationCureOwner.target (ownerAt store rj)
     = AnimationCureOwner.target (ownerAt store rk) ->
     AnimationClipCurveData.property cj <> AnimationClipCurveData.property ck) ->
  forDown (List.length curves)
    (playingStateCurve store curves owners frameTime true weight blendingMode)
    p
  = (p', Normal tt) ->
  transformProperty (Pose.scene p')
    (AnimationCureOwner.target (ownerAt store rk))
    (AnimationClipCurveData.property ck)
  = asPropertyValue (AnimationClipCurveData.property ck)
      (AnimationCurve.evaluate (AnimationClipCurveData.curve ck) frameTime).
Proof.
  intros Hck Hrk Htype Hfree Hrun.
  apply (forDown_establishes (List.length curves)
           (playingStateCurve store curves owners frameTime true weight
              blendingMode)
           (fun _ => True)
           (fun q =>
              transformProperty (Pose.scene q)
                (AnimationCureOwner.target (ownerAt store rk))
                (AnimationClipCurveData.property ck)
              = asPropertyValue (AnimationClipCurveData.property ck)
                  (AnimationCurve.evaluate (AnimationClipCurveData.curve ck)
                     frameTime))
           k) with (s := p); [| | | |exact I|exact Hrun].
  - apply lookup_lt_is_Some. eauto.
  - intros; exact I.
  - intros q q' _ Hbody. unfold playingStateCurve in Hbody.
    rewrite Hck, Hrk in Hbody. unfold bind in Hbody. cbn [defined ret] in Hbody.
    rewrite Htype in Hbody. injection Hbody as <-.
    cbn [Pose.scene]. apply applyClipValue_full.
  - intros j q q' Hj _ Hq Hbody. unfold playingStateCurve in Hbody.
    destruct (curves !! j) as [cj|] eqn:Hcj; [|discriminate].
    destruct (owners !! j) as [rj|] eqn:Hrj; [|discriminate].
    unfold bind in Hbody. cbn [defined ret] in Hbody.
    injection Hbody as <-. cbn [Pose.scene].
    rewrite applyClipValue_other; [exact Hq|].
    intros Htarget. apply (Hfree j cj rj Hj Hcj Hrj Htarget).
Qed.

(** X10. On an animator with one layer, which is [Playing] a state whose
    curves all have an owner: [update] returns, and afterwards the property
    that a curve of a transform animates holds the value of the curve at
    the real frame time of the advanced source record, unless a curve of a
    lower index animates the same property of the same entity (the loop
    visits the curves from the last to the first, so the lower index
    wins). *)
Theorem update_writes_curve_values :
  forall (a : Animator.t) (layer : AnimatorControllerLayer.t)
         (d : AnimatorLayerData.t) (s : AnimatorState.t)
         (sd : AnimatorStateData.t) (deltaTime : Q) (k : nat)
         (ck : AnimationClipCurveData.t) (rk : OwnerRef),
    js_eq (Animator.speed a) 0 = false ->
    Animator.animatorController a = Some (AnimatorController.mk [layer]) ->
    layerDataAt 0 a = Some d ->
    AnimatorLayerData.layerState d = LayerState.Playing ->
    AnimatorStatePlayData.state (AnimatorLayerData.src d) = Some s ->
    AnimatorStatePlayData.stateData (AnimatorLayerData.src d) = Some sd ->
    (List.length (AnimationClip._curves (AnimatorState.clip s))
     <= List.length (AnimatorStateData.owners sd))%nat ->
    AnimationClip._curves (AnimatorState.clip s) !! k = Some ck ->
    AnimatorStateData.owners sd !! k = Some rk ->
    AnimationClipCurveData.type ck = Transform ->
    (forall j cj rj, (j < k)%nat ->
       AnimationClip._curves (AnimatorState.clip s) !! j = Some cj ->
       AnimatorStateData.owners sd !! j = Some rj ->
       AnimationCureOwner.target (ownerAt (Animator._animationCureOwners a) rj)
       = AnimationCureOwner.target (ownerAt (Animator._animationCureOwners a) rk) ->
       AnimationClipCurveData.property cj
       <> AnimationClipCurveData.property ck) ->
    exists a',
      update deltaTime a = (a', Normal tt)
      /\ transformProperty (Animator.scene a')
           (AnimationCureOwner.target
              (ownerAt (Animator._animationCureOwners a) rk))
           (AnimationClipCurveData.property ck)
         = asPropertyValue (AnimationClipCurveData.property ck)
             (AnimationCurve.evaluate (AnimationClipCurveData.curve ck)
                (AnimatorState._getTheRealFrameTime s
                   (AnimatorStatePlayData.frameTime
                      (advanced (deltaTime * Animator.speed a)
                         (AnimatorLayerData.src d))))).
Proof.
  intros a layer d s sd deltaTime k ck rk Hspeed Hc Hd Hstate Hs Hsd Hlen
    Hck Hrk Htype Hfree.
  set (dts := deltaTime * Animator.speed a).
  assert (Hlayer : layersOf a !! 0%nat = Some layer).
  { unfold layersOf. rewrite Hc. reflexivity. }
  assert (Hrun : exists a',
    updateLayerAt dts 0 a = (a', Normal tt)
    /\ transformProperty (Animator.scene a')
         (AnimationCureOwner.target
            (ownerAt (Animator._animationCureOwners a) rk))
         (AnimationClipCurveData.property ck)
       = asPropertyValue (AnimationClipCurveData.property ck)
           (AnimationCurve.evaluate (AnimationClipCurveData.curve ck)
              (AnimatorState._getTheRealFrameTime s
                 (AnimatorStatePlayData.frameTime
                    (advanced dts (AnimatorLayerData.src d)))))).
  { unfold updateLayerAt.
    erewrite bind_normal by (apply getAnimatorLayerData_at; exact Hd).
    rewrite Hstate. cbn [LayerState_eqb].
    erewrite bind_normal
      by (apply advanceSource_at; [exact Hd | intros _; rewrite Hs; eauto]).
    set (d1 := AnimatorLayerData.assign _ _ d).
    assert (Hd1 : layerDataAt 0 (withLayer 0 d1 a) = Some d1)
      by apply layerDataAt_withLayer.
    cbn [Nat.eqb].
    rewrite (updateLayer_playing_first 0 dts _ d1 layer Hd1);
      [|subst d1; rewrite layerState_assign; exact Hstate | exact Hlayer].
    unfold _updatePlayingState.
    erewrite bind_normal by (apply writePlayData_at; exact Hd1).
    unfold bind at 1. rewrite layerDataAt_withLayer. cbn [defined ret].
    rewrite deref_assign.
    subst d1. rewrite srcPlayData_assign, deref_assign.
    cbn [AnimatorStatePlayData.state AnimatorStatePlayData.stateData
         AnimatorStatePlayData.frameTime AnimatorStatePlayData.set_playState].
    rewrite state_advanced, stateData_advanced, Hs, Hsd.
    unfold bind at 1. cbn [defined ret]. unfold bind at 1. cbn [defined ret].
    unfold bind at 1. cbn [get].
    match goal with
    | |- context [forDown _ (playingStateCurve ?store ?cs ?os ?ft true ?w ?bm)] =>
        match goal with
        | |- context [onPose _ ?st] =>
            destruct (playingState_loop_returns store cs os ft w bm Hlen
                        (Pose.mk (Animator.scene st) (Animator.diff st)))
              as [p' Hloop];
            pose proof (playingState_loop_value store cs os ft w bm k ck rk
                          _ p' Hck Hrk Htype Hfree Hloop) as Hvalue
        end
    end.
    unfold onPose. rewrite Hloop.
    eexists. split; [reflexivity|]. exact Hvalue. }
  destruct Hrun as (a' & Hrun & Hvalue).
  exists a'. split; [apply (update_single_layer _ _ layer); assumption|].
  exact Hvalue.
Qed.

End AppliedValues.

(** The scenario plays [Idle], whose one curve moves the entity [root]
    along x at the speed 1: after an update of 250 ms the position of the
    entity is (1/4, 0, 0). *)
Lemma update_writes_curve_values_witness :
  exists a',
    @update Scenario.collaborators 250 Scenario.playingIdle = (a', Normal tt)
    /\ transformProperty (Animator.scene a') 4 Position
       = VVector3 (mkVector3 (250 * 1 / 1000) 0 0).
Proof.
  destruct (@update_writes_curve_values Scenario.collaborators
              Scenario.playingIdle
              (AnimatorControllerLayer.mk "Base" 1
                 AnimatorLayerBlendingMode.Override
                 [Scenario.Idle; Scenario.Walk])
              (Scenario.layer0 Scenario.playingIdle) Scenario.Idle
              (Scenario.stateDataOf
                 (AnimatorLayerData.src (Scenario.layer0 Scenario.playingIdle)))
              250 0%nat (Scenario.positionCurve 1) (4%nat, 0%nat))
    as (a' & Hrun & Hvalue);
    [first [vm_compute; reflexivity | intros j cj rj Hj; lia] ..|].
  exists a'. split; [exact Hrun|].
  refine (eq_trans Hvalue _). vm_compute. reflexivity.
Defined.


(** ** The revert of a pose *)

Lemma keeps_scene_same {A} sc (m : Method A) :
  (forall a, Animator.scene (fst (m a)) = Animator.scene a) ->
  keeps (fun a => Animator.scene a = sc) m.
Proof. intros Hsame a Ha. rewrite Hsame. exact Ha. Qed.

Section Revert.
Context {collaborators : Collaborators}.

Lemma keeps_scene_saveDefaultValues sc stateData :
  keeps (fun a => Animator.scene a = sc) (_saveDefaultValues stateData).
Proof.
  unfold _saveDefaultValues. apply keeps_forDown. intros i.
  apply keeps_bind; [apply keeps_defined | intros r].
  apply keeps_bind; [apply keeps_get | intros a0].
  apply keeps_scene_same. reflexivity.
Qed.

Lemma keeps_scene_getAnimatorStateData sc stateName animatorState i :
  keeps (fun a => Animator.scene a = sc)
    (_getAnimatorStateData stateName animatorState i).
Proof.
  unfold _getAnimatorStateData.
  apply keeps_bind; [apply keeps_read_defined | intros d].
  destruct (_ !! stateName); [apply keeps_ret|].
  apply keeps_bind; [apply keeps_scene_same; reflexivity | intros sd].
  apply keeps_bind; [apply keeps_scene_same; reflexivity | intros _].
  apply keeps_ret.
Qed.

(** [_revertDefaultValue] on a record whose curves all have an owner: it
    returns, writes the scene only, and the property that the curve [k]
    animates holds the default value of the owner of the curve, unless a
    curve of a lower index animates the same property of the same
    entity. *)
Lemma revertDefaultValue_value p a s sd k ck rk :
  AnimatorStatePlayData.state p = Some s ->
  AnimatorStatePlayData.stateData p = Some sd ->
  (List.length (AnimationClip._curves (AnimatorState.clip s))
   <= List.length (AnimatorStateData.owners sd))%nat ->
  AnimationClip._curves (AnimatorState.clip s) !! k = Some ck ->
  AnimatorStateData.owners sd !! k = Some rk ->
  (forall j cj rj, (j < k)%nat ->
     AnimationClip._curves (AnimatorState.clip s) !! j = Some cj ->
     AnimatorStateData.owners sd !! j = Some rj ->
     AnimationCureOwner.target (ownerAt (Animator._animationCureOwners a) rj)
     = AnimationCureOwner.target (ownerAt (Animator._animationCureOwners a) rk) ->
     AnimationClipCurveData.property cj <> AnimationClipCurveData.property ck) ->
  exists a',
    _revertDefaultValue p a = (a', Normal tt)
    /\ Animator.set_scene (Animator.scene a) a' = a
    /\ transformProperty (Animator.scene a')
         (AnimationCureOwner.target
            (ownerAt (Animator._animationCureOwners a) rk))
         (AnimationClipCurveData.property ck)
       = asPropertyValue (AnimationClipCurveData.property ck)
           (AnimationCureOwner.defaultValue
              (ownerAt (Animator._animationCureOwners a) rk)).
Proof.
  intros Hs Hsd Hlen Hck Hrk Hfree.
  destruct (revertDefaultValue_returns p a s sd Hs Hsd Hlen) as (a' & Hrun & _).
  exists a'. split; [exact Hrun|].
  unfold _revertDefaultValue in Hrun. rewrite Hs, Hsd in Hrun.
  unfold bind at 1 in Hrun. cbn [defined ret] in Hrun.
  unfold bind at 1 in Hrun. cbn [defined ret] in Hrun.
  revert Hrun.
  match goal with
  | |- forDown ?n ?body a = _ -> _ =>
      intros Hrun;
      apply (forDown_establishes n body
               (fun q => Animator.set_scene (Animator.scene a) q = a)
               (fun q =>
                  transformProperty (Animator.scene q)
                    (AnimationCureOwner.target
                       (ownerAt (Animator._animationCureOwners a) rk))
                    (AnimationClipCurveData.property ck)
                  = asPropertyValue (AnimationClipCurveData.property ck)
                      (AnimationCureOwner.defaultValue
                         (ownerAt (Animator._animationCureOwners a) rk)))
               k) with (s := a); [| | | | |exact Hrun]
  end.
  - apply lookup_lt_is_Some. eauto.
  - intros j q q' Hj Hq Hbody.
    destruct (AnimatorStateData.owners sd !! j) as [rj|]; [|discriminate].
    destruct (AnimationClip._curves (AnimatorState.clip s) !! j) as [cj|];
      [|discriminate].
    unfold bind, modify in Hbody. cbn [defined ret] in Hbody.
    apply (f_equal fst) in Hbody. cbn [fst] in Hbody. subst q'. rewrite <- Hq at 2. destruct q. reflexivity.
  - intros q q' Hq Hbody. rewrite Hrk, Hck in Hbody.
    unfold bind, modify in Hbody. cbn [defined ret] in Hbody.
    apply (f_equal fst) in Hbody. cbn [fst] in Hbody. subst q'.
    assert (Hcache : Animator._animationCureOwners q
                     = Animator._animationCureOwners a)
      by (rewrite <- Hq; destruct q; reflexivity).
    rewrite Hcache. cbn [Animator.scene Animator.set_scene].
    destruct (AnimationClipCurveData.property ck);
      apply transformProperty_write_same.
  - intros j q q' Hj Hq HP Hbody.
    destruct (AnimatorStateData.owners sd !! j) as [rj|] eqn:Hrj;
      [|discriminate].
    destruct (AnimationClip._curves (AnimatorState.clip s) !! j) as [cj|]
      eqn:Hcj; [|discriminate].
    unfold bind, modify in Hbody. cbn [defined ret] in Hbody.
    apply (f_equal fst) in Hbody. cbn [fst] in Hbody. subst q'.
    assert (Hcache : Animator._animationCureOwners q
                     = Animator._animationCureOwners a)
      by (rewrite <- Hq; destruct q; reflexivity).
    rewrite Hcache. cbn [Animator.scene Animator.set_scene].
    rewrite <- HP.
    set (e := AnimationCureOwner.target
                (ownerAt (Animator._animationCureOwners a) rj)).
    set (e' := AnimationCureOwner.target
                 (ownerAt (Animator._animationCureOwners a) rk)).
    destruct (decide (e = e')) as [He|He].
    + pose proof (Hfree j cj rj Hj Hcj Hrj He) as Hp. rewrite <- He.
      destruct (AnimationClipCurveData.property cj),
               (AnimationClipCurveData.property ck); try congruence;
        rewrite transformProperty_write_same; reflexivity.
    + destruct (AnimationClipCurveData.property cj);
        apply transformProperty_write_other; exact He.
  - destruct a. reflexivity.
Qed.

(** X11. [play] of another state than the one that the layer holds reverts
    the pose of the previous state: when the curves of the previous state
    all have an owner the call returns, and afterwards the property that a
    curve of the previous state animates holds the default value of the
    owner of the curve, unless a curve of a lower index animates the same
    property of the same entity. *)
Theorem play_reverts_previous_state :
  forall (a : Animator.t) (stateName : string) (layerIndex : Z)
         (normalizedTimeOffset : Q) (validLayerIndex : Z)
         (playState previous : AnimatorState.t) (d : AnimatorLayerData.t)
         (sd : AnimatorStateData.t) (k : nat)
         (ck : AnimationClipCurveData.t) (rk : OwnerRef),
    _getAnimatorStateInfo stateName layerIndex a
    = Normal (validLayerIndex, Some playState) ->
    layerDataAt (Z.to_nat validLayerIndex) a = Some d ->
    AnimatorStatePlayData.state (AnimatorLayerData.src d) = Some previous ->
    sameState previous playState = false ->
    AnimatorStatePlayData.stateData (AnimatorLayerData.src d) = Some sd ->
    (List.length (AnimationClip._curves (AnimatorState.clip previous))
     <= List.length (AnimatorStateData.owners sd))%nat ->
    AnimationClip._curves (AnimatorState.clip previous) !! k = Some ck ->
    AnimatorStateData.owners sd !! k = Some rk ->
    (forall j cj rj, (j < k)%nat ->
       AnimationClip._curves (AnimatorState.clip previous) !! j = Some cj ->
       AnimatorStateData.owners sd !! j = Some rj ->
       AnimationCureOwner.target (ownerAt (Animator._animationCureOwners a) rj)
       = AnimationCureOwner.target (ownerAt (Animator._animationCureOwners a) rk) ->
       AnimationClipCurveData.property cj
       <> AnimationClipCurveData.property ck) ->
    exists a',
      play stateName layerIndex normalizedTimeOffset a = (a', Normal tt)
      /\ transformProperty (Animator.scene a')
           (AnimationCureOwner.target
              (ownerAt (Animator._animationCureOwners a) rk))
           (AnimationClipCurveData.property ck)
         = asPropertyValue (AnimationClipCurveData.property ck)
             (AnimationCureOwner.defaultValue
                (ownerAt (Animator._animationCureOwners a) rk)).
Proof.
  intros a stateName layerIndex offset validLayerIndex playState previous d sd
    k ck rk Hinfo Hd Hprevious Hother Hsd Hlen Hck Hrk Hfree.
  set (i := Z.to_nat validLayerIndex) in *.
  destruct (revertDefaultValue_value (AnimatorLayerData.src d) a previous sd
              k ck rk Hprevious Hsd Hlen Hck Hrk Hfree)
    as (a1 & Hrevert & Hsame1 & Hvalue).
  assert (Hd1 : layerDataAt i a1 = Some d).
  { rewrite <- Hd, <- Hsame1. destruct a1. reflexivity. }
  destruct (getAnimatorStateData_at stateName playState i a1 d Hd1)
    as (a2 & sd2 & m & Hrun2 & Hd2).
  pose proof (keeps_scene_getAnimatorStateData (Animator.scene a1) stateName
                playState i a1 eq_refl) as Hscene2.
  rewrite Hrun2 in Hscene2. cbn [fst] in Hscene2.
  set (d3 := AnimatorLayerData.set_layerState LayerState.Playing
               (AnimatorLayerData.set_animatorStateDataMap m d)).
  set (p4 := AnimatorStatePlayData.mk (Some playState)
               (AnimationClip.length (AnimatorState.clip playState) * offset)
               (Some PlayState.Playing) (Some sd2)).
  set (a4 := withLayer i
               (AnimatorLayerData.assign (AnimatorLayerData.srcPlayData d)
                  p4 d3)
               (withLayer i d3 a2)).
  destruct (saveDefaultValues_returns sd2 a4) as (a5 & Hrun5 & _).
  pose proof (keeps_scene_saveDefaultValues (Animator.scene a4) sd2 a4 eq_refl)
    as Hscene5.
  rewrite Hrun5 in Hscene5. cbn [fst] in Hscene5.
  exists a5. split.
  - unfold play. unfold bind at 1. rewrite Hinfo. cbn [snd fst]. fold i.
    erewrite bind_normal by (apply getAnimatorLayerData_at; exact Hd).
    rewrite Hprevious, Hother. cbn [negb].
    erewrite bind_normal by exact Hrevert.
    erewrite bind_normal by exact Hrun2.
    erewrite bind_normal by (apply writeLayer_at; exact Hd2).
    erewrite bind_normal
      by (apply writePlayData_at; apply layerDataAt_withLayer).
    exact Hrun5.
  - rewrite Hscene5. subst a4. cbn [withLayer Animator.scene
      Animator.set_animatorLayersData]. rewrite Hscene2. exact Hvalue.
Qed.

End Revert.

(** The scenario plays [Idle] for 250 ms, which moves the entity [root] to
    (1/4, 0, 0); [play("Walk")] puts it back at the position (0, 0, 0) that
    it had when [Idle] was played. *)
Lemma play_reverts_previous_state_witness :
  let a := fst (@update Scenario.collaborators 250 Scenario.playingIdle) in
  transformProperty (Animator.scene a) 4 Position
  = VVector3 (mkVector3 (250 * 1 / 1000) 0 0)
  /\ exists a',
       @play Scenario.collaborators "Walk" 0 0 a = (a', Normal tt)
       /\ transformProperty (Animator.scene a') 4 Position
          = VVector3 (mkVector3 0 0 0).
Proof.
  intros a. split; [vm_compute; reflexivity|].
  destruct (@play_reverts_previous_state Scenario.collaborators a "Walk" 0 0 0
              Scenario.Walk Scenario.Idle (Scenario.layer0 a)
              (Scenario.stateDataOf (AnimatorLayerData.src (Scenario.layer0 a)))
              0%nat (Scenario.positionCurve 1) (4%nat, 0%nat))
    as (a' & Hrun & Hvalue);
    [first [vm_compute; reflexivity | intros j cj rj Hj; lia] ..|].
  exists a'. split; [exact Hrun|].
  refine (eq_trans Hvalue _). vm_compute. reflexivity.
Defined.


(** ** Additive layers *)

Section AdditivePosition.
Context {collaborators : Collaborators}.

(** X12. On a layer after the first whose blending mode is [Additive], a
    curve of three-component values that animates the position of a
    transform moves the target by the difference between the value of the
    curve and the value of its first key, component by component; the
    weight of the layer does not enter. *)
Theorem additive_position_adds_difference :
  forall (store : gmap OwnerRef AnimationCureOwner.t)
         (curves : list AnimationClipCurveData.t) (owners : list OwnerRef)
         (frameTime weight : Q) (i : nat) (c : AnimationClipCurveData.t)
         (r : OwnerRef) (first : InterpolableValue) (sc : Scene)
         (b : DiffBuffers.t),
    curves !! i = Some c ->
    owners !! i = Some r ->
    AnimationClipCurveData.type c = Transform ->
    AnimationClipCurveData.property c = Position ->
    AnimationCurve._valueType (AnimationClipCurveData.curve c)
    = InterpolableValueType.Vector3 ->
    AnimationCurve.keys (AnimationClipCurveData.curve c) !! 0%nat = Some first ->
    let value :=
      AnimationCurve.evaluate (AnimationClipCurveData.curve c) frameTime in
    let target := AnimationCureOwner.target (ownerAt store r) in
    let position := TransformData.position (transformOf sc target) in
    exists sc' b',
      playingStateCurve store curves owners frameTime false weight
        AnimatorLayerBlendingMode.Additive i (Pose.mk sc b)
      = (Pose.mk sc' b', Normal tt)
      /\ TransformData.position (transformOf sc' target)
         = mkVector3 (v3x position + (getX value - getX first))
                     (v3y position + (getY value - getY first))
                     (v3z position + (getZ value - getZ first))
      /\ (forall e, e <> target -> transformOf sc' e = transformOf sc e).
Proof.
  intros store curves owners frameTime weight i c r first sc b Hc Hr Htype
    Hproperty Hkind Hfirst value target position.
  unfold playingStateCurve. rewrite Hc, Hr.
  unfold bind at 1. cbn [defined ret]. unfold bind at 1. cbn [defined ret].
  rewrite Hfirst. unfold bind at 1. cbn [defined ret].
  rewrite Hkind, Htype, Hproperty.
  unfold bind, onDiff, modify. cbn [Pose.diff Pose.scene].
  eexists. eexists. split; [reflexivity|]. split.
  - rewrite transformOf_write. reflexivity.
  - intros e He. unfold transformOf, writeTransform.
    rewrite lookup_insert_ne; [reflexivity|].
    intros Heq. apply He. symmetry. exact Heq.
Qed.

End AdditivePosition.

(** A curve that moves the entity 4 along x at the speed 2, evaluated at
    the time 3 on an additive layer of weight 1/2: from the position
    (10, 0, 0) the entity moves by (6, 0, 0), the whole difference to the
    first key. *)
Lemma additive_position_adds_difference_witness :
  exists sc' b',
    @playingStateCurve Scenario.collaborators
      (<[ (4%nat, 0%nat) := AnimationCureOwner.new 4 Transform Position ]> ∅)
      [Scenario.positionCurve 2] [(4%nat, 0%nat)] 3 false (1#2)
      AnimatorLayerBlendingMode.Additive 0
      (Pose.mk
         (<[ 4%nat := TransformData.set_position (mkVector3 10 0 0)
                        TransformData.identity ]> ∅)
         DiffBuffers.new)
    = (Pose.mk sc' b', Normal tt)
    /\ TransformData.position (transformOf sc' 4)
       = mkVector3 (10 + (2 * 3 - 0)) (0 + (0 - 0)) (0 + (0 - 0)).
Proof.
  destruct (@additive_position_adds_difference Scenario.collaborators
              (<[ (4%nat, 0%nat) := AnimationCureOwner.new 4 Transform Position ]> ∅)
              [Scenario.positionCurve 2] [(4%nat, 0%nat)] 3 (1#2) 0%nat
              (Scenario.positionCurve 2) (4%nat, 0%nat)
              (VVector3 (mkVector3 0 0 0))
              (<[ 4%nat := TransformData.set_position (mkVector3 10 0 0)
                             TransformData.identity ]> ∅)
              DiffBuffers.new)
    as (sc' & b' & Hrun & Hposition & _); try reflexivity.
  exists sc', b'. split; [exact Hrun|].
  refine (eq_trans Hposition _). vm_compute. reflexivity.
Defined.

(** ** Errors of the cross-fades *)

(** A sequence raises when its continuation raises on every store that
    satisfies a property which the first computation keeps. *)
Lemma bind_raises_keeping {St A B} (I : St -> Prop) (m : Stateful St A)
    (k : A -> Stateful St B) :
  keeps I m ->
  (forall x s, I s -> exists s', k x s = (s', Throw TypeError)) ->
  forall s, I s -> exists s', bind m k s = (s', Throw TypeError).
Proof.
  intros Hm Hk s Hs. unfold bind. specialize (Hm s Hs).
  destruct (m s) as [s1 [x|[]]]; cbn [fst] in Hm.
  - apply Hk, Hm.
  - eexists. reflexivity.
Qed.

(** A loop raises when one of its iterations raises on every store. *)
Lemma forDown_raises {St} n (body : nat -> Stateful St unit) k :
  (k < n)%nat ->
  (forall s, exists s', body k s = (s', Throw TypeError)) ->
  forall s, exists s', forDown n body s = (s', Throw TypeError).
Proof.
  induction n as [|n IH]; intros Hk Hbody s; [lia|].
  rewrite forDown_S. unfold bind.
  destruct (body n s) as [s1 [[]|[]]] eqn:Hn; [|eexists; reflexivity].
  destruct (decide (k = n)) as [->|Hne].
  - destruct (Hbody s) as [s' Hs']. congruence.
  - apply IH; [lia | exact Hbody].
Qed.

Section CrossFadeErrors.
Context {collaborators : Collaborators}.

(** The iteration of the loop of [_updateCrossFade] for a record with a
    [null] side raises: [null >= 0] holds, so the first branch reads the
    curve at the index [null]. *)
Lemma crossFadeCurve_one_sided_raises store records playingState
    playingFrameTime nextClip srcOwners destOwners frameTime crossWeight
    weight k record :
  records !! k = Some record ->
  CrossCurveData.curCurveIndex record = None
  \/ CrossCurveData.nextCurveIndex record = None ->
  forall p, exists p',
    crossFadeCurve store records playingState playingFrameTime nextClip
      srcOwners destOwners frameTime crossWeight weight k p
    = (p', Throw TypeError).
Proof.
  intros Hrecord Hside p. unfold crossFadeCurve. rewrite Hrecord.
  unfold bind at 1. cbn [defined ret].
  assert (Hge : forall index, indexGeZero index = true).
  { intros [n|]; [apply Z.leb_le; lia | reflexivity]. }
  rewrite !Hge. cbn [andb].
  destruct Hside as [Hcur | Hnext].
  - rewrite Hcur. eexists. reflexivity.
  - rewrite Hnext. unfold bind at 1.
    destruct (defined _ p) as [p1 [cur|[]]]; [|eexists; reflexivity].
    eexists. reflexivity.
Qed.

Lemma updateCrossFade_one_sided_raises i r transition r' weight deltaTime a
    k record :
  Animator._crossCurveData a !! k = Some record ->
  CrossCurveData.curCurveIndex record = None
  \/ CrossCurveData.nextCurveIndex record = None ->
  exists a', _updateCrossFade i r transition r' weight deltaTime a
             = (a', Throw TypeError).
Proof.
  intros Hrecord Hside.
  set (I := configuredAs (Animator.animatorController a) (Animator.speed a)
              (Animator._crossCurveData a)).
  assert (Ha : I a) by (repeat split).
  unfold _updateCrossFade.
  apply (bind_raises_keeping I); [apply keeps_read_defined | | exact Ha].
  intros d a1 H1.
  apply (bind_raises_keeping I); [apply keeps_defined | | exact H1].
  intros playingState a2 H2.
  apply (bind_raises_keeping I); [apply keeps_defined | | exact H2].
  intros destinationState a3 H3.
  apply (bind_raises_keeping I); [apply keeps_config_writeTransition | | exact H3].
  intros [] a4 H4.
  apply (bind_raises_keeping I); [apply keeps_get | | exact H4].
  intros a5 a6 H6.
  apply (bind_raises_keeping I); [apply keeps_defined | | exact H6].
  intros tr a7 H7.
  apply (bind_raises_keeping I);
    [destruct (crossWeightReached tr);
       [apply keeps_config_writePlayData | apply keeps_ret] | | exact H7].
  intros [] a8 H8.
  apply (bind_raises_keeping I); [apply keeps_read_defined | | exact H8].
  intros d9 a9 H9.
  unfold bind at 1. cbn [get].
  apply (bind_raises_keeping I); [apply keeps_defined | | exact H9].
  intros srcStateData a10 H10.
  apply (bind_raises_keeping I); [apply keeps_defined | | exact H10].
  intros destStateData a11 H11.
  destruct H9 as (_ & _ & Hrecords). rewrite Hrecords.
  match goal with
  | |- context [forDown ?n ?body] =>
      destruct (forDown_raises n body k
                  ltac:(apply lookup_lt_is_Some; eauto)
                  ltac:(apply (crossFadeCurve_one_sided_raises _ _ _ _ _ _ _
                                 _ _ _ k record Hrecord Hside))
                  (Pose.mk (Animator.scene a11) (Animator.diff a11)))
        as [p' Hloop]
  end.
  eexists. apply bind_throw. unfold onPose. rewrite Hloop. reflexivity.
Qed.

(** X13. A cross-fade between two states whose curves animate different
    properties cannot be updated: when a record of the cross-curve data
    has a [null] side ([curCurveIndex] or [nextCurveIndex]), [update] of a
    layer that is [CrossFading], with a transition from its source state,
    raises [TypeError], the iterations of the layers before it
    returning. *)
Theorem cross_fade_with_one_sided_record_throws :
  forall (a : Animator.t) (deltaTime : Q) (c : AnimatorController.t) (i : nat)
         (d : AnimatorLayerData.t) (a1 : Animator.t) (s : AnimatorState.t)
         (tr : AnimatorStateTransition.t) (k : nat)
         (record : CrossCurveData.t),
    js_eq (Animator.speed a) 0 = false ->
    Animator.animatorController a = Some c ->
    (i < List.length (AnimatorController.layers c))%nat ->
    forUp i 0 (updateLayerAt (deltaTime * Animator.speed a)) a
    = (a1, Normal tt) ->
    layerDataAt i a = Some d ->
    AnimatorLayerData.layerState d = LayerState.CrossFading ->
    AnimatorStatePlayData.state (AnimatorLayerData.src d) = Some s ->
    transitionsOf a1 (AnimatorState.instanceId s) !! 0%nat = Some tr ->
    Animator._crossCurveData a !! k = Some record ->
    CrossCurveData.curCurveIndex record = None
    \/ CrossCurveData.nextCurveIndex record = None ->
    exists a', update deltaTime a = (a', Throw TypeError).
Proof.
  intros a deltaTime c i d a1 s tr k record Hspeed Hc Hi Hbefore Hd Hstate Hs
    Htr Hrecord Hside.
  destruct (update_at_layer a deltaTime c i d a1 Hspeed Hc Hi Hd Hbefore)
    as (Hd1 & (Hc1 & _ & Hrecords1) & _).
  set (dts := deltaTime * Animator.speed a) in *.
  assert (Hlayer : is_Some (layersOf a1 !! i)).
  { unfold layersOf. rewrite Hc1. apply lookup_lt_is_Some. exact Hi. }
  destruct Hlayer as [layer Hlayer].
  assert (Hthrow : exists a', updateLayerAt dts i a1 = (a', Throw TypeError)).
  { unfold updateLayerAt.
    erewrite bind_normal by (apply getAnimatorLayerData_at; exact Hd1).
    rewrite Hstate. cbn [LayerState_eqb].
    erewrite bind_normal
      by (apply advanceSource_at; [exact Hd1 | intros _; rewrite Hs; eauto]).
    set (d1 := AnimatorLayerData.assign _ _ d).
    assert (Hd1' : layerDataAt i (withLayer i d1 a1) = Some d1)
      by apply layerDataAt_withLayer.
    rewrite (updateLayer_crossFading i _ dts _ d1 layer s tr Hd1');
      [| subst d1; rewrite layerState_assign; exact Hstate
       | exact Hlayer
       | subst d1; rewrite src_assign_src, state_advanced; exact Hs
       | exact Htr].
    apply (updateCrossFade_one_sided_raises _ _ _ _ _ _ _ k record);
      [|exact Hside].
    cbn [withLayer Animator._crossCurveData Animator.set_animatorLayersData].
    rewrite Hrecords1. exact Hrecord. }
  destruct Hthrow as [a' Hthrow]. exists a'.
  unfold update. rewrite Hspeed, Hc. fold dts.
  replace (List.length (AnimatorController.layers c))
    with (i + S (List.length (AnimatorController.layers c) - S i))%nat by lia.
  rewrite forUp_split. erewrite bind_normal by exact Hbefore.
  cbn [Nat.add]. rewrite forUp_S.
  apply bind_throw. exact Hthrow.
Qed.

End CrossFadeErrors.

(** The second scenario plays [Idle], which moves the entity, and
    cross-fades to [Grow], which scales it: the two records of the
    cross-curve data have one side each, and the first [update] raises. *)
Lemma cross_fade_with_one_sided_record_throws_witness :
  List.length (Animator._crossCurveData MixedScenario.crossFadingToGrow) = 2%nat
  /\ exists a',
       @update Scenario.collaborators 16 MixedScenario.crossFadingToGrow
       = (a', Throw TypeError).
Proof.
  split; [vm_compute; reflexivity|].
  apply (@cross_fade_with_one_sided_record_throws Scenario.collaborators
           MixedScenario.crossFadingToGrow 16 MixedScenario.controller 0%nat
           (Scenario.layer0 MixedScenario.crossFadingToGrow)
           MixedScenario.crossFadingToGrow Scenario.Idle
           (Scenario.firstTransition MixedScenario.crossFadingToGrow
              Scenario.Idle)
           0%nat
           (CrossCurveData.mk (4%nat, 0%nat) (Some 0%nat) None));
    try (vm_compute; reflexivity).
  right. reflexivity.
Defined.



Section StandbyCrossFade.
Context {collaborators : Collaborators}.

(** X14. [crossFade] on a layer that never played raises [TypeError]: the
    layer is [Standby] (its record is missing or new) and its source
    record has no state data, which [_prepareSrcCrossData] reads.  The
    call has then already made the layer [FixedCrossFading], filled the
    destination record and emptied the cross-curve data. *)
Theorem cross_fade_before_any_play_throws :
  forall (a : Animator.t) (stateName : string)
         (normalizedTransitionDuration : Q) (layerIndex : Z)
         (normalizedTimeOffset : Q) (validLayerIndex : Z)
         (crossState : AnimatorState.t),
    _getAnimatorStateInfo stateName layerIndex a
    = Normal (validLayerIndex, Some crossState) ->
    let d := default AnimatorLayerData.new
               (layerDataAt (Z.to_nat validLayerIndex) a) in
    AnimatorLayerData.layerState d = LayerState.Standby ->
    AnimatorStatePlayData.stateData (AnimatorLayerData.src d) = None ->
    AnimatorLayerData.srcPlayData d <> AnimatorLayerData.destPlayData d ->
    exists a' d',
      crossFade stateName normalizedTransitionDuration layerIndex
        normalizedTimeOffset a
      = (a', Throw TypeError)
      /\ layerDataAt (Z.to_nat validLayerIndex) a' = Some d'
      /\ AnimatorLayerData.layerState d' = LayerState.FixedCrossFading
      /\ AnimatorStatePlayData.state (AnimatorLayerData.dest d')
         = Some crossState
      /\ Animator._crossCurveData a' = [].
Proof.
  intros a stateName duration layerIndex offset validLayerIndex crossState
    Hinfo d Hstandby Hnone Hrefs.
  set (i := Z.to_nat validLayerIndex) in *.
  assert (Hget : exists a0,
            _getAnimatorLayerData i a = (a0, Normal d)
            /\ layerDataAt i a0 = Some d).
  { unfold _getAnimatorLayerData. subst d.
    destruct (layerDataAt i a) as [d0|] eqn:Hd0; cbn [default].
    - exists a. split; [reflexivity | exact Hd0].
    - eexists. split; [reflexivity|].
      apply (layerDataAt_withLayer i AnimatorLayerData.new a). }
  destruct Hget as (a0 & Hget & Hd0).
  destruct (getAnimatorStateData_at stateName crossState i a0 d Hd0)
    as (a1 & sd & m & Hrun1 & Hd1).
  set (d1 := AnimatorLayerData.set_animatorStateDataMap m d) in *.
  set (d2 := AnimatorLayerData.assign (AnimatorLayerData.destPlayData d)
               (AnimatorStatePlayData.mk (Some crossState) 0
                  (Some PlayState.Crossing) (Some sd)) d1).
  destruct (saveDefaultValues_returns sd (withLayer i d2 a1))
    as (a3 & Hrun3 & Hlayers3).
  assert (Hd3 : layerDataAt i a3 = Some d2).
  { rewrite (layerDataAt_same_layers i _ _ Hlayers3).
    apply layerDataAt_withLayer. }
  set (d4 := AnimatorLayerData.set_layerState LayerState.FixedCrossFading d2).
  set (d5 := AnimatorLayerData.set_crossCurveMark
               (S (AnimatorLayerData.crossCurveMark d4)) d4).
  set (a6 := Animator.set_crossCurveData [] (withLayer i d5 (withLayer i d4 a3))).
  assert (Hd6 : layerDataAt i a6 = Some d5).
  { subst a6. apply (layerDataAt_withLayer i d5 (withLayer i d4 a3)). }
  assert (Hsrc : AnimatorStatePlayData.stateData (AnimatorLayerData.src d5)
                 = None).
  { subst d5 d4 d2 d1. unfold AnimatorLayerData.src.
    cbn [AnimatorLayerData.srcPlayData AnimatorLayerData.set_crossCurveMark
         AnimatorLayerData.set_layerState].
    rewrite srcPlayData_assign.
    cbn [AnimatorLayerData.srcPlayData
         AnimatorLayerData.set_animatorStateDataMap].
    destruct (AnimatorLayerData.srcPlayData d) eqn:Hs,
             (AnimatorLayerData.destPlayData d) eqn:Hd';
      try congruence; unfold AnimatorLayerData.src in Hnone;
      rewrite Hs in Hnone; exact Hnone. }
  exists a6, d5. split; [|split; [exact Hd6|split; [reflexivity|split]]].
  - unfold crossFade. unfold bind at 1. rewrite Hinfo. cbn [snd fst]. fold i.
    erewrite bind_normal by exact Hget.
    erewrite bind_normal by exact Hrun1.
    erewrite bind_normal by (apply writePlayData_at; exact Hd1).
    fold d1 d2.
    erewrite bind_normal by exact Hrun3.
    rewrite Hstandby. apply bind_throw.
    unfold crossFadeCase.
    erewrite bind_normal by (apply writeLayer_at; exact Hd3).
    fold d4. unfold _clearCrossData at 1.
    erewrite bind_normal.
    2:{ erewrite bind_normal
          by (apply writeLayer_at; apply layerDataAt_withLayer).
        reflexivity. }
    fold d5 a6. apply bind_throw.
    unfold _prepareStandbyCrossFading, crossCurveMarkOf.
    unfold bind at 1. unfold bind at 1. rewrite Hd6. cbn [defined ret].
    erewrite bind_normal by (apply srcOf_at; exact Hd6).
    apply bind_throw. unfold _prepareSrcCrossData. rewrite Hsrc. reflexivity.
  - subst d5 d4 d2. unfold AnimatorLayerData.dest.
    cbn [AnimatorLayerData.destPlayData AnimatorLayerData.set_crossCurveMark
         AnimatorLayerData.set_layerState].
    rewrite destPlayData_assign.
    destruct (AnimatorLayerData.destPlayData d1) eqn:Hd'; subst d1;
      cbn [AnimatorLayerData.destPlayData
           AnimatorLayerData.set_animatorStateDataMap] in Hd';
      rewrite Hd'; reflexivity.
  - reflexivity.
Qed.

End StandbyCrossFade.

(** The animator of the scenario before any call: [crossFade("Walk")]
    raises and leaves the layer [FixedCrossFading]. *)
Lemma cross_fade_before_any_play_throws_witness :
  exists a' d',
    @crossFade Scenario.collaborators "Walk" (1#2) (-1) 0 Scenario.fresh
    = (a', Throw TypeError)
    /\ layerDataAt 0 a' = Some d'
    /\ AnimatorLayerData.layerState d' = LayerState.FixedCrossFading.
Proof.
  destruct (@cross_fade_before_any_play_throws Scenario.collaborators
              Scenario.fresh "Walk" (1#2) (-1) 0 0 Scenario.Walk)
    as (a' & d' & Hrun & Hd' & Hstate & _);
    [reflexivity | reflexivity | reflexivity | discriminate |].
  exists a', d'. split; [exact Hrun|]. split; [exact Hd' | exact Hstate].
Defined.


(** ** The pairing of the curves of a cross-fade *)

Lemma srcCrossRecords_length owners n :
  (n <= List.length owners)%nat ->
  List.length (srcCrossRecords owners n) = n.
Proof.
  induction n as [|n IH]; intros Hn; [reflexivity|].
  cbn [srcCrossRecords].
  destruct (lookup_lt_is_Some_2 owners n) as [r Hr]; [lia|].
  rewrite Hr. cbn [List.length]. rewrite IH by lia. reflexivity.
Qed.

Lemma srcCrossRecords_lookup owners n k r :
  (k < n)%nat ->
  owners !! (n - 1 - k)%nat = Some r ->
  (n <= List.length owners)%nat ->
  srcCrossRecords owners n !! k
  = Some (CrossCurveData.mk r (Some (n - 1 - k)%nat) None).
Proof.
  revert k. induction n as [|n IH]; intros k Hk Hr Hn; [lia|].
  cbn [srcCrossRecords].
  destruct (lookup_lt_is_Some_2 owners n) as [r' Hr']; [lia|].
  rewrite Hr'. destruct k as [|k].
  - replace (S n - 1 - 0)%nat with n in * by lia.
    rewrite Hr' in Hr. injection Hr as ->. reflexivity.
  - cbn [lookup list_lookup].
    replace (S n - 1 - S k)%nat with (n - 1 - k)%nat in * by lia.
    apply IH; [lia | exact Hr | lia].
Qed.

Section Pairing.
Context {collaborators : Collaborators}.

(** The loop of [_prepareSrcCrossData] over distinct owners: it returns,
    appends the records of the owners, stamps every owner with the mark
    and with the index of its record, and writes nothing else. *)
Lemma prepareSrcCrossData_loop owners mark n :
  NoDup owners ->
  (n <= List.length owners)%nat ->
  forall a, exists a',
    forDown n (fun i =>
      do owner <- defined (owners !! i);
      do a <- get;
      run writeOwner owner
            (AnimationCureOwner.set_cross mark
               (Some (List.length (Animator._crossCurveData a))));
      run ret tt;
      _addCrossCurveData owner (Some i) None) a
    = (a', Normal tt)
    /\ Animator._crossCurveData a'
       = Animator._crossCurveData a ++ srcCrossRecords owners n
    /\ Animator.set_crossCurveData (Animator._crossCurveData a)
         (Animator.set_animationCureOwners (Animator._animationCureOwners a) a')
       = a
    /\ (forall r, r ∉ take n owners ->
          Animator._animationCureOwners a' !! r
          = Animator._animationCureOwners a !! r)
    /\ (forall j r, (j < n)%nat -> owners !! j = Some r ->
          ownerAt (Animator._animationCureOwners a') r
          = AnimationCureOwner.set_cross mark
              (Some (List.length (Animator._crossCurveData a) + (n - 1 - j))%nat)
              (ownerAt (Animator._animationCureOwners a) r)).
Proof.
  intros Hnodup. induction n as [|n IH]; intros Hn a.
  - exists a. split; [reflexivity|].
    split; [rewrite app_nil_r; reflexivity|].
    split; [destruct a; reflexivity|].
    split; [reflexivity|]. intros j r Hj. lia.
  - destruct (lookup_lt_is_Some_2 owners n) as [rn Hrn]; [lia|].
    rewrite forDown_S. rewrite Hrn.
    set (R := Animator._crossCurveData a).
    set (cache := Animator._animationCureOwners a).
    set (a1 := Animator.set_crossCurveData
                 (R ++ [CrossCurveData.mk rn (Some n) None])
                 (Animator.set_animationCureOwners
                    (<[ rn := AnimationCureOwner.set_cross mark
                                (Some (List.length R)) (ownerAt cache rn) ]>
                       cache) a)).
    assert (Hbody :
      (do owner <- defined (Some rn);
       do a0 <- get;
       run writeOwner owner
             (AnimationCureOwner.set_cross mark
                (Some (List.length (Animator._crossCurveData a0))));
       run ret tt;
       _addCrossCurveData owner (Some n) None) a
      = (a1, Normal tt)).
    { unfold bind, writeOwner, _addCrossCurveData, modify, get.
      cbn [defined ret]. reflexivity. }
    erewrite bind_normal by exact Hbody.
    destruct (IH ltac:(lia) a1) as (a' & Hrun & Hrecords & Hrest & Hother & Hown).
    exists a'. split; [exact Hrun|].
    assert (Hrn_fresh : rn ∉ take n owners).
    { intros Hin. apply list_elem_of_lookup in Hin as [j Hj].
      pose proof (lookup_lt_Some _ _ _ Hj) as Hlt.
      rewrite length_take in Hlt.
      rewrite lookup_take_lt in Hj by lia.
      pose proof (NoDup_lookup _ _ _ _ Hnodup Hj Hrn). lia. }
    split; [|split; [|split]].
    + rewrite Hrecords. subst a1. cbn [Animator._crossCurveData
        Animator.set_crossCurveData]. rewrite <- app_assoc.
      cbn [srcCrossRecords]. rewrite Hrn. reflexivity.
    + subst a1. destruct a, a'. cbn in Hrest |- *.
      injection Hrest as -> -> -> -> -> -> ->. reflexivity.
    + intros r Hr. rewrite (take_S_r _ _ _ Hrn) in Hr.
      rewrite Hother.
      * subst a1. cbn [Animator._animationCureOwners
          Animator.set_crossCurveData Animator.set_animationCureOwners].
        apply lookup_insert_ne. intros ->. apply Hr.
        apply elem_of_app. right. apply list_elem_of_singleton. reflexivity.
      * intros Hin. apply Hr. apply elem_of_app. left. exact Hin.
    + intros j r Hj Hr.
      assert (Hcache1 : Animator._animationCureOwners a1
                        = <[ rn := AnimationCureOwner.set_cross mark
                                     (Some (List.length R)) (ownerAt cache rn) ]>
                            cache) by reflexivity.
      assert (Hrecords1 : List.length (Animator._crossCurveData a1)
                          = S (List.length R)).
      { subst a1. cbn [Animator._crossCurveData Animator.set_crossCurveData].
        rewrite length_app. cbn [List.length]. lia. }
      destruct (decide (j = n)) as [->|Hne].
      * rewrite Hrn in Hr. injection Hr as <-.
        unfold ownerAt at 1. rewrite (Hother rn Hrn_fresh), Hcache1.
        rewrite lookup_insert_eq. cbn [default].
        replace (S n - 1 - n)%nat with 0%nat by lia.
        rewrite Nat.add_0_r. reflexivity.
      * rewrite (Hown j r ltac:(lia) Hr). rewrite Hrecords1.
        replace (S (List.length R) + (n - 1 - j))%nat
          with (List.length R + (S n - 1 - j))%nat by lia.
        f_equal. unfold ownerAt. rewrite Hcache1.
        rewrite lookup_insert_ne; [reflexivity|].
        intros ->. pose proof (NoDup_lookup _ _ _ _ Hnodup Hr Hrn). lia.
Qed.

(** The loop of [_prepareDestCrossData] over owners that all carry the
    mark and the index of a record, different owners different indices: it
    returns, writes the cross-curve data only, keeps the owner and the
    source index of every record, and gives the record of every owner the
    index of the owner on the destination side. *)
Lemma prepareDestCrossData_loop_paired owners mark n :
  (n <= List.length owners)%nat ->
  forall a,
    (forall j r, (j < n)%nat -> owners !! j = Some r ->
       AnimationCureOwner.crossCurveMark
         (ownerAt (Animator._animationCureOwners a) r) = mark
       /\ exists ix,
            AnimationCureOwner.crossCurveIndex
              (ownerAt (Animator._animationCureOwners a) r) = Some ix
            /\ (ix < List.length (Animator._crossCurveData a))%nat) ->
    (forall j1 j2 r1 r2, (j1 < n)%nat -> (j2 < n)%nat ->
       owners !! j1 = Some r1 -> owners !! j2 = Some r2 ->
       AnimationCureOwner.crossCurveIndex
         (ownerAt (Animator._animationCureOwners a) r1)
       = AnimationCureOwner.crossCurveIndex
           (ownerAt (Animator._animationCureOwners a) r2) ->
       j1 = j2) ->
    exists a',
      forDown n (fun i =>
        do owner <- defined (owners !! i);
        do a <- get;
        let o := ownerAt (Animator._animationCureOwners a) owner in
        if Nat.eqb (AnimationCureOwner.crossCurveMark o) mark then
          do _ <- defined (elementAtIndex (Animator._crossCurveData a)
                             (AnimationCureOwner.crossCurveIndex o));
          modify (fun a =>
            Animator.set_crossCurveData
              (alter (CrossCurveData.set_nextCurveIndex (Some i))
                 (default O (AnimationCureOwner.crossCurveIndex o))
                 (Animator._crossCurveData a)) a)
        else
          run ret tt;
          run writeOwner owner (AnimationCureOwner.set_crossCurveMark mark);
          _addCrossCurveData owner None (Some i)) a
      = (a', Normal tt)
      /\ Animator.set_crossCurveData (Animator._crossCurveData a) a' = a
      /\ List.length (Animator._crossCurveData a')
         = List.length (Animator._crossCurveData a)
      /\ (forall k record, Animator._crossCurveData a !! k = Some record ->
            exists record',
              Animator._crossCurveData a' !! k = Some record'
              /\ CrossCurveData.owner record' = CrossCurveData.owner record
              /\ CrossCurveData.curCurveIndex record'
                 = CrossCurveData.curCurveIndex record
              /\ ((forall j r, (j < n)%nat -> owners !! j = Some r ->
                     AnimationCureOwner.crossCurveIndex
                       (ownerAt (Animator._animationCureOwners a) r)
                     <> Some k) ->
                  record' = record))
      /\ (forall j r ix, (j < n)%nat -> owners !! j = Some r ->
            AnimationCureOwner.crossCurveIndex
              (ownerAt (Animator._animationCureOwners a) r) = Some ix ->
            exists record',
              Animator._crossCurveData a' !! ix = Some record'
              /\ CrossCurveData.nextCurveIndex record' = Some j).
Proof.
  induction n as [|n IH]; intros Hn a Hmarked Hinj.
  - exists a. split; [reflexivity|]. split; [destruct a; reflexivity|].
    split; [reflexivity|]. split.
    + intros k record Hk. exists record. repeat split; assumption.
    + intros j r ix Hj. lia.
  - destruct (lookup_lt_is_Some_2 owners n) as [rn Hrn]; [lia|].
    destruct (Hmarked n rn ltac:(lia) Hrn) as (Hmark & ixn & Hixn & Hlt).
    destruct (lookup_lt_is_Some_2 _ _ Hlt) as [rec0 Hrec0].
    rewrite forDown_S, Hrn.
    set (R := Animator._crossCurveData a) in *.
    set (R1 := alter (CrossCurveData.set_nextCurveIndex (Some n)) ixn R).
    set (a1 := Animator.set_crossCurveData R1 a).
    erewrite bind_normal with (s' := a1) (x := tt).
    2:{ unfold bind at 1. cbn [defined ret]. unfold bind at 1. cbn [get].
        cbn zeta. rewrite Hmark, Nat.eqb_refl, Hixn.
        cbn [elementAtIndex default]. fold R. rewrite Hrec0.
        unfold bind. cbn [defined ret]. reflexivity. }
    assert (Hlen1 : List.length (Animator._crossCurveData a1) = List.length R).
    { subst a1 R1. cbn [Animator._crossCurveData Animator.set_crossCurveData].
      apply length_alter. }
    destruct (IH ltac:(lia) a1) as (a' & Hrun & Hrest & Hlen & Hkeep & Hnext).
    { intros j r Hj Hr.
      destruct (Hmarked j r ltac:(lia) Hr) as (Hm & ix & Hix & Hixlt).
      split; [exact Hm|]. exists ix. split; [exact Hix|].
      rewrite Hlen1. exact Hixlt. }
    { intros j1 j2 r1 r2 Hj1 Hj2. apply Hinj; lia. }
    exists a'. split; [exact Hrun|].
    split; [|split; [|split]].
    + subst a1. destruct a, a'. cbn in Hrest |- *.
      injection Hrest as -> -> -> -> -> -> -> ->. reflexivity.
    + rewrite Hlen, Hlen1. reflexivity.
    + intros k record Hk.
      assert (Hk1 : Animator._crossCurveData a1 !! k
                    = Some (if decide (ixn = k)
                            then CrossCurveData.set_nextCurveIndex (Some n) record
                            else record)).
      { subst a1 R1. cbn [Animator._crossCurveData Animator.set_crossCurveData].
        destruct (decide (ixn = k)) as [->|Hne].
        - rewrite list_lookup_alter_eq. fold R in Hk. rewrite Hk. reflexivity.
        - rewrite list_lookup_alter_ne by exact Hne. exact Hk. }
      destruct (Hkeep k _ Hk1) as (record' & Hk' & Howner & Hcur & Hsame).
      exists record'. split; [exact Hk'|].
      split; [rewrite Howner; destruct (decide (ixn = k)); reflexivity|].
      split; [rewrite Hcur; destruct (decide (ixn = k)); reflexivity|].
      intros Huntouched. rewrite Hsame.
      * destruct (decide (ixn = k)) as [->|Hne]; [|reflexivity].
        destruct (Huntouched n rn ltac:(lia) Hrn Hixn).
      * intros j r Hj Hr. apply (Huntouched j r ltac:(lia) Hr).
    + intros j r ix Hj Hr Hix.
      destruct (decide (j = n)) as [->|Hne].
      * rewrite Hrn in Hr. injection Hr as <-.
        rewrite Hixn in Hix. injection Hix as <-.
        assert (Hk1 : Animator._crossCurveData a1 !! ixn
                      = Some (CrossCurveData.set_nextCurveIndex (Some n) rec0)).
        { subst a1 R1.
          cbn [Animator._crossCurveData Animator.set_crossCurveData].
          rewrite list_lookup_alter_eq, Hrec0. reflexivity. }
        destruct (Hkeep ixn _ Hk1) as (record' & Hk' & _ & _ & Hsame).
        exists record'. split; [exact Hk'|]. rewrite Hsame; [reflexivity|].
        intros j r Hj' Hr Hix.
        assert (j = n); [|lia].
        apply (Hinj j n r rn); [lia | lia | exact Hr | exact Hrn |].
        rewrite Hixn. exact Hix.
      * apply (Hnext j r ix ltac:(lia) Hr Hix).
Qed.

(** [_prepareCrossFading] from empty cross-curve data, for distinct source
    owners and distinct destination owners that are all source owners: it
    returns with one record per source owner, in the order of the loop;
    the record of an owner has the index of the owner among the source
    owners, and the index of the owner among the destination owners when
    it is one. *)
Lemma prepareCrossFading_pairs i a d sd sd' :
  layerDataAt i a = Some d ->
  AnimatorStatePlayData.stateData (AnimatorLayerData.src d) = Some sd ->
  AnimatorStatePlayData.stateData (AnimatorLayerData.dest d) = Some sd' ->
  NoDup (AnimatorStateData.owners sd) ->
  NoDup (AnimatorStateData.owners sd') ->
  (forall r, r ∈ AnimatorStateData.owners sd' ->
             r ∈ AnimatorStateData.owners sd) ->
  Animator._crossCurveData a = [] ->
  let n := List.length (AnimatorStateData.owners sd) in
  exists a',
    _prepareCrossFading i a = (a', Normal tt)
    /\ Animator.set_crossCurveData []
         (Animator.set_animationCureOwners (Animator._animationCureOwners a) a')
       = a
    /\ List.length (Animator._crossCurveData a') = n
    /\ (forall k r, (k < n)%nat ->
          AnimatorStateData.owners sd !! (n - 1 - k)%nat = Some r ->
          exists record,
            Animator._crossCurveData a' !! k = Some record
            /\ CrossCurveData.owner record = r
            /\ CrossCurveData.curCurveIndex record = Some (n - 1 - k)%nat
            /\ (forall j, AnimatorStateData.owners sd' !! j = Some r ->
                  CrossCurveData.nextCurveIndex record = Some j)
            /\ (r ∉ AnimatorStateData.owners sd' ->
                  CrossCurveData.nextCurveIndex record = None)).
Proof.
  intros Hd Hsd Hsd' Hnodup Hnodup' Hsub Hempty n.
  set (os := AnimatorStateData.owners sd) in *.
  set (os' := AnimatorStateData.owners sd') in *.
  set (mark := AnimatorLayerData.crossCurveMark d).
  destruct (prepareSrcCrossData_loop os mark n Hnodup (le_n _) a)
    as (a1 & Hrun1 & Hrecords1 & Hrest1 & Hother1 & Hown1).
  rewrite Hempty in Hrecords1, Hown1, Hrest1. cbn [app List.length] in *.
  assert (Hlayers1 : Animator._animatorLayersData a1
                     = Animator._animatorLayersData a).
  { rewrite <- Hrest1. destruct a1. reflexivity. }
  assert (Hd1 : layerDataAt i a1 = Some d).
  { rewrite (layerDataAt_same_layers i a a1 Hlayers1). exact Hd. }
  assert (Hlen1 : List.length (Animator._crossCurveData a1) = n).
  { rewrite Hrecords1. apply srcCrossRecords_length. reflexivity. }
  assert (Hpos : forall r, r ∈ os' ->
            exists j, (j < n)%nat /\ os !! j = Some r
              /\ ownerAt (Animator._animationCureOwners a1) r
                 = AnimationCureOwner.set_cross mark (Some (n - 1 - j)%nat)
                     (ownerAt (Animator._animationCureOwners a) r)).
  { intros r Hr. apply Hsub in Hr. apply list_elem_of_lookup in Hr as [j Hj].
    pose proof (lookup_lt_Some _ _ _ Hj) as Hlt.
    exists j. split; [exact Hlt|]. split; [exact Hj|].
    rewrite (Hown1 j r Hlt Hj). reflexivity. }
  destruct (prepareDestCrossData_loop_paired os' mark (List.length os')
              (le_n _) a1)
    as (a2 & Hrun2 & Hrest2 & Hlen2 & Hkeep2 & Hnext2).
  { intros j r Hj Hr.
    destruct (Hpos r) as (j0 & Hj0 & Hr0 & Hown);
      [apply list_elem_of_lookup; eauto|].
    rewrite Hown. split; [reflexivity|].
    exists (n - 1 - j0)%nat. split; [reflexivity|]. rewrite Hlen1. lia. }
  { intros j1 j2 r1 r2 Hj1 Hj2 Hr1 Hr2 Hix.
    destruct (Hpos r1) as (k1 & Hk1 & Hp1 & Hown1');
      [apply list_elem_of_lookup; eauto|].
    destruct (Hpos r2) as (k2 & Hk2 & Hp2 & Hown2');
      [apply list_elem_of_lookup; eauto|].
    rewrite Hown1', Hown2' in Hix. cbn in Hix.
    assert (k1 = k2) by (injection Hix; lia). subst k2.
    rewrite Hp1 in Hp2. injection Hp2 as <-.
    apply (NoDup_lookup _ _ _ _ Hnodup' Hr1 Hr2). }
  exists a2. split; [|split; [|split]].
  - unfold _prepareCrossFading, crossCurveMarkOf.
    unfold bind at 1. unfold bind at 1. rewrite Hd. cbn [defined ret].
    erewrite bind_normal by (apply srcOf_at; exact Hd).
    erewrite bind_normal.
    2:{ unfold _prepareSrcCrossData. rewrite Hsd.
        unfold bind at 1. cbn [defined ret]. exact Hrun1. }
    erewrite bind_normal by (apply destOf_at; exact Hd1).
    unfold _prepareDestCrossData. rewrite Hsd'.
    unfold bind at 1. cbn [defined ret]. exact Hrun2.
  - rewrite <- Hrest1 at 2. rewrite <- Hrest2.
    destruct a2. reflexivity.
  - rewrite Hlen2. exact Hlen1.
  - intros k r Hk Hr.
    assert (Hrec1 : Animator._crossCurveData a1 !! k
                    = Some (CrossCurveData.mk r (Some (n - 1 - k)%nat) None)).
    { rewrite Hrecords1. apply srcCrossRecords_lookup;
        [exact Hk | exact Hr | reflexivity]. }
    destruct (Hkeep2 k _ Hrec1) as (record & Hrecord & Howner & Hcur & Hsame).
    exists record. split; [exact Hrecord|].
    split; [exact Howner|]. split; [exact Hcur|]. split.
    + intros j Hj.
      destruct (Hpos r) as (j0 & Hj0 & Hr0 & Hown);
        [apply list_elem_of_lookup; eauto|].
      assert (j0 = (n - 1 - k)%nat)
        by apply (NoDup_lookup _ _ _ _ Hnodup Hr0 Hr).
      destruct (Hnext2 j r k) as (record' & Hrecord' & Hnext).
      * apply (lookup_lt_Some _ _ _ Hj).
      * exact Hj.
      * rewrite Hown. cbn. f_equal. lia.
      * rewrite Hrecord in Hrecord'. injection Hrecord' as <-. exact Hnext.
    + intros Hnot. rewrite Hsame; [reflexivity|].
      intros j r' Hj Hr' Hix.
      destruct (Hpos r') as (j0 & Hj0 & Hr0 & Hown);
        [apply list_elem_of_lookup; eauto|].
      rewrite Hown in Hix. cbn in Hix.
      assert (j0 = (n - 1 - k)%nat) by (injection Hix; lia). subst j0.
      rewrite Hr in Hr0. injection Hr0 as <-.
      apply Hnot. apply list_elem_of_lookup. eauto.
Qed.

End Pairing.


(** ** [crossFade] from a layer that plays *)

Section CrossFadeFromPlaying.
Context {collaborators : Collaborators}.

(** What [_getAnimatorStateData] and [_saveDefaultValues] keep: every part
    of the store that is neither the cache of owners nor the records of
    the layers. *)
Lemma keeps_getAnimatorStateData_part {T} (f : Animator.t -> T) v stateName
    animatorState i :
  (forall x a, f (Animator.set_animationCureOwners x a) = f a) ->
  (forall x a, f (Animator.set_animatorLayersData x a) = f a) ->
  keeps (fun a => f a = v) (_getAnimatorStateData stateName animatorState i).
Proof.
  intros Howners Hlayers. unfold _getAnimatorStateData.
  apply keeps_bind; [apply keeps_read_defined | intros d].
  destruct (_ !! stateName); [apply keeps_ret|].
  apply keeps_bind; [|intros sd; apply keeps_bind; [|intros _; apply keeps_ret]].
  - intros a Ha. cbn [_saveAnimatorStateData fst]. rewrite Howners. exact Ha.
  - intros a Ha. unfold writeLayer, modify. cbn [fst]. rewrite Hlayers. exact Ha.
Qed.

Lemma keeps_saveDefaultValues_part {T} (f : Animator.t -> T) v stateData :
  (forall x a, f (Animator.set_animationCureOwners x a) = f a) ->
  keeps (fun a => f a = v) (_saveDefaultValues stateData).
Proof.
  intros Howners. unfold _saveDefaultValues. apply keeps_forDown. intros i.
  apply keeps_bind; [apply keeps_defined | intros r].
  apply keeps_bind; [apply keeps_get | intros a0].
  intros a Ha. unfold writeOwner, modify. cbn [fst]. rewrite Howners. exact Ha.
Qed.

Lemma getAnimatorStateData_stateDataOfName stateName state i a d :
  layerDataAt i a = Some d ->
  exists a' m,
    _getAnimatorStateData stateName state i a
    = (a', Normal (stateDataOfName d stateName state))
    /\ layerDataAt i a' = Some (AnimatorLayerData.set_animatorStateDataMap m d).
Proof.
  intros Hd. unfold _getAnimatorStateData, stateDataOfName.
  unfold bind at 1. rewrite Hd. cbn [defined ret].
  destruct (AnimatorLayerData.animatorStateDataMap d !! stateName) as [sd|].
  - exists a, (AnimatorLayerData.animatorStateDataMap d).
    split; [reflexivity|]. rewrite Hd. destruct d. reflexivity.
  - unfold bind at 1. cbn [_saveAnimatorStateData].
    set (a1 := Animator.set_animationCureOwners _ a).
    assert (Hd1 : layerDataAt i a1 = Some d) by exact Hd.
    erewrite bind_normal by (apply writeLayer_at; exact Hd1).
    eexists. eexists. split; [reflexivity|].
    apply layerDataAt_withLayer.
Qed.

(** The end of [crossFade] on a transition that exists: it returns, the
    transition is [configured], and only the transition changes. *)
Lemma configureTransition_at r crossState duration offset a tr :
  readTransition r a = Some tr ->
  exists a',
    configureTransition (Some r) crossState duration offset a = (a', Normal tt)
    /\ readTransition r a' = Some (configured crossState duration offset tr)
    /\ Animator._animatorLayersData a' = Animator._animatorLayersData a
    /\ Animator._crossCurveData a' = Animator._crossCurveData a
    /\ Animator.animatorController a' = Animator.animatorController a
    /\ Animator.speed a' = Animator.speed a
    /\ (forall stateId j,
          r <> StateTransition stateId j ->
          transitionsOf a' stateId !! j = transitionsOf a stateId !! j).
Proof.
  intros Htr. unfold configureTransition.
  unfold bind at 1. cbn [defined ret].
  erewrite bind_normal by apply writeTransition_returns.
  set (a1 := fst (writeTransition r _ a)).
  pose proof (readTransition_write r
                (AnimatorStateTransition.set_duration
                   (AnimationClip.length (AnimatorState.clip crossState)
                    * duration)) a tr Htr) as Htr1.
  fold a1 in Htr1.
  erewrite bind_normal by apply writeTransition_returns.
  set (a2 := fst (writeTransition r _ a1)).
  pose proof (readTransition_write r
                (AnimatorStateTransition.set_offset
                   (AnimationClip.length (AnimatorState.clip crossState)
                    * offset)) a1 _ Htr1) as Htr2.
  fold a2 in Htr2.
  assert (Hlayers2 : Animator._animatorLayersData a2
                     = Animator._animatorLayersData a)
    by (subst a2 a1; destruct r; reflexivity).
  assert (Hrecords2 : Animator._crossCurveData a2 = Animator._crossCurveData a)
    by (subst a2 a1; destruct r; reflexivity).
  assert (Hconfig2 : Animator.animatorController a2
                     = Animator.animatorController a
                     /\ Animator.speed a2 = Animator.speed a)
    by (subst a2 a1; destruct r; split; reflexivity).
  assert (Hwrite : forall f q stateId j,
            r <> StateTransition stateId j ->
            transitionsOf (fst (writeTransition r f q)) stateId !! j
            = transitionsOf q stateId !! j).
  { intros f q stateId j Hother. destruct r as [|sid index]; [reflexivity|].
    unfold transitionsOf at 1. cbn [writeTransition modify fst
      Animator.stateTransitions Animator.set_stateTransitions].
    destruct (decide (sid = stateId)) as [->|Hsid].
    - rewrite lookup_insert_eq.
      cbv beta iota delta [default from_option Datatypes.id].
      apply list_lookup_alter_ne. congruence.
    - rewrite lookup_insert_ne by exact Hsid. reflexivity. }
  unfold bind at 1. cbn [get]. rewrite Htr2.
  unfold bind at 1. cbn [defined ret].
  cbn [AnimatorStateTransition.duration AnimatorStateTransition.offset
       AnimatorStateTransition.set_offset AnimatorStateTransition.set_duration].
  unfold configured.
  destruct (js_gt _ _) eqn:Hgt.
  - rewrite writeTransition_returns.
    eexists. split; [reflexivity|].
    split; [rewrite (readTransition_write r _ a2 _ Htr2); reflexivity|].
    split; [rewrite <- Hlayers2; destruct r; reflexivity|].
    split; [rewrite <- Hrecords2; destruct r; reflexivity|].
    split; [destruct Hconfig2 as [<- _]; destruct r; reflexivity|].
    split; [destruct Hconfig2 as [_ <-]; destruct r; reflexivity|].
    intros stateId j Hother. rewrite (Hwrite _ a2 stateId j Hother).
    subst a2. rewrite (Hwrite _ a1 stateId j Hother).
    subst a1. apply (Hwrite _ a stateId j Hother).
  - exists a2. split; [reflexivity|]. split; [exact Htr2|].
    split; [exact Hlayers2|]. split; [exact Hrecords2|].
    split; [exact (proj1 Hconfig2)|]. split; [exact (proj2 Hconfig2)|].
    intros stateId j Hother. subst a2. rewrite (Hwrite _ a1 stateId j Hother).
    subst a1. apply (Hwrite _ a stateId j Hother).
Qed.

(** The fields of [preparedRecord] and of [crossFadingRecord], for a
    source record other than the destination record and for a source
    record that is the destination record. *)
Lemma crossFadingRecord_distinct d m crossState sd' :
  AnimatorLayerData.srcPlayData d <> AnimatorLayerData.destPlayData d ->
  AnimatorLayerData.src (preparedRecord d m crossState sd')
  = AnimatorLayerData.src d
  /\ AnimatorLayerData.layerState (crossFadingRecord d m crossState sd')
     = LayerState.CrossFading
  /\ AnimatorLayerData.crossCurveMark (crossFadingRecord d m crossState sd')
     = S (AnimatorLayerData.crossCurveMark d)
  /\ AnimatorLayerData.srcPlayData (crossFadingRecord d m crossState sd')
     = AnimatorLayerData.srcPlayData d
  /\ AnimatorLayerData.destPlayData (crossFadingRecord d m crossState sd')
     = AnimatorLayerData.destPlayData d
  /\ AnimatorLayerData.src (crossFadingRecord d m crossState sd')
     = AnimatorStatePlayData.set_playState PlayState.Fading
         (AnimatorLayerData.src d)
  /\ AnimatorLayerData.dest (crossFadingRecord d m crossState sd')
     = AnimatorStatePlayData.mk (Some crossState) 0 (Some PlayState.Crossing)
         (Some sd').
Proof.
  intros Hrefs. destruct d as [dm rs rd ls mk p1 p2].
  cbn in Hrefs. destruct rs, rd; try congruence; cbn; repeat split.
Qed.

Lemma crossFadingRecord_aliased d m crossState sd' :
  AnimatorLayerData.srcPlayData d = AnimatorLayerData.destPlayData d ->
  AnimatorLayerData.src (preparedRecord d m crossState sd')
  = AnimatorStatePlayData.mk (Some crossState) 0 (Some PlayState.Crossing)
      (Some sd')
  /\ AnimatorLayerData.layerState (crossFadingRecord d m crossState sd')
     = LayerState.CrossFading
  /\ AnimatorLayerData.srcPlayData (crossFadingRecord d m crossState sd')
     = AnimatorLayerData.destPlayData (crossFadingRecord d m crossState sd')
  /\ AnimatorLayerData.src (crossFadingRecord d m crossState sd')
     = AnimatorStatePlayData.mk (Some crossState) 0 (Some PlayState.Fading)
         (Some sd')
  /\ AnimatorLayerData.dest (crossFadingRecord d m crossState sd')
     = AnimatorStatePlayData.mk (Some crossState) 0 (Some PlayState.Fading)
         (Some sd').
Proof.
  intros Hrefs. destruct d as [dm rs rd ls mk p1 p2].
  cbn in Hrefs. destruct rs, rd; try congruence; cbn; repeat split.
Qed.

Lemma preparedRecord_dest d m crossState sd' :
  AnimatorLayerData.dest (preparedRecord d m crossState sd')
  = AnimatorStatePlayData.mk (Some crossState) 0 (Some PlayState.Crossing)
      (Some sd').
Proof. destruct d as [dm rs rd ls mk p1 p2]. destruct rd; reflexivity. Qed.

(** [crossFade] to a state that the name resolves to, on a layer that is
    [Playing]; [sdS] is the state data of the source record when the
    cross-curve data is prepared.  Its owners are distinct, the owners of
    the destination state are distinct and all are owners of [sdS]. *)
Lemma crossFade_on_playing :
  forall (a : Animator.t) (stateName : string)
         (normalizedTransitionDuration : Q) (layerIndex : Z)
         (normalizedTimeOffset : Q) (validLayerIndex : Z)
         (crossState s : AnimatorState.t) (d : AnimatorLayerData.t)
         (sdS : AnimatorStateData.t),
    _getAnimatorStateInfo stateName layerIndex a
    = Normal (validLayerIndex, Some crossState) ->
    layerDataAt (Z.to_nat validLayerIndex) a = Some d ->
    AnimatorLayerData.layerState d = LayerState.Playing ->
    AnimatorStatePlayData.state (AnimatorLayerData.src d) = Some s ->
    let sd' := stateDataOfName d stateName crossState in
    let n := List.length (AnimatorStateData.owners sdS) in
    (forall m,
       AnimatorStatePlayData.stateData
         (AnimatorLayerData.src (preparedRecord d m crossState sd'))
       = Some sdS) ->
    NoDup (AnimatorStateData.owners sdS) ->
    NoDup (AnimatorStateData.owners sd') ->
    (forall r, r ∈ AnimatorStateData.owners sd' ->
               r ∈ AnimatorStateData.owners sdS) ->
    exists a' m tr,
      crossFade stateName normalizedTransitionDuration layerIndex
        normalizedTimeOffset a
      = (a', Normal tt)
      /\ layerDataAt (Z.to_nat validLayerIndex) a'
         = Some (crossFadingRecord d m crossState sd')
      /\ transitionsOf a' (AnimatorState.instanceId s)
         !! List.length (transitionsOf a (AnimatorState.instanceId s))
         = Some tr
      /\ tr = configured crossState normalizedTransitionDuration
                normalizedTimeOffset
                (AnimatorStateTransition.mk
                   (Some (AnimatorState.instanceId crossState)) 0 0 0)
      /\ (forall other, other <> AnimatorState.instanceId s ->
            transitionsOf a' other = transitionsOf a other)
      /\ (forall stateId j tr0,
            transitionsOf a stateId !! j = Some tr0 ->
            transitionsOf a' stateId !! j = Some tr0)
      /\ Animator.animatorController a' = Animator.animatorController a
      /\ Animator.speed a' = Animator.speed a
      /\ List.length (Animator._crossCurveData a') = n
      /\ (forall k r, (k < n)%nat ->
            AnimatorStateData.owners sdS !! (n - 1 - k)%nat = Some r ->
            exists record,
              Animator._crossCurveData a' !! k = Some record
              /\ CrossCurveData.owner record = r
              /\ CrossCurveData.curCurveIndex record = Some (n - 1 - k)%nat
              /\ (forall j, AnimatorStateData.owners sd' !! j = Some r ->
                    CrossCurveData.nextCurveIndex record = Some j)
              /\ (r ∉ AnimatorStateData.owners sd' ->
                    CrossCurveData.nextCurveIndex record = None)).
Proof.
  intros a stateName duration layerIndex offset validLayerIndex crossState s d
    sdS Hinfo Hd Hplaying Hs sd' n HsdS Hnodup Hnodup' Hsub.
  set (i := Z.to_nat validLayerIndex) in *.
  destruct (getAnimatorStateData_stateDataOfName stateName crossState i a d Hd)
    as (a1 & m & Hrun1 & Hd1).
  fold sd' in Hrun1.
  pose proof (keeps_getAnimatorStateData_part Animator.stateTransitions
                (Animator.stateTransitions a) stateName crossState i
                ltac:(reflexivity) ltac:(reflexivity) a eq_refl) as Htrans1.
  rewrite Hrun1 in Htrans1. cbn [fst] in Htrans1.
  pose proof (keeps_getAnimatorStateData_part
                (fun q => (Animator.animatorController q, Animator.speed q))
                (Animator.animatorController a, Animator.speed a)
                stateName crossState i
                ltac:(reflexivity) ltac:(reflexivity) a eq_refl) as Hconfig1.
  rewrite Hrun1 in Hconfig1. cbn [fst] in Hconfig1.
  set (d2 := AnimatorLayerData.assign (AnimatorLayerData.destPlayData d)
               (AnimatorStatePlayData.mk (Some crossState) 0
                  (Some PlayState.Crossing) (Some sd'))
               (AnimatorLayerData.set_animatorStateDataMap m d)) in *.
  set (d4 := AnimatorLayerData.set_layerState LayerState.CrossFading d2) in *.
  set (d5 := preparedRecord d m crossState sd').
  set (d8 := crossFadingRecord d m crossState sd').
  assert (Hmark4 : AnimatorLayerData.set_crossCurveMark
                     (S (AnimatorLayerData.crossCurveMark d4)) d4 = d5).
  { subst d5 d4 d2. unfold preparedRecord.
    destruct d as [dm rs rd ls mk p1 p2]. destruct rd; reflexivity. }
  destruct (saveDefaultValues_returns sd' (withLayer i d2 a1))
    as (a3 & Hrun3 & Hlayers3).
  pose proof (keeps_saveDefaultValues_part Animator.stateTransitions
                (Animator.stateTransitions a) sd' ltac:(reflexivity)
                (withLayer i d2 a1) Htrans1) as Htrans3.
  rewrite Hrun3 in Htrans3. cbn [fst] in Htrans3.
  pose proof (keeps_saveDefaultValues_part
                (fun q => (Animator.animatorController q, Animator.speed q))
                (Animator.animatorController a, Animator.speed a)
                sd' ltac:(reflexivity) (withLayer i d2 a1) Hconfig1)
    as Hconfig3.
  rewrite Hrun3 in Hconfig3. cbn [fst] in Hconfig3.
  assert (Hd3 : layerDataAt i a3 = Some d2).
  { rewrite (layerDataAt_same_layers i _ _ Hlayers3).
    apply layerDataAt_withLayer. }
  set (a6 := Animator.set_crossCurveData []
               (withLayer i d5 (withLayer i d4 a3))).
  assert (Hd6 : layerDataAt i a6 = Some d5).
  { subst a6. apply (layerDataAt_withLayer i d5 (withLayer i d4 a3)). }
  destruct (prepareCrossFading_pairs i a6 d5 sdS sd' Hd6)
    as (a7 & Hrun7 & Hrest7 & Hlen7 & Hrecords7);
    [apply HsdS | subst d5; rewrite preparedRecord_dest; reflexivity
     | exact Hnodup | exact Hnodup' | exact Hsub | reflexivity |].
  assert (Hlayers7 : Animator._animatorLayersData a7
                     = Animator._animatorLayersData a6).
  { rewrite <- Hrest7. destruct a7. reflexivity. }
  assert (Htrans7 : Animator.stateTransitions a7 = Animator.stateTransitions a).
  { rewrite <- Htrans3.
    change (Animator.stateTransitions a3) with (Animator.stateTransitions a6).
    rewrite <- Hrest7. destruct a7. reflexivity. }
  assert (Hconfig7 : (Animator.animatorController a7, Animator.speed a7)
                     = (Animator.animatorController a, Animator.speed a)).
  { rewrite <- Hconfig3.
    change (Animator.animatorController a3, Animator.speed a3)
      with (Animator.animatorController a6, Animator.speed a6).
    rewrite <- Hrest7. destruct a7. reflexivity. }
  assert (Hd7 : layerDataAt i a7 = Some d5).
  { rewrite (layerDataAt_same_layers i _ _ Hlayers7). exact Hd6. }
  set (a8 := withLayer i d8 a7).
  set (sid := AnimatorState.instanceId s).
  set (old := transitionsOf a sid).
  set (created := AnimatorStateTransition.mk
                    (Some (AnimatorState.instanceId crossState)) 0 0 0).
  set (a9 := Animator.set_stateTransitions
               (<[ sid := old ++ [created] ]> (Animator.stateTransitions a8)) a8).
  assert (Hadd : addTransition s crossState a8
                 = (a9, Normal (StateTransition sid (List.length old)))).
  { unfold addTransition. fold sid.
    assert (Hold : transitionsOf a8 sid = old).
    { unfold transitionsOf, old. subst a8.
      cbn [withLayer Animator.stateTransitions Animator.set_animatorLayersData].
      rewrite Htrans7. reflexivity. }
    rewrite Hold. reflexivity. }
  assert (Hread9 : readTransition (StateTransition sid (List.length old)) a9
                   = Some created).
  { unfold readTransition, transitionsOf. subst a9.
    cbn [Animator.stateTransitions Animator.set_stateTransitions].
    rewrite lookup_insert_eq.
    cbv beta iota delta [default from_option Datatypes.id].
    rewrite lookup_app_r by reflexivity. rewrite Nat.sub_diag. reflexivity. }
  destruct (configureTransition_at (StateTransition sid (List.length old))
              crossState duration offset a9 created Hread9)
    as (a10 & Hrun10 & Hread10 & Hlayers10 & Hrecords10 & Hc10 & Hspeed10
        & Hothers10).
  exists a10, m, (configured crossState duration offset created).
  split.
  { unfold crossFade. unfold bind at 1. rewrite Hinfo. cbn [snd fst]. fold i.
    erewrite bind_normal by (apply getAnimatorLayerData_at; exact Hd).
    erewrite bind_normal by exact Hrun1.
    erewrite bind_normal by (apply writePlayData_at; exact Hd1).
    fold d2.
    erewrite bind_normal by exact Hrun3.
    rewrite Hplaying.
    erewrite bind_normal; [exact Hrun10|].
    unfold crossFadeCase.
    erewrite bind_normal by (apply writeLayer_at; exact Hd3).
    fold d4. unfold _clearCrossData at 1.
    erewrite bind_normal.
    2:{ erewrite bind_normal
          by (apply writeLayer_at; apply layerDataAt_withLayer).
        reflexivity. }
    rewrite Hmark4. fold a6.
    erewrite bind_normal by exact Hrun7.
    erewrite bind_normal by (apply writePlayData_at; exact Hd7).
    change (AnimatorLayerData.assign (AnimatorLayerData.srcPlayData d)
              (AnimatorStatePlayData.set_playState PlayState.Fading
                 (AnimatorLayerData.deref (AnimatorLayerData.srcPlayData d) d5))
              d5) with d8.
    fold a8. rewrite Hs. unfold bind at 1. cbn [defined ret].
    erewrite bind_normal by exact Hadd. reflexivity. }
  split.
  { rewrite (layerDataAt_same_layers i _ _ Hlayers10). subst a9 a8.
    apply (layerDataAt_withLayer i d8 a7). }
  split; [exact Hread10|]. split; [reflexivity|].
  assert (Hold9 : forall stateId,
            transitionsOf a9 stateId
            = if decide (sid = stateId) then old ++ [created]
              else transitionsOf a stateId).
  { intros stateId. unfold transitionsOf at 1. subst a9 a8.
    cbn [withLayer Animator.stateTransitions Animator.set_stateTransitions
         Animator.set_animatorLayersData].
    destruct (decide (sid = stateId)) as [->|Hsid].
    - rewrite lookup_insert_eq. reflexivity.
    - rewrite lookup_insert_ne by exact Hsid. rewrite Htrans7. reflexivity. }
  split.
  { intros other Hother. apply list_eq. intros j.
    rewrite Hothers10 by congruence. rewrite Hold9.
    destruct (decide (sid = other)) as [Heq|_]; [|reflexivity].
    exfalso. apply Hother. symmetry. exact Heq. }
  split.
  { intros stateId j tr0 Hj. rewrite Hothers10.
    - rewrite Hold9. destruct (decide (sid = stateId)) as [<-|_]; [|exact Hj].
      rewrite lookup_app_l by (apply (lookup_lt_Some _ _ _ Hj)). exact Hj.
    - intros [= <- <-]. apply lookup_lt_Some in Hj. fold sid old in Hj. lia. }
  injection Hconfig7 as Hc7 Hspeed7.
  split; [rewrite Hc10; exact Hc7|]. split; [rewrite Hspeed10; exact Hspeed7|].
  split; [rewrite Hrecords10; exact Hlen7|].
  intros k r Hk Hr. rewrite Hrecords10. apply (Hrecords7 k r Hk Hr).
Qed.

(** The case of a source record other than the destination record. *)
Lemma crossFade_from_playing :
  forall (a : Animator.t) (stateName : string)
         (normalizedTransitionDuration : Q) (layerIndex : Z)
         (normalizedTimeOffset : Q) (validLayerIndex : Z)
         (crossState s : AnimatorState.t) (d : AnimatorLayerData.t)
         (sd : AnimatorStateData.t),
    _getAnimatorStateInfo stateName layerIndex a
    = Normal (validLayerIndex, Some crossState) ->
    layerDataAt (Z.to_nat validLayerIndex) a = Some d ->
    AnimatorLayerData.layerState d = LayerState.Playing ->
    AnimatorLayerData.srcPlayData d <> AnimatorLayerData.destPlayData d ->
    AnimatorStatePlayData.state (AnimatorLayerData.src d) = Some s ->
    AnimatorStatePlayData.stateData (AnimatorLayerData.src d) = Some sd ->
    let sd' := stateDataOfName d stateName crossState in
    let n := List.length (AnimatorStateData.owners sd) in
    NoDup (AnimatorStateData.owners sd) ->
    NoDup (AnimatorStateData.owners sd') ->
    (forall r, r ∈ AnimatorStateData.owners sd' ->
               r ∈ AnimatorStateData.owners sd) ->
    exists a' d' tr,
      crossFade stateName normalizedTransitionDuration layerIndex
        normalizedTimeOffset a
      = (a', Normal tt)
      /\ layerDataAt (Z.to_nat validLayerIndex) a' = Some d'
      /\ AnimatorLayerData.layerState d' = LayerState.CrossFading
      /\ AnimatorLayerData.crossCurveMark d'
         = S (AnimatorLayerData.crossCurveMark d)
      /\ AnimatorLayerData.srcPlayData d' = AnimatorLayerData.srcPlayData d
      /\ AnimatorLayerData.destPlayData d' = AnimatorLayerData.destPlayData d
      /\ AnimatorLayerData.src d'
         = AnimatorStatePlayData.set_playState PlayState.Fading
             (AnimatorLayerData.src d)
      /\ AnimatorLayerData.dest d'
         = AnimatorStatePlayData.mk (Some crossState) 0
             (Some PlayState.Crossing) (Some sd')
      /\ transitionsOf a' (AnimatorState.instanceId s)
         !! List.length (transitionsOf a (AnimatorState.instanceId s))
         = Some tr
      /\ tr = configured crossState normalizedTransitionDuration
                normalizedTimeOffset
                (AnimatorStateTransition.mk
                   (Some (AnimatorState.instanceId crossState)) 0 0 0)
      /\ Animator.animatorController a' = Animator.animatorController a
      /\ Animator.speed a' = Animator.speed a
      /\ List.length (Animator._crossCurveData a') = n
      /\ (forall k r, (k < n)%nat ->
            AnimatorStateData.owners sd !! (n - 1 - k)%nat = Some r ->
            exists record,
              Animator._crossCurveData a' !! k = Some record
              /\ CrossCurveData.owner record = r
              /\ CrossCurveData.curCurveIndex record = Some (n - 1 - k)%nat
              /\ (forall j, AnimatorStateData.owners sd' !! j = Some r ->
                    CrossCurveData.nextCurveIndex record = Some j)
              /\ (r ∉ AnimatorStateData.owners sd' ->
                    CrossCurveData.nextCurveIndex record = None)).
Proof.
  intros a stateName duration layerIndex offset validLayerIndex crossState s d
    sd Hinfo Hd Hplaying Hrefs Hs Hsd sd' n Hnodup Hnodup' Hsub.
  destruct (crossFade_on_playing a stateName duration layerIndex offset
              validLayerIndex crossState s d sd Hinfo Hd Hplaying Hs)
    as (a' & m & tr & Hrun & Hd' & Htr & Hconfigured & _ & _ & Hc & Hspeed
        & Hlen & Hrecords); try assumption.
  { intros m.
    destruct (crossFadingRecord_distinct d m crossState
                (stateDataOfName d stateName crossState) Hrefs) as (-> & _).
    exact Hsd. }
  destruct (crossFadingRecord_distinct d m crossState sd' Hrefs)
    as (_ & Hstate8 & Hmark8 & Hsrcref8 & Hdestref8 & Hsrc8 & Hdest8).
  exists a', (crossFadingRecord d m crossState sd'), tr.
  repeat (split; [assumption|]). exact Hrecords.
Qed.

(** X15. [crossFade] to a state that the name resolves to, on a layer that
    is [Playing] from a source record other than its destination record,
    where the owners of the source state are distinct, the owners of the
    destination state are distinct and all are owners of the source state:
    the call returns; the layer is [CrossFading] with its generation mark
    raised by one; the source record is [Fading] and otherwise unchanged;
    the destination record is [Crossing] in the destination state at the
    frame time 0; a transition of the source state, added after the ones
    it had, is [configured] from the elapsed time 0; and the cross-curve
    data has one record per source owner, from the last to the first, with
    the index of the owner among the source owners and, when the owner is
    a destination owner, its index among them. *)
Theorem cross_fade_from_playing_pairs_curves :
  forall (a : Animator.t) (stateName : string)
         (normalizedTransitionDuration : Q) (layerIndex : Z)
         (normalizedTimeOffset : Q) (validLayerIndex : Z)
         (crossState s : AnimatorState.t) (d : AnimatorLayerData.t)
         (sd : AnimatorStateData.t),
    _getAnimatorStateInfo stateName layerIndex a
    = Normal (validLayerIndex, Some crossState) ->
    layerDataAt (Z.to_nat validLayerIndex) a = Some d ->
    AnimatorLayerData.layerState d = LayerState.Playing ->
    AnimatorLayerData.srcPlayData d <> AnimatorLayerData.destPlayData d ->
    AnimatorStatePlayData.state (AnimatorLayerData.src d) = Some s ->
    AnimatorStatePlayData.stateData (AnimatorLayerData.src d) = Some sd ->
    let sd' := stateDataOfName d stateName crossState in
    let n := List.length (AnimatorStateData.owners sd) in
    NoDup (AnimatorStateData.owners sd) ->
    NoDup (AnimatorStateData.owners sd') ->
    (forall r, r ∈ AnimatorStateData.owners sd' ->
               r ∈ AnimatorStateData.owners sd) ->
    exists a' d' tr,
      crossFade stateName normalizedTransitionDuration layerIndex
        normalizedTimeOffset a
      = (a', Normal tt)
      /\ layerDataAt (Z.to_nat validLayerIndex) a' = Some d'
      /\ AnimatorLayerData.layerState d' = LayerState.CrossFading
      /\ AnimatorLayerData.crossCurveMark d'
         = S (AnimatorLayerData.crossCurveMark d)
      /\ AnimatorLayerData.srcPlayData d' = AnimatorLayerData.srcPlayData d
      /\ AnimatorLayerData.destPlayData d' = AnimatorLayerData.destPlayData d
      /\ AnimatorLayerData.src d'
         = AnimatorStatePlayData.set_playState PlayState.Fading
             (AnimatorLayerData.src d)
      /\ AnimatorLayerData.dest d'
         = AnimatorStatePlayData.mk (Some crossState) 0
             (Some PlayState.Crossing) (Some sd')
      /\ transitionsOf a' (AnimatorState.instanceId s)
         !! List.length (transitionsOf a (AnimatorState.instanceId s))
         = Some tr
      /\ tr = configured crossState normalizedTransitionDuration
                normalizedTimeOffset
                (AnimatorStateTransition.mk
                   (Some (AnimatorState.instanceId crossState)) 0 0 0)
      /\ List.length (Animator._crossCurveData a') = n
      /\ (forall k r, (k < n)%nat ->
            AnimatorStateData.owners sd !! (n - 1 - k)%nat = Some r ->
            exists record,
              Animator._crossCurveData a' !! k = Some record
              /\ CrossCurveData.owner record = r
              /\ CrossCurveData.curCurveIndex record = Some (n - 1 - k)%nat
              /\ (forall j, AnimatorStateData.owners sd' !! j = Some r ->
                    CrossCurveData.nextCurveIndex record = Some j)
              /\ (r ∉ AnimatorStateData.owners sd' ->
                    CrossCurveData.nextCurveIndex record = None)).
Proof.
  intros a stateName duration layerIndex offset validLayerIndex crossState s d
    sd Hinfo Hd Hplaying Hrefs Hs Hsd sd' n Hnodup Hnodup' Hsub.
  destruct (crossFade_from_playing a stateName duration layerIndex offset
              validLayerIndex crossState s d sd Hinfo Hd Hplaying Hrefs Hs Hsd
              Hnodup Hnodup' Hsub)
    as (a' & d' & tr & Hrun & Hd' & Hstate & Hmark & Hsrcref & Hdestref & Hsrc
        & Hdest & Htr & Hconfigured & _ & _ & Hlen & Hrecords).
  exists a', d', tr. repeat (split; [assumption|]). exact Hrecords.
Qed.

End CrossFadeFromPlaying.

(** The layer of the scenario plays [Idle]; [crossFade("Walk", 0.5)]
    returns, the layer is [CrossFading], and the one record of the
    cross-curve data pairs the curve 0 of [Idle] with the curve 0 of
    [Walk]. *)
Lemma cross_fade_from_playing_pairs_curves_witness :
  exists a' d' record,
    @crossFade Scenario.collaborators "Walk" (1#2) 0 0 Scenario.playingIdle
    = (a', Normal tt)
    /\ layerDataAt 0 a' = Some d'
    /\ AnimatorLayerData.layerState d' = LayerState.CrossFading
    /\ Animator._crossCurveData a' !! 0%nat = Some record
    /\ CrossCurveData.curCurveIndex record = Some 0%nat
    /\ CrossCurveData.nextCurveIndex record = Some 0%nat.
Proof.
  destruct (@cross_fade_from_playing_pairs_curves Scenario.collaborators
              Scenario.playingIdle "Walk" (1#2) 0 0 0 Scenario.Walk
              Scenario.Idle (Scenario.layer0 Scenario.playingIdle)
              (Scenario.stateDataOf
                 (AnimatorLayerData.src (Scenario.layer0 Scenario.playingIdle))))
    as (a' & d' & tr & Hrun & Hd' & Hstate & _ & _ & _ & _ & _ & _ & _ & _
        & Hrecords).
  - reflexivity.
  - vm_compute. reflexivity.
  - vm_compute. reflexivity.
  - discriminate.
  - vm_compute. reflexivity.
  - vm_compute. reflexivity.
  - vm_compute. apply NoDup_singleton.
  - vm_compute. apply NoDup_singleton.
  - intros r Hr. vm_compute in Hr |- *. exact Hr.
  - destruct (Hrecords 0%nat (4%nat, 0%nat)) as (record & Hrecord & _ & Hcur
                                                  & Hnext & _).
    + vm_compute. lia.
    + vm_compute. reflexivity.
    + exists a', d', record. split; [exact Hrun|]. split; [exact Hd'|].
      split; [exact Hstate|]. split; [exact Hrecord|].
      split; [exact Hcur|]. apply Hnext. vm_compute. reflexivity.
Defined.


(** ** A cross-fade from its start to its end *)


Section WholeCrossFade.
Context {collaborators : Collaborators}.

(** On a controller with one layer a name resolves on the layer 0. *)
Lemma getAnimatorStateInfo_single_layer a layer stateName layerIndex
    validLayerIndex state :
  Animator.animatorController a = Some (AnimatorController.mk [layer]) ->
  _getAnimatorStateInfo stateName layerIndex a
  = Normal (validLayerIndex, Some state) ->
  Z.to_nat validLayerIndex = 0%nat.
Proof.
  intros Hc. unfold _getAnimatorStateInfo. rewrite Hc.
  cbn [AnimatorController.layers].
  destruct (layerIndex =? -1)%Z eqn:Hall.
  - simpl. unfold elementAt. simpl.
    destruct (findStateByName _ _); [|discriminate].
    intros [= <- _]. reflexivity.
  - unfold elementAt. destruct (layerIndex <? 0)%Z eqn:Hneg; [discriminate|].
    destruct (Z.to_nat layerIndex) as [|k] eqn:Hk.
    + simpl. intros [= <- _]. exact Hk.
    + simpl. discriminate.
Qed.


End WholeCrossFade.



(** ** A cross-fade started after another one ended *)

Section CrossFadeAfterPromotion.
Context {collaborators : Collaborators}.

(** [update] of the only layer, which is [CrossFading] from a state
    without transitions: the source record advances and nothing else
    happens. *)
Lemma update_without_transition deltaTime a layer d s :
  js_eq (Animator.speed a) 0 = false ->
  Animator.animatorController a = Some (AnimatorController.mk [layer]) ->
  layerDataAt 0 a = Some d ->
  AnimatorLayerData.layerState d = LayerState.CrossFading ->
  AnimatorStatePlayData.state (AnimatorLayerData.src d) = Some s ->
  transitionsOf a (AnimatorState.instanceId s) = [] ->
  update deltaTime a
  = (withLayer 0
       (AnimatorLayerData.assign (AnimatorLayerData.srcPlayData d)
          (advanced (deltaTime * Animator.speed a) (AnimatorLayerData.src d))
          d) a,
     Normal tt).
Proof.
  intros Hspeed Hc Hd Hstate Hs Hnone.
  apply (update_single_layer deltaTime a layer _ Hspeed Hc).
  unfold updateLayerAt.
  erewrite bind_normal by (apply getAnimatorLayerData_at; exact Hd).
  rewrite Hstate. cbn [LayerState_eqb].
  erewrite bind_normal.
  2:{ apply advanceSource_at; [exact Hd|]. intros _. rewrite Hs. eauto. }
  unfold _updateLayer, bind.
  unfold layersOf. cbn [withLayer Animator.animatorController
    Animator.set_animatorLayersData]. rewrite Hc.
  cbn [AnimatorController.layers lookup list_lookup defined ret].
  rewrite (layerDataAt_withLayer 0 _ a). cbn [defined ret].
  rewrite layerState_assign, Hstate, src_assign_src, state_advanced, Hs.
  cbn [defined ret get readTransition].
  unfold transitionsOf in *.
  cbn [withLayer Animator.stateTransitions Animator.set_animatorLayersData].
  rewrite Hnone. reflexivity.
Qed.

Lemma updates_without_transition deltaTimes :
  forall a layer d s,
    js_eq (Animator.speed a) 0 = false ->
    Animator.animatorController a = Some (AnimatorController.mk [layer]) ->
    layerDataAt 0 a = Some d ->
    AnimatorLayerData.layerState d = LayerState.CrossFading ->
    AnimatorStatePlayData.state (AnimatorLayerData.src d) = Some s ->
    transitionsOf a (AnimatorState.instanceId s) = [] ->
    exists a' d',
      updates deltaTimes a = (a', Normal tt)
      /\ Animator.scene a' = Animator.scene a
      /\ Animator.stateTransitions a' = Animator.stateTransitions a
      /\ layerDataAt 0 a' = Some d'
      /\ AnimatorLayerData.layerState d' = LayerState.CrossFading
      /\ AnimatorStatePlayData.state (AnimatorLayerData.src d') = Some s.
Proof.
  induction deltaTimes as [|deltaTime rest IH];
    intros a layer d s Hspeed Hc Hd Hstate Hs Hnone.
  - exists a, d. repeat split; assumption.
  - pose proof (update_without_transition deltaTime a layer d s Hspeed Hc Hd
                  Hstate Hs Hnone) as Hrun.
    set (d1 := AnimatorLayerData.assign _ _ d) in Hrun.
    set (a1 := withLayer 0 d1 a) in Hrun.
    destruct (IH a1 layer d1 s) as (a' & d' & Hrest & Hscene & Htrans & Hd'
                                     & Hstate' & Hs'); try assumption.
    + apply layerDataAt_withLayer.
    + subst d1. rewrite layerState_assign. exact Hstate.
    + subst d1. rewrite src_assign_src, state_advanced. exact Hs.
    + exists a', d'. cbn [updates]. erewrite bind_normal by exact Hrun.
      repeat split; assumption.
Qed.

(** X17. After a cross-fade ended, the source record of the layer is its
    destination record.  [crossFade] to another state then writes the
    destination state into the record that the layer plays from: the call
    returns, the layer is [CrossFading] with one record, marked [Fading],
    that holds the destination state for both sides, and the transition is
    added to the state that was playing.  When the destination state has
    no transition of its own, every run of [update] on an animator with
    this one layer returns without writing a transform and leaves the
    layer [CrossFading]: the cross-fade never ends. *)
Theorem cross_fade_after_promotion_stalls :
  forall (a : Animator.t) (layer : AnimatorControllerLayer.t)
         (stateName : string) (normalizedTransitionDuration : Q)
         (layerIndex : Z) (normalizedTimeOffset : Q) (validLayerIndex : Z)
         (crossState s : AnimatorState.t) (d : AnimatorLayerData.t)
         (deltaTimes : list Q),
    js_eq (Animator.speed a) 0 = false ->
    Animator.animatorController a = Some (AnimatorController.mk [layer]) ->
    _getAnimatorStateInfo stateName layerIndex a
    = Normal (validLayerIndex, Some crossState) ->
    layerDataAt 0 a = Some d ->
    AnimatorLayerData.layerState d = LayerState.Playing ->
    AnimatorLayerData.srcPlayData d = AnimatorLayerData.destPlayData d ->
    AnimatorStatePlayData.state (AnimatorLayerData.src d) = Some s ->
    AnimatorState.instanceId crossState <> AnimatorState.instanceId s ->
    transitionsOf a (AnimatorState.instanceId crossState) = [] ->
    let sd' := stateDataOfName d stateName crossState in
    NoDup (AnimatorStateData.owners sd') ->
    exists a1 d1 a2 d2,
      crossFade stateName normalizedTransitionDuration layerIndex
        normalizedTimeOffset a
      = (a1, Normal tt)
      /\ layerDataAt 0 a1 = Some d1
      /\ AnimatorLayerData.layerState d1 = LayerState.CrossFading
      /\ AnimatorLayerData.srcPlayData d1 = AnimatorLayerData.destPlayData d1
      /\ AnimatorLayerData.src d1
         = AnimatorStatePlayData.mk (Some crossState) 0 (Some PlayState.Fading)
             (Some sd')
      /\ transitionsOf a1 (AnimatorState.instanceId s)
         !! List.length (transitionsOf a (AnimatorState.instanceId s))
         = Some (configured crossState normalizedTransitionDuration
                   normalizedTimeOffset
                   (AnimatorStateTransition.mk
                      (Some (AnimatorState.instanceId crossState)) 0 0 0))
      /\ transitionsOf a1 (AnimatorState.instanceId crossState) = []
      /\ updates deltaTimes a1 = (a2, Normal tt)
      /\ Animator.scene a2 = Animator.scene a1
      /\ layerDataAt 0 a2 = Some d2
      /\ AnimatorLayerData.layerState d2 = LayerState.CrossFading.
Proof.
  intros a layer stateName duration layerIndex offset validLayerIndex
    crossState s d deltaTimes Hspeed Hc Hinfo Hd Hplaying Hrefs Hs Hids Hnone
    sd' Hnodup.
  pose proof (getAnimatorStateInfo_single_layer a layer stateName layerIndex
                validLayerIndex crossState Hc Hinfo) as Hzero.
  destruct (crossFade_on_playing a stateName duration layerIndex offset
              validLayerIndex crossState s d sd' Hinfo)
    as (a1 & m & tr & Hrun1 & Hd1 & Htr1 & -> & Hothers1 & _ & Hc1 & Hspeed1
        & _);
    try assumption.
  { rewrite Hzero. exact Hd. }
  { intros m.
    destruct (crossFadingRecord_aliased d m crossState
                (stateDataOfName d stateName crossState) Hrefs) as (-> & _).
    reflexivity. }
  { intros r Hr. exact Hr. }
  rewrite Hzero in Hd1.
  destruct (crossFadingRecord_aliased d m crossState sd' Hrefs)
    as (_ & Hstate8 & Hrefs8 & Hsrc8 & _).
  destruct (updates_without_transition deltaTimes a1 layer
              (crossFadingRecord d m crossState sd') crossState)
    as (a2 & d2 & Hrun2 & Hscene2 & _ & Hd2 & Hstate2 & _).
  - rewrite Hspeed1. exact Hspeed.
  - rewrite Hc1. exact Hc.
  - exact Hd1.
  - exact Hstate8.
  - rewrite Hsrc8. reflexivity.
  - rewrite (Hothers1 _ Hids). exact Hnone.
  - exists a1, (crossFadingRecord d m crossState sd'), a2, d2.
    split; [exact Hrun1|]. split; [exact Hd1|]. split; [exact Hstate8|].
    split; [exact Hrefs8|]. split; [exact Hsrc8|].
    split; [exact Htr1|].
    split; [rewrite (Hothers1 _ Hids); exact Hnone|].
    split; [exact Hrun2|]. split; [exact Hscene2|].
    split; [exact Hd2 | exact Hstate2].
Qed.


End CrossFadeAfterPromotion.

(** The third scenario: the layer plays [Walk] after the cross-fade from
    [Idle] ended; [crossFade("Run", 0.5)] returns, and four updates of
    250 ms later the layer is still [CrossFading] and the scene is as
    [crossFade] left it. *)
Lemma cross_fade_after_promotion_stalls_witness :
  exists a1 d1 a2 d2,
    @crossFade Scenario.collaborators "Run" (1#2) 0 0
      ChainScenario.playingWalk
    = (a1, Normal tt)
    /\ layerDataAt 0 a1 = Some d1
    /\ AnimatorStatePlayData.state (AnimatorLayerData.src d1)
       = Some ChainScenario.Run
    /\ @updates Scenario.collaborators [250; 250; 250; 250] a1
       = (a2, Normal tt)
    /\ Animator.scene a2 = Animator.scene a1
    /\ layerDataAt 0 a2 = Some d2
    /\ AnimatorLayerData.layerState d2 = LayerState.CrossFading.
Proof.
  destruct (@cross_fade_after_promotion_stalls Scenario.collaborators
              ChainScenario.playingWalk ChainScenario.layer "Run" (1#2) 0 0 0
              ChainScenario.Run Scenario.Walk
              (Scenario.layer0 ChainScenario.playingWalk)
              [250; 250; 250; 250])
    as (a1 & d1 & a2 & d2 & Hrun1 & Hd1 & _ & _ & Hsrc1 & _ & _ & Hrun2
        & Hscene2 & Hd2 & Hstate2);
    [first [ vm_compute; reflexivity
           | vm_compute; discriminate
           | vm_compute; apply NoDup_singleton ] ..|].
  exists a1, d1, a2, d2. split; [exact Hrun1|]. split; [exact Hd1|].
  split; [rewrite Hsrc1; reflexivity|]. split; [exact Hrun2|].
  split; [exact Hscene2|]. split; [exact Hd2 | exact Hstate2].
Defined.



(** ** The values of a cross-fade from a fixed pose *)

Section FixedPoseValues.
Context {collaborators : Collaborators}.





End FixedPoseValues.


(** ** The default values that [crossFade] saves *)




Section SavedDefaults.
Context {collaborators : Collaborators}.





End SavedDefaults.





(** * Properties of the render pipeline and of the scene *)

(** ** Arrays of objects *)

Section ArrayFacts.
Context {A : Type} `{EqDecision A}.

Lemma indexOfFrom_absent from (x : A) l :
  x ∉ l -> JsArray.indexOfFrom from x l = (-1)%Z.
Proof.
  revert from. induction l as [|y l IH]; intros from Hx; [reflexivity|].
  apply not_elem_of_cons in Hx as [Hne Hx]. cbn [JsArray.indexOfFrom].
  destruct (decide (y = x)) as [->|_]; [contradiction|]. apply IH, Hx.
Qed.

Lemma indexOfFrom_first from (x : A) l1 l2 :
  x ∉ l1 ->
  JsArray.indexOfFrom from x (l1 ++ x :: l2)
  = (from + Z.of_nat (List.length l1))%Z.
Proof.
  revert from. induction l1 as [|y l1 IH]; intros from Hx.
  - cbn. destruct (decide (x = x)); [lia | contradiction].
  - apply not_elem_of_cons in Hx as [Hne Hx]. cbn [app JsArray.indexOfFrom].
    destruct (decide (y = x)) as [->|_]; [contradiction|].
    rewrite IH by exact Hx. cbn [List.length]. lia.
Qed.

Lemma indexOfFrom_present from (x : A) l :
  x ∈ l ->
  exists l1 l2,
    l = l1 ++ x :: l2 /\ (x ∉ l1)
    /\ JsArray.indexOfFrom from x l = (from + Z.of_nat (List.length l1))%Z.
Proof.
  revert from. induction l as [|y l IH]; intros from Hx.
  - apply elem_of_nil in Hx. contradiction.
  - destruct (decide (y = x)) as [->|Hne].
    + exists [], l. split; [reflexivity|]. split; [apply not_elem_of_nil|].
      cbn. destruct (decide (x = x)); [lia | contradiction].
    + apply elem_of_cons in Hx as [->|Hx]; [contradiction|].
      destruct (IH (from + 1)%Z Hx) as (l1 & l2 & -> & Hl1 & Hindex).
      exists (y :: l1), l2. split; [reflexivity|].
      split; [apply not_elem_of_cons; split; [congruence | exact Hl1]|].
      cbn [app JsArray.indexOfFrom].
      destruct (decide (y = x)); [contradiction|].
      rewrite Hindex. cbn [List.length]. lia.
Qed.

Lemma indexOf_absent_iff (x : A) l : JsArray.indexOf x l = (-1)%Z <-> x ∉ l.
Proof.
  split; [|apply indexOfFrom_absent].
  intros Hindex Hx. unfold JsArray.indexOf in Hindex.
  destruct (indexOfFrom_present 0 x l Hx) as (l1 & l2 & _ & _ & Hfound).
  lia.
Qed.

(** [splice(-1, 1)] removes the last element. *)
Lemma splice_last (l : list A) : JsArray.splice (-1) 1 l = removelast l.
Proof.
  unfold JsArray.splice. cbn [Z.ltb Z.compare].
  destruct l as [|x l]; [reflexivity|].
  set (k := x :: l). assert (Hlen : (0 < List.length k)%nat) by (cbn; lia).
  clearbody k.
  replace (Z.max (Z.of_nat (List.length k) + -1) 0)
    with (Z.of_nat (List.length k) - 1)%Z by lia.
  replace (Z.min (Z.max 1 0)
             (Z.of_nat (List.length k) - (Z.of_nat (List.length k) - 1)))
    with 1%Z by lia.
  replace (Z.to_nat (Z.of_nat (List.length k) - 1 + 1)) with (List.length k)
    by lia.
  replace (Z.to_nat (Z.of_nat (List.length k) - 1))
    with (Nat.pred (List.length k)) by lia.
  rewrite drop_all, app_nil_r. symmetry. apply removelast_firstn_len.
Qed.

(** [splice(i, 1)] at the index of an element removes that element. *)
Lemma splice_at (l1 : list A) x l2 :
  JsArray.splice (Z.of_nat (List.length l1)) 1 (l1 ++ x :: l2) = l1 ++ l2.
Proof.
  unfold JsArray.splice.
  destruct (Z.ltb_spec (Z.of_nat (List.length l1)) 0) as [Hneg|_]; [lia|].
  rewrite length_app. cbn [List.length].
  replace (Z.min (Z.of_nat (List.length l1))
             (Z.of_nat (List.length l1 + S (List.length l2))))
    with (Z.of_nat (List.length l1)) by lia.
  replace (Z.min (Z.max 1 0)
             (Z.of_nat (List.length l1 + S (List.length l2))
              - Z.of_nat (List.length l1)))
    with 1%Z by lia.
  rewrite Nat2Z.id.
  replace (Z.to_nat (Z.of_nat (List.length l1) + 1))
    with (List.length l1 + 1)%nat by lia.
  rewrite take_app_length, drop_app_add. reflexivity.
Qed.

(** [splice] keeps the elements that it leaves in their order. *)
Lemma splice_sublist start deleteCount (l : list A) :
  sublist (JsArray.splice start deleteCount l) l.
Proof.
  unfold JsArray.splice.
  set (len := Z.of_nat (List.length l)).
  set (actualStart := if (start <? 0)%Z then _ else _).
  assert (Hstart : (actualStart <= len)%Z).
  { subst actualStart. destruct (start <? 0)%Z eqn:Hneg; [|lia].
    apply Z.ltb_lt in Hneg. lia. }
  set (first := Z.to_nat actualStart).
  set (finish := Z.to_nat _).
  assert (Hle : (first <= finish)%nat) by (subst first finish; lia).
  rewrite <- (take_drop first l) at 3.
  apply sublist_app; [reflexivity|].
  replace finish with (first + (finish - first))%nat by lia.
  rewrite <- drop_drop. apply sublist_drop.
Qed.

End ArrayFacts.

(** ** The render passes of a pipeline *)

Section RenderPasses.
Variable name : RenderPass -> string.
Variable priority : RenderPass -> Q.

Local Abbreviation byPriority :=
  (fun p1 p2 : RenderPass => priority p1 - priority p2).

Lemma insertSorted_perm x l :
  JsArray.insertSorted byPriority x l ≡ₚ x :: l.
Proof.
  induction l as [|y l IH]; [reflexivity|]. cbn [JsArray.insertSorted].
  destruct (js_gt _ _); [reflexivity|].
  rewrite IH. apply Permutation_swap.
Qed.

Lemma insertSorted_ordered x l :
  BasicRenderPipeline.ordered priority l ->
  BasicRenderPipeline.ordered priority (JsArray.insertSorted byPriority x l).
Proof.
  induction l as [|y l IH]; intros Hl.
  - cbn. split; [constructor | exact I].
  - destruct Hl as [Hy Hl]. cbn [JsArray.insertSorted].
    destruct (js_gt (byPriority y x) 0) eqn:Hgt.
    + apply js_gt_spec in Hgt. cbn beta in Hgt.
      split; [|split; assumption].
      constructor; [lra|].
      eapply Forall_impl; [exact Hy|]. cbn. intros later Hlater. lra.
    + apply js_gt_false in Hgt. cbn beta in Hgt.
      split; [|apply IH, Hl].
      rewrite insertSorted_perm. constructor; [lra | exact Hy].
Qed.

Lemma sort_from_ordered l :
  forall sorted,
    BasicRenderPipeline.ordered priority sorted ->
    BasicRenderPipeline.ordered priority
      (fold_left (fun sorted x => JsArray.insertSorted byPriority x sorted)
         l sorted).
Proof.
  induction l as [|x l IH]; intros sorted Hsorted; [exact Hsorted|].
  cbn [fold_left]. apply IH, insertSorted_ordered, Hsorted.
Qed.

Lemma sort_from_perm l :
  forall sorted,
    fold_left (fun sorted x => JsArray.insertSorted byPriority x sorted)
      l sorted
    ≡ₚ sorted ++ l.
Proof.
  induction l as [|x l IH]; intros sorted.
  - rewrite app_nil_r. reflexivity.
  - cbn [fold_left]. rewrite IH, insertSorted_perm.
    apply Permutation_middle.
Qed.

(** Where the insertion puts an element of an ordered array. *)
Lemma insertSorted_split x l :
  BasicRenderPipeline.ordered priority l ->
  exists before after,
    l = before ++ after
    /\ JsArray.insertSorted byPriority x l = before ++ x :: after
    /\ Forall (fun earlier => priority earlier <= priority x) before
    /\ Forall (fun later => priority x < priority later) after.
Proof.
  induction l as [|y l IH]; intros Hl.
  - exists [], []. repeat split; constructor.
  - destruct Hl as [Hy Hl]. cbn [JsArray.insertSorted].
    destruct (js_gt (byPriority y x) 0) eqn:Hgt.
    + apply js_gt_spec in Hgt. cbn beta in Hgt.
      exists [], (y :: l). split; [reflexivity|]. split; [reflexivity|].
      split; [constructor|]. constructor; [lra|].
      eapply Forall_impl; [exact Hy|]. cbn. intros later Hlater. lra.
    + apply js_gt_false in Hgt. cbn beta in Hgt.
      destruct (IH Hl) as (before & after & -> & -> & Hbefore & Hafter).
      exists (y :: before), after. split; [reflexivity|].
      split; [reflexivity|]. split; [constructor; [lra | exact Hbefore]|].
      exact Hafter.
Qed.

Lemma ordered_app l1 l2 :
  BasicRenderPipeline.ordered priority (l1 ++ l2) ->
  BasicRenderPipeline.ordered priority l1
  /\ BasicRenderPipeline.ordered priority l2
  /\ Forall (fun earlier =>
               Forall (fun later => priority earlier <= priority later) l2)
       l1.
Proof.
  induction l1 as [|x l1 IH]; intros Hl.
  - split; [exact I|]. split; [exact Hl | constructor].
  - destruct Hl as [Hx Hl]. apply Forall_app in Hx as [Hx1 Hx2].
    destruct (IH Hl) as (H1 & H2 & H12).
    split; [split; assumption|]. split; [exact H2|].
    constructor; assumption.
Qed.

Lemma Forall_sublist_of {A} (P : A -> Prop) (l' l : list A) :
  sublist l' l -> Forall P l -> Forall P l'.
Proof.
  induction 1 as [|x l1 l2 Hsub IH|x l1 l2 Hsub IH]; intros Hl.
  - constructor.
  - apply Forall_cons in Hl as [Hx Hl]. constructor; [exact Hx | apply IH, Hl].
  - apply Forall_cons in Hl as [_ Hl]. apply IH, Hl.
Qed.

Lemma ordered_sublist l' l :
  sublist l' l ->
  BasicRenderPipeline.ordered priority l ->
  BasicRenderPipeline.ordered priority l'.
Proof.
  induction 1 as [|x l1 l2 Hsub IH|x l1 l2 Hsub IH]; intros Hl.
  - exact I.
  - destruct Hl as [Hx Hl]. split; [|apply IH, Hl].
    eapply Forall_sublist_of; eassumption.
  - destruct Hl as [_ Hl]. apply IH, Hl.
Qed.

(** The sort leaves an ordered array as it is. *)
Lemma sort_from_ordered_id l :
  forall sorted,
    BasicRenderPipeline.ordered priority (sorted ++ l) ->
    fold_left (fun sorted x => JsArray.insertSorted byPriority x sorted)
      l sorted
    = sorted ++ l.
Proof.
  induction l as [|x l IH]; intros sorted Hl.
  - rewrite app_nil_r. reflexivity.
  - cbn [fold_left].
    assert (Hinsert : JsArray.insertSorted byPriority x sorted = sorted ++ [x]).
    { destruct (ordered_app sorted (x :: l) Hl) as (Hsorted & _ & Hcross).
      clear IH Hl. induction sorted as [|y sorted IHs]; [reflexivity|].
      apply Forall_cons in Hcross as [Hy Hcross].
      apply Forall_cons in Hy as [Hyx _].
      cbn [JsArray.insertSorted app].
      replace (js_gt (byPriority y x) 0) with false
        by (symmetry; apply js_gt_false; cbn beta; lra).
      rewrite IHs; [reflexivity | apply Hsorted | exact Hcross]. }
    rewrite Hinsert, IH; rewrite <- app_assoc; [reflexivity | exact Hl].
Qed.

Lemma sort_push x l :
  BasicRenderPipeline.ordered priority l ->
  JsArray.sort byPriority (l ++ [x]) = JsArray.insertSorted byPriority x l.
Proof.
  intros Hl. unfold JsArray.sort. rewrite fold_left_app.
  rewrite (sort_from_ordered_id l []) by exact Hl. reflexivity.
Qed.

(** X21. [addRenderPass] puts a pass into an array that is in the order
    of the priorities behind every pass of a lower or of the same
    priority and before every pass of a higher priority, and leaves the
    order of the others as it was; [pass] is the pass that the call
    pushes, the argument or the one created for a name. *)
Theorem addRenderPass_places_by_priority :
  forall (p : BasicRenderPipeline.t) (nameOrPass : NameOrPass)
         (created pass : RenderPass),
    match nameOrPass with
    | Name _ => created = pass
    | Pass given => given = pass
    | Neither => False
    end ->
    BasicRenderPipeline.ordered priority
      (BasicRenderPipeline._renderPassArray p) ->
    exists before after,
      BasicRenderPipeline._renderPassArray p = before ++ after
      /\ BasicRenderPipeline._renderPassArray
           (BasicRenderPipeline.addRenderPass priority nameOrPass created p)
         = before ++ pass :: after
      /\ Forall (fun earlier => priority earlier <= priority pass) before
      /\ Forall (fun later => priority pass < priority later) after.
Proof.
  intros p nameOrPass created pass Hpass Hordered.
  destruct (insertSorted_split pass _ Hordered)
    as (before & after & Harray & Hinsert & Hbefore & Hafter).
  exists before, after. split; [exact Harray|].
  split; [|split; assumption].
  unfold BasicRenderPipeline.addRenderPass.
  cbn [BasicRenderPipeline._renderPassArray
       BasicRenderPipeline.set_renderPassArray].
  destruct nameOrPass as [n|given|]; [subst created|subst given|contradiction];
    rewrite <- Hinsert; apply sort_push, Hordered.
Qed.

(** X22. The array of passes is always in the order of the priorities:
    the constructor and every call of [addRenderPass] leave it ordered,
    with the same passes as before and the pushed one, and
    [removeRenderPass] keeps it ordered. *)
Theorem render_passes_stay_ordered :
  (forall defaultPass,
     BasicRenderPipeline._renderPassArray
       (BasicRenderPipeline.new priority defaultPass)
     = [defaultPass])
  /\ (forall nameOrPass created p,
        BasicRenderPipeline.ordered priority
          (BasicRenderPipeline._renderPassArray
             (BasicRenderPipeline.addRenderPass priority nameOrPass created p))
        /\ BasicRenderPipeline._renderPassArray
             (BasicRenderPipeline.addRenderPass priority nameOrPass created p)
           ≡ₚ BasicRenderPipeline._renderPassArray p
              ++ match nameOrPass with
                 | Name _ => [created]
                 | Pass pass => [pass]
                 | Neither => []
                 end)
  /\ (forall nameOrPass p,
        BasicRenderPipeline.ordered priority
          (BasicRenderPipeline._renderPassArray p) ->
        BasicRenderPipeline.ordered priority
          (BasicRenderPipeline._renderPassArray
             (BasicRenderPipeline.removeRenderPass name nameOrPass p))).
Proof.
  split; [reflexivity|]. split.
  - intros nameOrPass created p. unfold BasicRenderPipeline.addRenderPass.
    cbn [BasicRenderPipeline._renderPassArray
         BasicRenderPipeline.set_renderPassArray].
    split; [apply (sort_from_ordered _ []); exact I|].
    unfold JsArray.sort. rewrite (sort_from_perm _ []). cbn [app].
    destruct nameOrPass; [reflexivity | reflexivity |].
    rewrite app_nil_r. reflexivity.
  - intros nameOrPass p Hordered. unfold BasicRenderPipeline.removeRenderPass.
    destruct (match nameOrPass with
              | Name n => BasicRenderPipeline.getRenderPass name n p
              | Pass pass => Some pass
              | Neither => None
              end) as [pass|]; [|exact Hordered].
    cbn [BasicRenderPipeline._renderPassArray
         BasicRenderPipeline.set_renderPassArray].
    refine (ordered_sublist _ _ _ Hordered). apply splice_sublist.
Qed.

(** X23. [removeRenderPass] with a pass that is not in the array removes
    the last pass of the array: [indexOf] answers [-1], and
    [splice(-1, 1)] counts from the end. *)
Theorem removeRenderPass_of_absent_pass_removes_last :
  forall (p : BasicRenderPipeline.t) (pass : RenderPass),
    pass ∉ BasicRenderPipeline._renderPassArray p ->
    BasicRenderPipeline._renderPassArray
      (BasicRenderPipeline.removeRenderPass name (Pass pass) p)
    = removelast (BasicRenderPipeline._renderPassArray p).
Proof.
  intros p pass Habsent. unfold BasicRenderPipeline.removeRenderPass.
  cbn [BasicRenderPipeline._renderPassArray
       BasicRenderPipeline.set_renderPassArray].
  unfold JsArray.indexOf. rewrite indexOfFrom_absent by exact Habsent.
  apply splice_last.
Qed.

Lemma firstNamed_spec n passes :
  match BasicRenderPipeline.firstNamed name n passes with
  | Some pass =>
      exists before after,
        passes = before ++ pass :: after
        /\ name pass = n
        /\ Forall (fun earlier => name earlier <> n) before
  | None => Forall (fun pass => name pass <> n) passes
  end.
Proof.
  induction passes as [|pass passes IH]; [constructor|].
  cbn [BasicRenderPipeline.firstNamed].
  destruct (String.eqb_spec (name pass) n) as [Heq|Hne].
  - exists [], passes. split; [reflexivity|]. split; [exact Heq | constructor].
  - destruct (BasicRenderPipeline.firstNamed name n passes) as [found|].
    + destruct IH as (before & after & -> & Hname & Hbefore).
      exists (pass :: before), after. split; [reflexivity|].
      split; [exact Hname|]. constructor; assumption.
    + constructor; assumption.
Qed.

(** X24. [removeRenderPass] with a name removes the first pass of the
    array that has the name, and no other; when no pass has the name the
    pipeline is unchanged.  [getRenderPass] answers that first pass. *)
Theorem removeRenderPass_by_name_removes_first :
  forall (p : BasicRenderPipeline.t) (n : string),
    match BasicRenderPipeline.getRenderPass name n p with
    | Some pass =>
        exists before after,
          BasicRenderPipeline._renderPassArray p = before ++ pass :: after
          /\ name pass = n
          /\ Forall (fun earlier => name earlier <> n) before
          /\ BasicRenderPipeline.removeRenderPass name (Name n) p
             = BasicRenderPipeline.set_renderPassArray (before ++ after) p
    | None =>
        Forall (fun pass => name pass <> n)
          (BasicRenderPipeline._renderPassArray p)
        /\ BasicRenderPipeline.removeRenderPass name (Name n) p = p
    end.
Proof.
  intros p n. unfold BasicRenderPipeline.removeRenderPass.
  pose proof (firstNamed_spec n (BasicRenderPipeline._renderPassArray p))
    as Hfirst.
  unfold BasicRenderPipeline.getRenderPass.
  destruct (BasicRenderPipeline.firstNamed name n _) as [pass|];
    [|split; [exact Hfirst | reflexivity]].
  destruct Hfirst as (before & after & Harray & Hname & Hbefore).
  exists before, after. split; [exact Harray|]. split; [exact Hname|].
  split; [exact Hbefore|]. rewrite Harray.
  assert (Habsent : pass ∉ before).
  { intros Hin. rewrite Forall_forall in Hbefore.
    apply (Hbefore pass Hin), Hname. }
  unfold JsArray.indexOf. rewrite indexOfFrom_first by exact Habsent.
  rewrite Z.add_0_l, splice_at. reflexivity.
Qed.

(** X25. A pass that is added to an ordered array which does not hold it
    and removed again leaves the pipeline as it was. *)
Theorem removeRenderPass_undoes_addRenderPass :
  forall (p : BasicRenderPipeline.t) (pass created : RenderPass),
    BasicRenderPipeline.ordered priority
      (BasicRenderPipeline._renderPassArray p) ->
    pass ∉ BasicRenderPipeline._renderPassArray p ->
    BasicRenderPipeline.removeRenderPass name (Pass pass)
      (BasicRenderPipeline.addRenderPass priority (Pass pass) created p)
    = p.
Proof.
  intros p pass created Hordered Habsent.
  destruct (insertSorted_split pass _ Hordered)
    as (before & after & Harray & Hinsert & _ & _).
  unfold BasicRenderPipeline.removeRenderPass,
    BasicRenderPipeline.addRenderPass.
  cbn [BasicRenderPipeline._renderPassArray
       BasicRenderPipeline.set_renderPassArray
       BasicRenderPipeline._defaultPass].
  rewrite sort_push by exact Hordered. rewrite Hinsert.
  rewrite Harray in Habsent. apply not_elem_of_app in Habsent as [Hb _].
  unfold JsArray.indexOf. rewrite indexOfFrom_first by exact Hb.
  rewrite Z.add_0_l, splice_at, <- Harray. destruct p. reflexivity.
Qed.

End RenderPasses.


(** ** The cameras and the root entities of a scene *)

Section SceneFacts.
Variable name : Entity -> string.
Variable findByName : Entity -> string -> option Entity.
Variable _findChildByName : Entity -> string -> option Entity.

Lemma attachRenderCamera_absent (s : EngineScene.t) (camera : Camera) :
  camera ∉ EngineScene._activeCameras s ->
  EngineScene._attachRenderCamera camera s
  = EngineScene.set_activeCameras (EngineScene._activeCameras s ++ [camera]) s.
Proof.
  intros Hout. unfold EngineScene._attachRenderCamera, JsArray.indexOf.
  rewrite indexOfFrom_absent by exact Hout. reflexivity.
Qed.

Lemma attachRenderCamera_present (s : EngineScene.t) (camera : Camera) :
  camera ∈ EngineScene._activeCameras s ->
  EngineScene._attachRenderCamera camera s
  = EngineScene.warn "Camera already attached." s.
Proof.
  intros Hin. unfold EngineScene._attachRenderCamera.
  destruct (Z.eqb_spec (JsArray.indexOf camera (EngineScene._activeCameras s))
              (-1)) as [Habsent|_]; [|reflexivity].
  apply indexOf_absent_iff in Habsent. contradiction.
Qed.

(** X26. [_attachRenderCamera] attaches a camera once: afterwards the
    camera is among the active cameras; a camera that was not attached
    goes to the end of the array and nothing is logged; for a camera that
    was attached the array is unchanged and a warning is logged; an array
    without duplicates stays without duplicates. *)
Theorem attachRenderCamera_attaches_once :
  forall (s : EngineScene.t) (camera : Camera),
    let s' := EngineScene._attachRenderCamera camera s in
    camera ∈ EngineScene._activeCameras s'
    /\ (camera ∉ EngineScene._activeCameras s ->
        s' = EngineScene.set_activeCameras
               (EngineScene._activeCameras s ++ [camera]) s)
    /\ (camera ∈ EngineScene._activeCameras s ->
        s' = EngineScene.warn "Camera already attached." s)
    /\ (NoDup (EngineScene._activeCameras s) ->
        NoDup (EngineScene._activeCameras s')).
Proof.
  intros s camera s'. subst s'.
  destruct (decide (camera ∈ EngineScene._activeCameras s)) as [Hin|Hout].
  - rewrite (attachRenderCamera_present s camera Hin).
    cbn [EngineScene._activeCameras EngineScene.warn].
    split; [exact Hin|]. split; [contradiction|].
    split; [reflexivity|]. intros Hnodup. exact Hnodup.
  - rewrite (attachRenderCamera_absent s camera Hout).
    cbn [EngineScene._activeCameras EngineScene.set_activeCameras].
    split; [apply elem_of_app; right; apply list_elem_of_singleton; reflexivity|].
    split; [reflexivity|]. split; [contradiction|].
    intros Hnodup. apply NoDup_app. split; [exact Hnodup|].
    split; [|apply NoDup_singleton].
    intros x Hx Hx'. apply list_elem_of_singleton in Hx'. subst x.
    contradiction.
Qed.

(** X27. [_detachRenderCamera] removes the first occurrence of a camera
    and nothing else, and leaves the scene as it is for a camera that is
    not attached (no element is removed from the end of the array); in
    an array without duplicates the camera is gone afterwards, and a
    detach undoes the attach of a camera that was not attached. *)
Theorem detachRenderCamera_removes_camera :
  forall (s : EngineScene.t) (camera : Camera),
    (camera ∉ EngineScene._activeCameras s ->
     EngineScene._detachRenderCamera camera s = s
     /\ EngineScene._detachRenderCamera camera
          (EngineScene._attachRenderCamera camera s)
        = s)
    /\ (forall before after,
          EngineScene._activeCameras s = before ++ camera :: after ->
          camera ∉ before ->
          EngineScene._detachRenderCamera camera s
          = EngineScene.set_activeCameras (before ++ after) s)
    /\ (NoDup (EngineScene._activeCameras s) ->
        camera ∉ EngineScene._activeCameras
                   (EngineScene._detachRenderCamera camera s)).
Proof.
  intros s camera.
  assert (Hfound : forall before after,
            EngineScene._activeCameras s = before ++ camera :: after ->
            camera ∉ before ->
            EngineScene._detachRenderCamera camera s
            = EngineScene.set_activeCameras (before ++ after) s).
  { intros before after Hcameras Hbefore.
    unfold EngineScene._detachRenderCamera, JsArray.indexOf.
    rewrite Hcameras, indexOfFrom_first by exact Hbefore.
    rewrite Z.add_0_l.
    destruct (Z.eqb_spec (Z.of_nat (List.length before)) (-1)) as [Hneg|_];
      [lia|].
    cbn [negb]. rewrite splice_at. reflexivity. }
  assert (Habsent : camera ∉ EngineScene._activeCameras s ->
                    EngineScene._detachRenderCamera camera s = s).
  { intros Hout. unfold EngineScene._detachRenderCamera, JsArray.indexOf.
    rewrite indexOfFrom_absent by exact Hout. reflexivity. }
  split; [|split; [exact Hfound|]].
  - intros Hout. split; [apply Habsent, Hout|].
    rewrite (attachRenderCamera_absent s camera Hout).
    unfold EngineScene._detachRenderCamera, JsArray.indexOf.
    cbn [EngineScene._activeCameras EngineScene.set_activeCameras].
    rewrite indexOfFrom_first by exact Hout. rewrite Z.add_0_l.
    destruct (Z.eqb_spec (Z.of_nat (List.length (EngineScene._activeCameras s)))
                (-1)) as [Hneg|_]; [lia|].
    cbn [negb]. rewrite splice_at, app_nil_r. destruct s. reflexivity.
  - intros Hnodup.
    destruct (decide (camera ∈ EngineScene._activeCameras s)) as [Hin|Hout];
      [|rewrite (Habsent Hout); exact Hout].
    destruct (indexOfFrom_present 0 camera _ Hin)
      as (before & after & Hcameras & Hbefore & _).
    rewrite (Hfound before after Hcameras Hbefore).
    cbn [EngineScene._activeCameras EngineScene.set_activeCameras].
    rewrite Hcameras in Hnodup. apply NoDup_app in Hnodup as (_ & Hcross & Hafter).
    apply NoDup_cons in Hafter as [Hafter _].
    apply not_elem_of_app. split; assumption.
Qed.


(** X29. [findEntityByName] prefers a root entity to every descendant,
    and a later root to an earlier one: with a root of the name the
    answer is the last such root; without one it is what [findByName]
    finds below the last root where it finds something, and [null] when
    it finds nothing below any root. *)
Theorem findEntityByName_prefers_last_root :
  forall (s : EngineScene.t) (n : string),
    (forall before root after,
       EngineScene._rootEntities s = before ++ root :: after ->
       name root = n ->
       Forall (fun later => name later <> n) after ->
       EngineScene.findEntityByName name findByName n s = Some root)
    /\ (Forall (fun root => name root <> n) (EngineScene._rootEntities s) ->
        (forall before root after entity,
           EngineScene._rootEntities s = before ++ root :: after ->
           findByName root n = Some entity ->
           Forall (fun later => findByName later n = None) after ->
           EngineScene.findEntityByName name findByName n s = Some entity)
        /\ (Forall (fun root => findByName root n = None)
              (EngineScene._rootEntities s) ->
            EngineScene.findEntityByName name findByName n s = None)).
Proof.
  intros s n. unfold EngineScene.findEntityByName.
  assert (Hnamed : forall roots rest,
            Forall (fun root => name root <> n) roots ->
            EngineScene.lastNamed name n (roots ++ rest)
            = EngineScene.lastNamed name n rest).
  { intros roots rest Hroots.
    induction Hroots as [|root roots Hroot _ IH]; [reflexivity|].
    cbn [app EngineScene.lastNamed].
    destruct (String.eqb_spec (name root) n); [contradiction | exact IH]. }
  assert (Hholding : forall roots rest,
            Forall (fun root => findByName root n = None) roots ->
            EngineScene.lastHolding findByName n (roots ++ rest)
            = EngineScene.lastHolding findByName n rest).
  { intros roots rest Hroots.
    induction Hroots as [|root roots Hroot _ IH]; [reflexivity|].
    cbn [app EngineScene.lastHolding]. rewrite Hroot. exact IH. }
  split.
  - intros before root after -> Hroot Hafter.
    rewrite rev_app_distr. cbn [rev]. rewrite <- app_assoc.
    rewrite Hnamed by (apply Forall_rev; exact Hafter).
    cbn [app EngineScene.lastNamed].
    destruct (String.eqb_spec (name root) n); [reflexivity | contradiction].
  - intros Hroots.
    assert (Hnone : EngineScene.lastNamed name n
                      (rev (EngineScene._rootEntities s)) = None).
    { rewrite <- (app_nil_r (rev _)).
      rewrite Hnamed by (apply Forall_rev; exact Hroots). reflexivity. }
    rewrite Hnone. split.
    + intros before root after entity -> Hentity Hafter.
      rewrite rev_app_distr. cbn [rev]. rewrite <- app_assoc.
      rewrite Hholding by (apply Forall_rev; exact Hafter).
      cbn [app EngineScene.lastHolding]. rewrite Hentity. reflexivity.
    + intros Hnothing. rewrite <- (app_nil_r (rev _)).
      rewrite Hholding by (apply Forall_rev; exact Hnothing). reflexivity.
Qed.

End SceneFacts.


(** The pipeline of the scenario holds [shadow], the default pass and
    [post]; a pass of the priority 0 that is added for the name
    [overlay] goes behind the default pass and before [post]. *)
Lemma addRenderPass_places_by_priority_witness :
  exists before after,
    [1; 0; 2]%nat = before ++ after
    /\ BasicRenderPipeline._renderPassArray
         (BasicRenderPipeline.addRenderPass PipelineScenario.priority
            (Name "overlay") 3%nat PipelineScenario.threePasses)
       = before ++ 3%nat :: after
    /\ Forall (fun earlier =>
                 PipelineScenario.priority earlier
                 <= PipelineScenario.priority 3%nat) before
    /\ Forall (fun later =>
                 PipelineScenario.priority 3%nat
                 < PipelineScenario.priority later) after.
Proof.
  apply (addRenderPass_places_by_priority PipelineScenario.priority
           PipelineScenario.threePasses (Name "overlay") 3%nat 3%nat).
  - reflexivity.
  - vm_compute. repeat (split || constructor); discriminate.
Defined.

(** A new pipeline holds its default pass; removing a pass that was never
    added removes the default pass. *)
Lemma removeRenderPass_of_absent_pass_removes_last_witness :
  BasicRenderPipeline._renderPassArray PipelineScenario.fresh = [0%nat]
  /\ BasicRenderPipeline._renderPassArray
       (BasicRenderPipeline.removeRenderPass PipelineScenario.name
          (Pass 3%nat) PipelineScenario.fresh)
     = [].
Proof.
  split; [reflexivity|].
  refine (eq_trans
            (removeRenderPass_of_absent_pass_removes_last
               PipelineScenario.name PipelineScenario.fresh 3%nat _) _).
  - vm_compute. intros Hin. apply list_elem_of_singleton in Hin. discriminate.
  - reflexivity.
Defined.

(** [overlay] is added to the pipeline of the scenario and removed
    again. *)
Lemma removeRenderPass_undoes_addRenderPass_witness :
  BasicRenderPipeline.removeRenderPass PipelineScenario.name (Pass 3%nat)
    (BasicRenderPipeline.addRenderPass PipelineScenario.priority (Pass 3%nat)
       0%nat PipelineScenario.threePasses)
  = PipelineScenario.threePasses.
Proof.
  apply (removeRenderPass_undoes_addRenderPass PipelineScenario.name
           PipelineScenario.priority PipelineScenario.threePasses 3%nat 0%nat).
  - vm_compute. repeat (split || constructor); discriminate.
  - vm_compute. intros Hin.
    repeat (apply elem_of_cons in Hin as [Hin|Hin]; [discriminate|]).
    apply elem_of_nil in Hin. exact Hin.
Defined.

